(** * pharma-web: the impoundment lifecycle, phone normalisation, the SMS relay
      and the inspections pagination, embedded from the TypeScript sources.

    Layout: the embedding (modules [Js], [Phone], ...) comes first, the
    theorems about it afterwards. *)

From Stdlib Require Import ZArith NArith List Bool Lia String Ascii PeanoNat.
From Stdlib Require Import Permutation Sorted.
Import ListNotations.

Set Implicit Arguments.

(* ================================================================== *)
(** * JavaScript values used by the pages                              *)
(* ================================================================== *)

Module Js.

(** A JavaScript string is a sequence of UTF-16 code units. *)
Definition cu := N.
Definition jsstring := list cu.

(** String literals of the sources (all of them ASCII). *)
Definition lit (s : string) : jsstring :=
  map N_of_ascii (list_ascii_of_string s).

Definition cu_eqb (a b : cu) : bool := N.eqb a b.

Fixpoint jseqb (a b : jsstring) : bool :=
  match a, b with
  | [], [] => true
  | x :: a', y :: b' => cu_eqb x y && jseqb a' b'
  | _, _ => false
  end.

(** [\d] of a regular expression without the [u] flag: ASCII digits. *)
Definition isDigit (c : cu) : bool := ((48 <=? c) && (c <=? 57))%N.

(** [\s], which is also what [String.prototype.trim] strips: WhiteSpace and
    LineTerminator of ECMA-262. *)
Definition isWhiteSpace (c : cu) : bool :=
  (((9 <=? c) && (c <=? 13))
   || (c =? 32) || (c =? 160) || (c =? 5760)
   || ((8192 <=? c) && (c <=? 8202))
   || (c =? 8232) || (c =? 8233) || (c =? 8239) || (c =? 8287)
   || (c =? 12288) || (c =? 65279))%N.

(** The string holds no white space. *)
Definition noWs (s : jsstring) : Prop :=
  forallb (fun c => negb (isWhiteSpace c)) s = true.

(** [s.replace(/\s+/g, '')] *)
Definition stripWs (s : jsstring) : jsstring :=
  filter (fun c => negb (isWhiteSpace c)) s.

(** [s.replace(/[^\d]/g, '')] *)
Definition keepDigits (s : jsstring) : jsstring := filter isDigit s.

Fixpoint trimStart (s : jsstring) : jsstring :=
  match s with
  | [] => []
  | c :: r => if isWhiteSpace c then trimStart r else s
  end.

Definition trimEnd (s : jsstring) : jsstring := rev (trimStart (rev s)).

(** [s.trim()] *)
Definition trim (s : jsstring) : jsstring := trimEnd (trimStart s).

(** Truthiness of a string: the empty string is the only falsy one. *)
Definition truthy (s : jsstring) : bool :=
  match s with [] => false | _ => true end.

(** Truthiness of an optional string field: missing and empty are falsy. *)
Definition truthyOpt (s : option jsstring) : bool :=
  match s with Some (_ :: _) => true | _ => false end.

(** [s.split(sep)] for a one-character separator. *)
Fixpoint split (sep : cu) (s : jsstring) : list jsstring :=
  match s with
  | [] => [[]]
  | c :: r =>
      if cu_eqb c sep then [] :: split sep r
      else match split sep r with
           | h :: t => (c :: h) :: t
           | [] => [[c]]
           end
  end.

(** [arr.join(sep)] *)
Fixpoint join (sep : jsstring) (l : list jsstring) : jsstring :=
  match l with
  | [] => []
  | [x] => x
  | x :: r => x ++ sep ++ join sep r
  end.

(** [a || b || ... || d] over optional strings: the first one that is
    present and not empty, else [d]. *)
Fixpoint firstTruthy (l : list (option jsstring)) (d : jsstring) : jsstring :=
  match l with
  | [] => d
  | Some ((_ :: _) as s) :: _ => s
  | _ :: r => firstTruthy r d
  end.

Definition mem (x : jsstring) (l : list jsstring) : bool :=
  existsb (jseqb x) l.

(** [Array.from(new Set(arr))]: first occurrences, in insertion order. *)
Fixpoint uniqFrom (seen : list jsstring) (l : list jsstring) : list jsstring :=
  match l with
  | [] => []
  | x :: r => if mem x seen then uniqFrom seen r else x :: uniqFrom (x :: seen) r
  end.

Definition uniq (l : list jsstring) : list jsstring := uniqFrom [] l.


(** [s.slice(1)] *)
Definition slice1 (s : jsstring) : jsstring := tl s.

(** Does [s] start with [p]?  Returns the rest. *)
Fixpoint stripPrefix (p s : jsstring) : option jsstring :=
  match p, s with
  | [], _ => Some s
  | x :: p', y :: s' => if cu_eqb x y then stripPrefix p' s' else None
  | _ :: _, [] => None
  end.

(** The regular expressions [/^<p>\d{n}$/] of the sources. *)
Definition prefixThenDigits (p : jsstring) (n : nat) (s : jsstring) : bool :=
  match stripPrefix p s with
  | Some ds => Nat.eqb (List.length ds) n && forallb isDigit ds
  | None => false
  end.

(** [/^\d+$/] *)
Definition allDigits1 (s : jsstring) : bool :=
  match s with [] => false | _ => forallb isDigit s end.

(** ** Numbers.

    Box counts and millisecond timestamps are integers; a JavaScript number
    holding one is modelled by its value in [Z] (subtraction, [Math.max],
    comparisons and [===] are exact on integers below 2^53), [NaN] by
    [None]. *)

Definition digitVal (c : cu) : Z := Z.of_N (c - 48).

Definition decVal (ds : jsstring) : Z :=
  fold_left (fun acc c => 10 * acc + digitVal c)%Z ds 0%Z.

Fixpoint digitsPrefix (s : jsstring) : jsstring :=
  match s with
  | [] => []
  | c :: r => if isDigit c then c :: digitsPrefix r else []
  end.

Definition splitSign (s : jsstring) : bool * jsstring :=
  match s with
  | 45%N :: r => (true, r)
  | 43%N :: r => (false, r)
  | _ => (false, s)
  end.

(** [parseInt(s, 10)]: leading white space is skipped, an optional sign is
    read, then the longest prefix of digits; [NaN] when there is none. *)
Definition parseInt (s : jsstring) : option Z :=
  let '(neg, r) := splitSign (trimStart s) in
  match digitsPrefix r with
  | [] => None
  | ds => Some (if neg then (- decVal ds)%Z else decVal ds)
  end.

(** [Number(s)] on a string, for the integer literals: the trimmed string is
    empty (giving 0) or an optionally signed run of digits.  Every other
    string is outside the integer model and is read as [NaN]. *)
Definition toNumber (s : jsstring) : option Z :=
  match trim s with
  | [] => Some 0%Z
  | t =>
      let '(neg, r) := splitSign t in
      if allDigits1 r then Some (if neg then (- decVal r)%Z else decVal r)
      else None
  end.

(** The character of the last decimal digit of [n]. *)
Definition digitOf (n : Z) : cu := (48 + Z.to_N (n mod 10))%N.

Fixpoint digitsOfFuel (fuel : nat) (n : Z) (acc : jsstring) : jsstring :=
  let acc' := digitOf n :: acc in
  match fuel with
  | O => acc'
  | S f => if (n <? 10)%Z then acc' else digitsOfFuel f (n / 10)%Z acc'
  end.

Definition digitsOf (n : Z) : jsstring :=
  digitsOfFuel (Z.to_nat (Z.log2 n)) n [].

(** [String(n)] for an integer [n]. *)
Definition toString (n : Z) : jsstring :=
  if (n <? 0)%Z then 45%N :: digitsOf (- n) else digitsOf n.

End Js.

(* ================================================================== *)
(** * Phone helpers (UG)                                               *)
(* ================================================================== *)

(** The same four helpers appear in [inspections/new/page.tsx],
    [inspections/page.tsx] and [inspections/[id]/page.tsx]. *)
Module Phone.
Import Js.

(** [const ugReCanonical = /^\+2567\d{8}$/] *)
Definition ugReCanonical (s : jsstring) : bool :=
  prefixThenDigits (lit "+2567") 8 s.

(** [/^2567\d{8}$/] *)
Definition ugReBare (s : jsstring) : bool :=
  prefixThenDigits (lit "2567") 8 s.

(** [/^07\d{8}$/] *)
Definition ugReLocal (s : jsstring) : bool :=
  prefixThenDigits (lit "07") 8 s.

Definition normalizeUgPhone (p : jsstring) : jsstring :=
  let s := stripWs p in
  if ugReCanonical s then s
  else if ugReBare s then lit "+" ++ s
  else if ugReLocal s then lit "+256" ++ slice1 s
  else s.

(** [(s || '').split(',').map(x => x.trim()).filter(Boolean)] *)
Definition splitCsv (s : option jsstring) : list jsstring :=
  let raw := match s with Some x => x | None => [] end in
  filter truthy (map trim (split 44%N raw)).

Definition uniqueCsv (arr : list jsstring) : jsstring :=
  join [44%N] (uniq arr).

End Phone.

(* ================================================================== *)
(** * Handlers as computations                                         *)
(* ================================================================== *)

(** An [async] handler reads and writes component state, performs awaited
    calls to the outside (the record store, the SMS relay) in program
    order, and ends normally or by a thrown exception.  [M] threads the
    state, records the outside calls in the order they were issued and
    carries the exception. *)
Module Eff.
Section Monad.
Variables St Ev Exn : Type.

Definition M (A : Type) : Type := St -> (list Ev * St * (Exn + A))%type.

Definition ret {A} (a : A) : M A := fun s => ([], s, inr a).

Definition throw {A} (e : Exn) : M A := fun s => ([], s, inl e).

Definition bind {A B} (m : M A) (k : A -> M B) : M B :=
  fun s =>
    match m s with
    | (t, s1, inl e) => (t, s1, inl e)
    | (t, s1, inr a) =>
        match k a s1 with
        | (t', s2, r) => (t ++ t', s2, r)
        end
    end.

Definition get : M St := fun s => ([], s, inr s).

Definition modify (f : St -> St) : M unit := fun s => ([], f s, inr tt).

(** An awaited call to the outside: the call [e] is issued; [outcome] is
    what the outside answers, an exception or a value. *)
Definition call {A} (e : Ev) (outcome : Exn + A) : M A :=
  fun s => ([e], s, outcome).

(** [try { m } catch (e) { h e }] *)
Definition tryCatch {A} (m : M A) (h : Exn -> M A) : M A :=
  fun s =>
    match m s with
    | (t, s1, inl e) =>
        match h e s1 with
        | (t', s2, r) => (t ++ t', s2, r)
        end
    | done => done
    end.

(** [try { m } finally { f }], for a [finally] block that only sets state. *)
Definition tryFinally {A} (m : M A) (f : St -> St) : M A :=
  fun s =>
    match m s with
    | (t, s1, r) => (t, f s1, r)
    end.

End Monad.

Arguments ret {St Ev Exn A} a.
Arguments throw {St Ev Exn A} e.
Arguments bind {St Ev Exn A B} m k.
Arguments get {St Ev Exn}.
Arguments modify {St Ev Exn} f.
Arguments call {St Ev Exn A} e outcome.
Arguments tryCatch {St Ev Exn A} m h.
Arguments tryFinally {St Ev Exn A} m f.

Definition trace {St Ev Exn A} (r : list Ev * St * (Exn + A)) : list Ev :=
  fst (fst r).
Definition final {St Ev Exn A} (r : list Ev * St * (Exn + A)) : St :=
  snd (fst r).
Definition outcome {St Ev Exn A} (r : list Ev * St * (Exn + A)) : Exn + A :=
  snd r.

Module Notations.
Notation "x <- m ;; k" := (bind m (fun x => k))
  (at level 61, m at next level, right associativity).
Notation "m ;;; k" := (bind m (fun _ => k))
  (at level 61, right associativity).
End Notations.

End Eff.

(** A thrown value: [e?.message], when it has one. *)
Definition Exn := option Js.jsstring.

(* ================================================================== *)
(** * app/api/sms/route.ts                                             *)
(* ================================================================== *)

Module SmsRoute.
Import Js Eff Eff.Notations.

(** [Partial<SendSmsPayload>]: both fields may be missing. *)
Record SendSmsPayload := {
  phone : option jsstring;
  message : option jsstring
}.

(** The JSON body sent upstream. *)
Record UpstreamRequest := {
  up_phone : jsstring;
  up_message : jsstring;
  up_api_key : jsstring
}.

Section Route.
(** The provider's payload is passed through untouched. *)
Variable Data : Type.
(** [{}], what [upstream.json().catch(() => ({}))] falls back to. *)
Variable emptyObject : Data.

(** What [fetch] resolves to: the status and the parsed body, [None] when
    [upstream.json()] rejects. *)
Record UpstreamResponse := {
  up_status : Z;
  up_json : option Data
}.

(** [Response.ok]: the status is in the range 200-299. *)
Definition up_ok (u : UpstreamResponse) : bool :=
  ((200 <=? up_status u) && (up_status u <=? 299))%Z.

Inductive Body :=
| ErrorBody (error : jsstring)              (* { ok: false, error } *)
| RelayBody (ok : bool) (status : Z) (data : Data). (* { ok, status, data } *)

Record Response := {
  status : Z;
  body : Body
}.

Inductive Event := Fetch (r : UpstreamRequest).

Definition R := M unit Event Exn.

(** [phone.split(",").map(p => p.trim()).filter(Boolean).join(",")] *)
Definition cleanedPhone (phone : jsstring) : jsstring :=
  join [44%N] (filter truthy (map trim (split 44%N phone))).

Definition orEmpty (v : option jsstring) : jsstring :=
  match v with Some s => s | None => [] end.

(** [NextResponse.json({ ok: false, error: msg }, { status: code })] *)
Definition failure (code : Z) (msg : jsstring) : Response :=
  {| status := code; body := ErrorBody msg |}.

(** [err?.message ?? "Unknown error"] *)
Definition messageOf (err : Exn) : jsstring :=
  match err with Some m => m | None => lit "Unknown error" end.

(** [reqJson] is what reading the body gives: the payload, or the
    exception thrown by [req.json()] on a malformed body (and by the
    [.trim()] calls on a body that does not have the declared type). *)
Definition POST
    (apiKey : option jsstring)
    (reqJson : Exn + SendSmsPayload)
    (fetchUpstream : UpstreamRequest -> Exn + UpstreamResponse)
    : R Response :=
  tryCatch
    (match apiKey with
     | Some ((_ :: _) as key) =>
         b <- (fun s => ([], s, reqJson)) ;;
         let phone := trim (orEmpty (phone b)) in
         let message := trim (orEmpty (message b)) in
         if negb (truthy phone) then
           ret (failure 400 (lit "Phone is required."))
         else if negb (truthy message) then
           ret (failure 400 (lit "Message is required."))
         else
           let rq := {| up_phone := cleanedPhone phone;
                        up_message := message;
                        up_api_key := key |} in
           upstream <- call (Fetch rq) (fetchUpstream rq) ;;
           let data := match up_json upstream with
                       | Some d => d
                       | None => emptyObject
                       end in
           (* Pass through upstream status and payload *)
           ret {| status := up_status upstream;
                  body := RelayBody (up_ok upstream) (up_status upstream) data |}
     | _ =>
         ret (failure 500 (lit "Server is missing YOOLA_SMS_API_KEY."))
     end)
    (fun err => ret (failure 500 (messageOf err))).

(** Running the handler on one request. *)
Definition run (apiKey : option jsstring) (reqJson : Exn + SendSmsPayload)
    (fetchUpstream : UpstreamRequest -> Exn + UpstreamResponse)
    : list Event * (Exn + Response) :=
  let r := POST apiKey reqJson fetchUpstream tt in
  (trace r, outcome r).

End Route.

Arguments ErrorBody {Data} error.
Arguments RelayBody {Data} ok status data.
Arguments failure {Data} code msg.

End SmsRoute.

(* ================================================================== *)
(** * app/(protected)/bounded-drugs/page.tsx                           *)
(* ================================================================== *)

Module BoundedDrugs.
Import Js Eff Eff.Notations.

(** [boxesImpounded?: string | number] *)
Inductive BoxCount :=
| BNum (n : Z)
| BStr (s : jsstring).

Record Inspection := {
  id : jsstring;
  serialNumber : option jsstring;
  drugshopName : option jsstring;
  clientTelephone : option jsstring;
  boxesImpounded : option BoxCount;
  status : option jsstring;
  releasedAt : option Z
}.

(** [auth.currentUser] *)
Record User := {
  uid : jsstring;
  email : option jsstring;
  displayName : option jsstring
}.

(** [const num = (v: unknown): number => ...] *)
Definition num (v : option BoxCount) : Z :=
  match v with
  | Some (BNum n) => n
  | Some (BStr s) => match toNumber s with Some n => n | None => 0 end
  | None => 0
  end.

(** [/^(\+?\d{7,15})$/.test((t || "").replace(/\s+/g, ""))] *)
Definition telOk (t : jsstring) : bool :=
  let s := stripWs t in
  let ds := match s with 43%N :: r => r | _ => s end in
  Nat.leb 7 (List.length ds) && Nat.leb (List.length ds) 15 && forallb isDigit ds.

(** The fields of the release form (one [useState] each). *)
Record Form := {
  relDate : jsstring;
  clientName : jsstring;
  telephone : jsstring;
  releasedBy : jsstring;
  comment : jsstring;
  boxesReleased : jsstring;
  ack1 : bool;
  ack2 : bool;
  confirmText : jsstring
}.

Record State := {
  target : option Inspection;
  open : bool;
  savingId : option jsstring;
  error : option jsstring;
  form : Form
}.

Definition setError (e : option jsstring) (st : State) : State :=
  {| target := target st; open := open st; savingId := savingId st;
     error := e; form := form st |}.

Definition setSavingId (v : option jsstring) (st : State) : State :=
  {| target := target st; open := open st; savingId := v;
     error := error st; form := form st |}.

Definition setOpen (v : bool) (st : State) : State :=
  {| target := target st; open := v; savingId := savingId st;
     error := error st; form := form st |}.

(** [onChange={(e) => setBoxesReleased(e.target.value.replace(/[^\d]/g, ""))}] *)
Definition typeBoxesReleased (value : jsstring) (st : State) : State :=
  let f := form st in
  {| target := target st; open := open st; savingId := savingId st;
     error := error st;
     form := {| relDate := relDate f; clientName := clientName f;
                telephone := telephone f; releasedBy := releasedBy f;
                comment := comment f; boxesReleased := keepDigits value;
                ack1 := ack1 f; ack2 := ack2 f;
                confirmText := confirmText f |} |}.

(** The checks of [handleSubmitRelease] on the fields other than the count. *)
Definition fieldsOk (f : Form) : bool :=
  truthy (relDate f) && truthy (trim (clientName f))
  && truthy (trim (telephone f)) && telOk (telephone f)
  && truthy (trim (releasedBy f)).

(** What the page takes from the platform: [Date], [Intl] and the case
    mappings of [String.prototype]. *)
Record Platform := {
  (** [new Date(s).toISOString()], which throws on an invalid date *)
  dateToISOString : jsstring -> Exn + jsstring;
  (** [new Date().toISOString()] *)
  nowIso : jsstring;
  (** [Date.now()] *)
  dateNow : Z;
  (** the release date as shown in the message ([whenStr]) *)
  formatWhen : jsstring -> jsstring;
  toUpperCase : jsstring -> jsstring;
  toLowerCase : jsstring -> jsstring
}.

(** What the outside answers to the three awaited calls. *)
Record Net := {
  pushResult : Exn + unit;
  updateResult : Exn + unit;
  smsResult : Exn + unit
}.

(** The record appended under [releases/{inspectionId}]. *)
Record ReleaseRecord := {
  r_inspectionId : jsstring;
  r_date : jsstring;
  r_clientName : jsstring;
  r_telephone : jsstring;
  r_releasedBy : jsstring;
  r_comment : jsstring;
  r_boxesReleased : Z;
  r_createdAt : jsstring;
  r_createdByUid : jsstring;
  r_createdByEmail : option jsstring;
  r_createdByName : option jsstring
}.

(** The patch applied to [inspections/{id}]. *)
Record InspectionPatch := {
  p_boxesImpounded : BoxCount;
  p_status : jsstring;
  p_releasedAt : Z;
  p_releasedBy : jsstring;
  p_releasedByEmail : option jsstring;
  p_releasedByName : option jsstring;
  p_lastReleaseNote : option jsstring;
  p_lastReleaseCount : Z
}.

Inductive Event :=
| Push (path : jsstring) (r : ReleaseRecord)
| Update (path : jsstring) (p : InspectionPatch)
| Sms (phone message : jsstring)
| Alert (text : jsstring)
| ConsoleWarn
| ConsoleError.

Definition H := M State Event Exn.

Definition orElse (v : option jsstring) (d : jsstring) : jsstring :=
  match v with
  | Some ((_ :: _) as s) => s
  | _ => d
  end.

Definition uidOf (me : option User) : jsstring :=
  match me with Some u => uid u | None => lit "anonymous" end.

Definition emailOf (me : option User) : option jsstring :=
  match me with Some u => email u | None => None end.

Definition nameOf (me : option User) : option jsstring :=
  match me with Some u => displayName u | None => None end.

Section Page.
Variable P : Platform.
Variable me : option User.

Definition canConfirm (st : State) : bool :=
  match target st with
  | None => false
  | Some t =>
      let typed := trim (confirmText (form st)) in
      let serial := trim (orElse (serialNumber t) []) in
      let okTyped :=
        jseqb (toUpperCase P typed) (lit "RELEASE")
        || (truthy serial && jseqb (toLowerCase P typed) (toLowerCase P serial)) in
      ack1 (form st) && ack2 (form st) && okTyped
  end.

Definition fail (msg : jsstring) : H unit := modify (setError (Some msg)).

Definition releaseMessage (t : Inspection) (f : Form) (count remaining : Z)
    : jsstring :=
  lit "Dear " ++ orElse (drugshopName t) (lit "Drugshop") ++ lit ", "
  ++ toString count ++ lit " box(es) have been released on "
  ++ formatWhen P (relDate f) ++ lit ". "
  ++ lit "Serial: " ++ orElse (serialNumber t) [8212%N] ++ lit ". "
  ++ lit "Remaining: " ++ toString remaining ++ lit ". "
  ++ lit "Officer: " ++ trim (releasedBy f) ++ lit ".".

Definition isStr (t : Inspection) : bool :=
  match boxesImpounded t with Some (BStr _) => true | _ => false end.

Definition nextStatus (remaining : Z) : jsstring :=
  if (remaining =? 0)%Z then lit "Completed" else lit "Pending Review".

(** The record pushed under [releases/{inspectionId}]. *)
Definition releaseRecord (t : Inspection)
    (date clientName telephone releasedBy comment : jsstring) (count : Z)
    : ReleaseRecord :=
  {| r_inspectionId := id t;
     r_date := date;
     r_clientName := trim clientName;
     r_telephone := stripWs telephone;
     r_releasedBy := trim releasedBy;
     r_comment := trim comment;
     r_boxesReleased := count;
     r_createdAt := nowIso P;
     r_createdByUid := uidOf me;
     r_createdByEmail := emailOf me;
     r_createdByName := nameOf me |}.

(** [const remaining = Math.max(0, available - count)] *)
Definition remainingOf (available count : Z) : Z :=
  Z.max 0 (available - count).

(** The patch written to [inspections/{id}]. *)
Definition inspectionPatch (t : Inspection) (comment : jsstring)
    (available count : Z) : InspectionPatch :=
  let remaining := remainingOf available count in
  {| p_boxesImpounded :=
       if isStr t then BStr (toString remaining) else BNum remaining;
     p_status := nextStatus remaining;
     p_releasedAt := dateNow P;
     p_releasedBy := uidOf me;
     p_releasedByEmail := emailOf me;
     p_releasedByName := nameOf me;
     p_lastReleaseNote :=
       match trim comment with [] => None | c => Some c end;
     p_lastReleaseCount := count |}.

(** The three outside calls of a release. *)
Definition pushEv (t : Inspection) (f : Form) (c : Z) (d : jsstring) : Event :=
  Push (lit "releases/" ++ id t)
    (releaseRecord t d (clientName f) (telephone f) (releasedBy f) (comment f) c).

Definition updateEv (t : Inspection) (f : Form) (a c : Z) : Event :=
  Update (lit "inspections/" ++ id t) (inspectionPatch t (comment f) a c).

Definition smsEv (t : Inspection) (f : Form) (a c : Z) : Event :=
  Sms (stripWs (telephone f)) (releaseMessage t f c (remainingOf a c)).

(** [alert(`Release recorded. Status: ${nextStatus}`)] *)
Definition doneAlert (a c : Z) : Event :=
  Alert (lit "Release recorded. Status: " ++ nextStatus (remainingOf a c)).

(** The [try] block of [handleSubmitRelease], entered once every check
    has passed. *)
Definition submit (net : Net) (t : Inspection) (f : Form)
    (available count : Z) : H unit :=
  modify (setError None) ;;;
  modify (setSavingId (Some (id t))) ;;;
  (* 1) Append a release record under /releases/{inspectionId} *)
  date <- (fun s => ([], s, dateToISOString P (relDate f))) ;;
  call (pushEv t f count date) (pushResult net) ;;;
  (* 2) Update the inspection entry *)
  call (updateEv t f available count) (updateResult net) ;;;
  (* 3) SMS (fire-and-forget) *)
  tryCatch
    (call (smsEv t f available count) (smsResult net))
    (fun _ => call ConsoleWarn (inr tt)) ;;;
  modify (setOpen false) ;;;
  call (doneAlert available count) (inr tt).

(** The [catch] block. *)
Definition onError (e : Exn) : H unit :=
  call ConsoleError (inr tt) ;;;
  modify (setError
            (Some (orElse e (lit "Failed to submit release. Please try again.")))).

Definition handleSubmitRelease (net : Net) : H unit :=
  st <- get ;;
  match target st with
  | None => ret tt
  | Some t =>
      let f := form st in
      let available := num (boxesImpounded t) in
      let count := parseInt (boxesReleased f) in
      if negb (truthy (relDate f)) then
        fail (lit "Release date is required.")
      else if negb (truthy (trim (clientName f))) then
        fail (lit "Client name is required.")
      else if negb (truthy (trim (telephone f))) then
        fail (lit "Telephone number is required.")
      else if negb (telOk (telephone f)) then
        fail (lit "Enter a valid phone number (e.g. +2567XXXXXXX).")
      else if negb (truthy (trim (releasedBy f))) then
        fail (lit "Released by is required.")
      else
        match count with
        | None => fail (lit "Enter a valid number of boxes to release.")
        | Some c =>
            if (c <=? 0)%Z then
              fail (lit "Enter a valid number of boxes to release.")
            else if (c >? available)%Z then
              fail (lit "You are releasing " ++ toString c
                      ++ lit ", but only " ++ toString available
                      ++ lit " are impounded.")
            else if negb (canConfirm st) then
              fail (lit "Complete acknowledgements and type RELEASE or the Serial.")
            else
              tryFinally (tryCatch (submit net t f available c) onError)
                         (setSavingId None)
        end
  end.

(** ** Vocabulary for the statements about the handler *)

(** The state once the [try] block is entered. *)
Definition entered (t : Inspection) (st : State) : State :=
  setSavingId (Some (id t)) (setError None st).

(** The state after a failed write: the error is shown, the modal stays. *)
Definition failedWith (e : Exn) (t : Inspection) (st : State) : State :=
  setSavingId None
    (setError (Some (orElse e (lit "Failed to submit release. Please try again.")))
       (entered t st)).

(** The state after a completed release: no error, the modal closed. *)
Definition released (t : Inspection) (st : State) : State :=
  setSavingId None (setOpen false (entered t st)).

End Page.


End BoundedDrugs.

(* ================================================================== *)
(** * app/bounded-drugs/page.tsx (the earlier page, [BoundedFromInspections]) *)
(* ================================================================== *)

(** The earlier bounded-drugs page declares the same [Inspection] type and
    writes the same two records; it has no type-to-confirm step and calls
    the provider directly. *)
Module BoundedFromInspections.
Import Js Eff Eff.Notations.

Definition BoxCount := BoundedDrugs.BoxCount.
Definition Inspection := BoundedDrugs.Inspection.
Definition User := BoundedDrugs.User.
Definition Platform := BoundedDrugs.Platform.
Definition ReleaseRecord := BoundedDrugs.ReleaseRecord.
Definition InspectionPatch := BoundedDrugs.InspectionPatch.
Definition Event := BoundedDrugs.Event.

(** [function parseNumber(n: any): number] *)
Definition parseNumber (n : option BoxCount) : Z :=
  match n with
  | Some (BoundedDrugs.BNum x) => x
  | Some (BoundedDrugs.BStr s) => match toNumber s with Some x => x | None => 0 end
  | None => 0
  end.

(** [const validateTel = (t) => /^(\+?\d{7,15})$/.test((t || '').replace(/\s+/g, ''))] *)
Definition validateTel (t : jsstring) : bool :=
  let s := stripWs t in
  let ds := match s with 43%N :: r => r | _ => s end in
  Nat.leb 7 (List.length ds) && Nat.leb (List.length ds) 15 && forallb isDigit ds.

Record State := {
  targetRow : option Inspection;
  confirmOpen : bool;
  savingId : option jsstring;
  saveError : option jsstring;
  relDate : jsstring;
  clientName : jsstring;
  telephone : jsstring;
  releasedBy : jsstring;
  comment : jsstring;
  boxesReleased : jsstring
}.

Definition setSaveError (e : option jsstring) (st : State) : State :=
  {| targetRow := targetRow st; confirmOpen := confirmOpen st;
     savingId := savingId st; saveError := e;
     relDate := relDate st; clientName := clientName st;
     telephone := telephone st; releasedBy := releasedBy st;
     comment := comment st; boxesReleased := boxesReleased st |}.

Definition setSavingId (v : option jsstring) (st : State) : State :=
  {| targetRow := targetRow st; confirmOpen := confirmOpen st;
     savingId := v; saveError := saveError st;
     relDate := relDate st; clientName := clientName st;
     telephone := telephone st; releasedBy := releasedBy st;
     comment := comment st; boxesReleased := boxesReleased st |}.

Definition setConfirmOpen (v : bool) (st : State) : State :=
  {| targetRow := targetRow st; confirmOpen := v;
     savingId := savingId st; saveError := saveError st;
     relDate := relDate st; clientName := clientName st;
     telephone := telephone st; releasedBy := releasedBy st;
     comment := comment st; boxesReleased := boxesReleased st |}.

(** [onChange={(e) => setBoxesReleased(e.target.value.replace(/[^\d]/g, ''))}] *)
Definition typeBoxesReleased (value : jsstring) (st : State) : State :=
  {| targetRow := targetRow st; confirmOpen := confirmOpen st;
     savingId := savingId st; saveError := saveError st;
     relDate := relDate st; clientName := clientName st;
     telephone := telephone st; releasedBy := releasedBy st;
     comment := comment st; boxesReleased := keepDigits value |}.

(** The checks of [handleSubmitRelease] on the fields other than the count. *)
Definition fieldsOk (st : State) : bool :=
  truthy (relDate st) && truthy (trim (clientName st))
  && truthy (trim (telephone st)) && validateTel (telephone st)
  && truthy (trim (releasedBy st)).

(** The provider's answer to the direct [fetch]: an exception, or a
    response with its [ok] flag. *)
Record Net := {
  pushResult : Exn + unit;
  updateResult : Exn + unit;
  smsResult : Exn + bool
}.

Definition H := M State Event Exn.

(** [parseNumber(targetRow?.boxesImpounded ?? 0)] *)
Definition availableBoxes (st : State) : Z :=
  match targetRow st with
  | Some t => parseNumber (BoundedDrugs.boxesImpounded t)
  | None => 0
  end.

(** [Number.isNaN(parseInt(boxesReleased, 10)) ? 0 : parseInt(boxesReleased, 10)] *)
Definition intendedCount (st : State) : Z :=
  match parseInt (boxesReleased st) with
  | None => 0
  | Some c => c
  end.

Section Page.
Variable P : Platform.
Variable me : option User.

Definition fail (msg : jsstring) : H unit := modify (setSaveError (Some msg)).

Definition releaseMessage (t : Inspection) (st : State) (count remaining : Z)
    : jsstring :=
  lit "Dear " ++ BoundedDrugs.orElse (BoundedDrugs.drugshopName t) (lit "Drugshop")
  ++ lit ", "
  ++ toString count ++ lit " box(es) have been released on "
  ++ BoundedDrugs.formatWhen P (relDate st) ++ lit ". "
  ++ lit "Serial: " ++ BoundedDrugs.orElse (BoundedDrugs.serialNumber t) [8212%N]
  ++ lit ". "
  ++ lit "Remaining: " ++ toString remaining ++ lit ". "
  ++ lit "Officer: " ++ trim (releasedBy st) ++ lit ".".

(** The three outside calls of a release. *)
Definition pushEv (t : Inspection) (st : State) (c : Z) (d : jsstring) : Event :=
  BoundedDrugs.Push (lit "releases/" ++ BoundedDrugs.id t)
    (BoundedDrugs.releaseRecord P me t d (clientName st) (telephone st)
       (releasedBy st) (comment st) c).

Definition updateEv (t : Inspection) (st : State) (a c : Z) : Event :=
  BoundedDrugs.Update (lit "inspections/" ++ BoundedDrugs.id t)
    (BoundedDrugs.inspectionPatch P me t (comment st) a c).

Definition smsEv (t : Inspection) (st : State) (a c : Z) : Event :=
  BoundedDrugs.Sms (stripWs (telephone st))
    (releaseMessage t st c (BoundedDrugs.remainingOf a c)).

(** [alert(`Release recorded${smsOk ? ' and SMS sent' : ' (SMS failed)'}.\nStatus: ${nextStatus}`)] *)
Definition doneAlert (smsOk : bool) (a c : Z) : Event :=
  BoundedDrugs.Alert
    (lit "Release recorded"
     ++ (if smsOk then lit " and SMS sent" else lit " (SMS failed)")
     ++ lit "." ++ [10%N] ++ lit "Status: "
     ++ BoundedDrugs.nextStatus (BoundedDrugs.remainingOf a c)).

Definition submit (net : Net) (t : Inspection) (st : State)
    (available count : Z) : H unit :=
  modify (setSaveError None) ;;;
  modify (setSavingId (Some (BoundedDrugs.id t))) ;;;
  (* 1) Write release record *)
  date <- (fun s => ([], s, BoundedDrugs.dateToISOString P (relDate st))) ;;
  call (pushEv t st count date) (pushResult net) ;;;
  (* 2) Update inspection *)
  call (updateEv t st available count) (updateResult net) ;;;
  (* 3) Send SMS *)
  smsOk <- tryCatch
             (call (smsEv t st available count) (smsResult net))
             (fun _ => ret false) ;;
  modify (setConfirmOpen false) ;;;
  call (doneAlert smsOk available count) (inr tt).

(** The [catch] block. *)
Definition onError (e : Exn) : H unit :=
  call BoundedDrugs.ConsoleError (inr tt) ;;;
  modify (setSaveError
            (Some (BoundedDrugs.orElse e
                     (lit "Failed to submit release. Please try again.")))).

Definition handleSubmitRelease (net : Net) : H unit :=
  st <- get ;;
  match targetRow st with
  | None => ret tt
  | Some t =>
      let available := availableBoxes st in
      let count := intendedCount st in
      (* basic guards (UI already prevents, but double-check) *)
      if negb (truthy (relDate st)) then
        fail (lit "Release date is required.")
      else if negb (truthy (trim (clientName st))) then
        fail (lit "Client name is required.")
      else if negb (truthy (trim (telephone st))) then
        fail (lit "Telephone number is required.")
      else if negb (validateTel (telephone st)) then
        fail (lit "Enter a valid phone number (e.g. +2567XXXXXXX).")
      else if negb (truthy (trim (releasedBy st))) then
        fail (lit "Released by is required.")
      else if (count <=? 0)%Z then
        fail (lit "Enter a valid number of boxes to release.")
      else if (count >? available)%Z then
        fail (lit "You are releasing " ++ toString count
                ++ lit ", but only " ++ toString available
                ++ lit " are impounded.")
      else
        tryFinally (tryCatch (submit net t st available count) onError)
                   (setSavingId None)
  end.

(** ** Vocabulary for the statements about the handler *)

Definition entered (t : Inspection) (st : State) : State :=
  setSavingId (Some (BoundedDrugs.id t)) (setSaveError None st).

Definition failedWith (e : Exn) (t : Inspection) (st : State) : State :=
  setSavingId None
    (setSaveError
       (Some (BoundedDrugs.orElse e (lit "Failed to submit release. Please try again.")))
       (entered t st)).

Definition released (t : Inspection) (st : State) : State :=
  setSavingId None (setConfirmOpen false (entered t st)).

End Page.
End BoundedFromInspections.

(* ================================================================== *)
(** * app/(protected)/inspections/[id]/page.tsx                        *)
(* ================================================================== *)

Module InspectionDetail.
Import Js Eff Eff.Notations.

(** [type BoxStatus = 'Not yet in store' | 'In Store' | 'Released'] *)
Inductive BoxStatus := NotYetInStore | InStore | Released.

Definition BoxStatus_eqb (a b : BoxStatus) : bool :=
  match a, b with
  | NotYetInStore, NotYetInStore | InStore, InStore | Released, Released => true
  | _, _ => false
  end.

Record ReleaseForm := {
  releaseDate : jsstring;
  clientName : jsstring;
  telephone : jsstring;
  releasedBy : jsstring;
  comment : jsstring;
  boxesReleased : jsstring
}.

Record Meta := {
  serialNumber : option jsstring;
  drugshopName : option jsstring;
  facilityName : option jsstring;
  drugshopContactPhones : option jsstring;
  boxesImpounded : option jsstring;
  date : option jsstring
}.

Record Impoundment := {
  totalBoxes : option jsstring;
  impoundmentDate : option jsstring;
  boxStatus : option BoxStatus
}.

Record Inspection := {
  id : option jsstring;
  meta : option Meta;
  impoundment : option Impoundment;
  releaseRecord : option ReleaseForm
}.

Record State := {
  routeId : option jsstring;      (* [id], from the route parameters *)
  item : option Inspection;
  statusDraft : BoxStatus;
  savingStatus : bool;
  showModal : bool;
  form : ReleaseForm;
  consent : bool;
  releasing : bool
}.

Definition setStatusDraft (v : BoxStatus) (st : State) : State :=
  {| routeId := routeId st; item := item st; statusDraft := v;
     savingStatus := savingStatus st; showModal := showModal st;
     form := form st; consent := consent st; releasing := releasing st |}.

Definition setSavingStatus (v : bool) (st : State) : State :=
  {| routeId := routeId st; item := item st; statusDraft := statusDraft st;
     savingStatus := v; showModal := showModal st;
     form := form st; consent := consent st; releasing := releasing st |}.

Definition setShowModal (v : bool) (st : State) : State :=
  {| routeId := routeId st; item := item st; statusDraft := statusDraft st;
     savingStatus := savingStatus st; showModal := v;
     form := form st; consent := consent st; releasing := releasing st |}.

Definition setForm (v : ReleaseForm) (st : State) : State :=
  {| routeId := routeId st; item := item st; statusDraft := statusDraft st;
     savingStatus := savingStatus st; showModal := showModal st;
     form := v; consent := consent st; releasing := releasing st |}.

Definition setConsent (v : bool) (st : State) : State :=
  {| routeId := routeId st; item := item st; statusDraft := statusDraft st;
     savingStatus := savingStatus st; showModal := showModal st;
     form := form st; consent := v; releasing := releasing st |}.

Definition setReleasing (v : bool) (st : State) : State :=
  {| routeId := routeId st; item := item st; statusDraft := statusDraft st;
     savingStatus := savingStatus st; showModal := showModal st;
     form := form st; consent := consent st; releasing := v |}.

Definition setItem (v : option Inspection) (st : State) : State :=
  {| routeId := routeId st; item := v; statusDraft := statusDraft st;
     savingStatus := savingStatus st; showModal := showModal st;
     form := form st; consent := consent st; releasing := releasing st |}.

(** [item?.impoundment?.boxStatus] *)
Definition boxStatusOf (it : option Inspection) : option BoxStatus :=
  match it with
  | Some i => match impoundment i with Some imp => boxStatus imp | None => None end
  | None => None
  end.

Definition orNotYet (s : option BoxStatus) : BoxStatus :=
  match s with Some b => b | None => NotYetInStore end.

(** [const currentStatus = (item?.impoundment?.boxStatus as BoxStatus) || 'Not yet in store'] *)
Definition currentStatus (st : State) : BoxStatus :=
  orNotYet (boxStatusOf (item st)).

Definition metaOf (it : Inspection) : Meta :=
  match meta it with
  | Some m => m
  | None => {| serialNumber := None; drugshopName := None; facilityName := None;
               drugshopContactPhones := None; boxesImpounded := None; date := None |}
  end.

Definition impOf (it : Inspection) : Impoundment :=
  match impoundment it with
  | Some i => i
  | None => {| totalBoxes := None; impoundmentDate := None; boxStatus := None |}
  end.

Definition collectOwnerPhones (it : Inspection) (extra : option jsstring) : jsstring :=
  let base := Phone.splitCsv (drugshopContactPhones (metaOf it)) in
  let plus := match extra with Some ((_ :: _) as e) => [e] | _ => [] end in
  let normalized := filter truthy (map Phone.normalizeUgPhone (base ++ plus)) in
  Phone.uniqueCsv normalized.

(** A patch sent with [update]: [{ boxStatus }] at [.../{id}/impoundment], or
    [{ 'impoundment/boxStatus': 'Released', releaseRecord: form }] at
    [.../{id}]. *)
Inductive Patch :=
| StatusPatch (s : BoxStatus)
| ReleasePatch (s : BoxStatus) (r : ReleaseForm).

Inductive Event :=
| Update (path : jsstring) (p : Patch)
| Sms (to message : jsstring)
| Alert (text : jsstring)
| ConsoleWarn
| ConsoleError.

Record Net := {
  updateResult : Exn + unit;
  smsResult : Exn + unit
}.

Definition H := M State Event Exn.

Definition submissionPath (id : jsstring) : jsstring :=
  lit "ndachecklists/submissions/" ++ id.

Section Page.
(** [fmtDate]: [toLocaleDateString('en-UG', ...)], or a dash. *)
Variable fmtDate : option jsstring -> jsstring.

(** [a || b || null] *)
Definition orNull (l : list (option jsstring)) : option jsstring :=
  match firstTruthy l [] with [] => None | s => Some s end.

Definition buildInStoreMessage (it : Inspection) : jsstring :=
  let m := metaOf it in
  let imp := impOf it in
  let shop := firstTruthy [facilityName m; drugshopName m] (lit "Facility") in
  let boxes := firstTruthy [totalBoxes imp; boxesImpounded m] (lit "0") in
  let when := fmtDate (orNull [impoundmentDate imp; date m]) in
  let ref := firstTruthy [serialNumber m; id it] [] in
  lit "Dear " ++ shop ++ lit ", your impounded drugs (" ++ boxes
  ++ lit " box(es)) are now IN STORE as of " ++ when
  ++ lit ". Ref: " ++ ref ++ lit ".".

Definition buildReleaseMessage (it : Inspection) (f : ReleaseForm) : jsstring :=
  let m := metaOf it in
  let shop := firstTruthy [facilityName m; drugshopName m] (lit "Facility") in
  let ref := firstTruthy [serialNumber m; id it] [] in
  let note := match comment f with
              | [] => []
              | c => lit " Note: " ++ c ++ lit "."
              end in
  lit "Dear " ++ shop ++ lit ", your impounded drugs (" ++ boxesReleased f
  ++ lit " box(es)) were RELEASED on " ++ fmtDate (Some (releaseDate f))
  ++ lit ". Ref: " ++ ref ++ lit "." ++ note.

Definition messageOr (e : Exn) (d : jsstring) : jsstring :=
  match e with Some ((_ :: _) as m) => m | _ => d end.

(** Save status & notify when moved to "In Store" *)
Definition saveBoxStatus (net : Net) : H unit :=
  st <- get ;;
  match routeId st, item st with
  | Some id, Some it =>
      (* Can't change anything once Released *)
      if BoxStatus_eqb (currentStatus st) Released then
        call (Alert (lit "Status is Released and cannot be changed.")) (inr tt) ;;;
        modify (setStatusDraft Released)
      (* Force using the Release modal for Released *)
      else if BoxStatus_eqb (statusDraft st) Released then
        call (Alert (lit "Use the Release button to complete release workflow and notify the client."))
             (inr tt) ;;;
        modify (setStatusDraft (currentStatus st))
      else
        modify (setSavingStatus true) ;;;
        tryFinally
          ((* 1) Update status *)
           call (Update (submissionPath id ++ lit "/impoundment")
                   (StatusPatch (statusDraft st)))
                (updateResult net) ;;;
           (* 2) Notify owner if status became "In Store" *)
           if BoxStatus_eqb (statusDraft st) InStore then
             let toCsv := collectOwnerPhones it None in
             if truthy toCsv then
               tryCatch
                 (call (Sms toCsv (buildInStoreMessage it)) (smsResult net) ;;;
                  call (Alert (lit "Status saved. Owner notified (In Store).")) (inr tt))
                 (fun e =>
                    call ConsoleWarn (inr tt) ;;;
                    call (Alert (lit "Status saved, but SMS failed: "
                                   ++ messageOr e (lit "Unknown error")))
                         (inr tt))
             else ret tt
           else ret tt)
          (setSavingStatus false)
  | _, _ => ret tt
  end.

(** The error [validateRelease] raises for the count. *)
Definition mustBeNumber : jsstring := lit "Boxes Released must be a number".

(** Validate release form *)
Definition validateRelease (f : ReleaseForm) (consent : bool) : list jsstring :=
  (if negb (truthy (releaseDate f)) then [lit "Release Date is required"] else [])
  ++ (if negb (truthy (trim (clientName f))) then [lit "Client Name is required"] else [])
  ++ (if negb (truthy (trim (telephone f))) then [lit "Telephone is required"] else [])
  ++ (if negb (truthy (trim (releasedBy f))) then [lit "Released By is required"] else [])
  ++ (if negb (truthy (trim (boxesReleased f))) || negb (allDigits1 (boxesReleased f))
      then [mustBeNumber] else [])
  ++ (if negb consent then [lit "Consent is required"] else []).

(** a line feed, a bullet (U+2022) and a space *)
Definition bullet : jsstring := [10%N; 8226%N; 32%N].

(** Release workflow: SMS, then update DB to Released (irreversible) *)
Definition handleReleaseSubmit (net : Net) : H unit :=
  st <- get ;;
  match validateRelease (form st) (consent st) with
  | _ :: _ as errors =>
      call (Alert (lit "Fix the following:" ++ bullet ++ join bullet errors))
           (inr tt)
  | [] =>
      match routeId st, item st with
      | Some id, Some it =>
          modify (setReleasing true) ;;;
          tryFinally
            (tryCatch
               ((* Recipients = stored facility phones + phone entered in modal *)
                let toCsv := collectOwnerPhones it (Some (telephone (form st))) in
                (if truthy toCsv then ret tt
                 else throw (Some (lit "No facility contact phone available."))) ;;;
                (* 1) SMS must succeed first *)
                call (Sms toCsv (buildReleaseMessage it (form st))) (smsResult net) ;;;
                (* 2) Update: set to Released (irreversible) + save release record *)
                call (Update (submissionPath id) (ReleasePatch Released (form st)))
                     (updateResult net) ;;;
                call (Alert (lit "Released and SMS sent.")) (inr tt) ;;;
                modify (setShowModal false) ;;;
                modify (setConsent false))
               (fun e =>
                  call ConsoleError (inr tt) ;;;
                  call (Alert (lit "Release failed: " ++ messageOr e (lit "Unknown error")))
                       (inr tt)))
            (setReleasing false)
      | _, _ => ret tt
      end
  end.

(** ** The record in the store and the page's live copy of it. *)

Definition applyPatch (p : Patch) (rec : option Inspection) : option Inspection :=
  let it := match rec with
            | Some i => i
            | None => {| id := None; meta := None; impoundment := None;
                         releaseRecord := None |}
            end in
  let imp := impOf it in
  match p with
  | StatusPatch s =>
      Some {| id := id it; meta := meta it;
              impoundment := Some {| totalBoxes := totalBoxes imp;
                                     impoundmentDate := impoundmentDate imp;
                                     boxStatus := Some s |};
              releaseRecord := releaseRecord it |}
  | ReleasePatch s r =>
      Some {| id := id it; meta := meta it;
              impoundment := Some {| totalBoxes := totalBoxes imp;
                                     impoundmentDate := impoundmentDate imp;
                                     boxStatus := Some s |};
              releaseRecord := Some r |}
  end.

Definition isUpdate (e : Event) : bool :=
  match e with Update _ _ => true | _ => false end.

(** The store after the calls of a trace: an [update] that was answered
    without an exception has been applied. *)
Definition commit (net : Net) (t : list Event) (rec : option Inspection)
    : option Inspection :=
  match updateResult net with
  | inl _ => rec
  | inr _ =>
      fold_left (fun r e => match e with Update _ p => applyPatch p r | _ => r end)
                t rec
  end.

(** The [onValue] listener: the page takes the stored record, with the
    route id written into it, and resets the status draft. *)
Definition withId (rid : option jsstring) (rec : option Inspection)
    : option Inspection :=
  match rec with
  | Some v => Some {| id := rid; meta := meta v; impoundment := impoundment v;
                      releaseRecord := releaseRecord v |}
  | None => None
  end.

Definition onSnapshot (rec : option Inspection) (st : State) : State :=
  let v := withId (routeId st) rec in
  setStatusDraft (orNotYet (boxStatusOf v)) (setItem v st).

Record World := {
  store : option Inspection;     (* [ndachecklists/submissions/{id}] *)
  page : State
}.

(** What a user of the page can do. *)
Inductive Action :=
| SelectStatus (s : BoxStatus)       (* the status [<select>] *)
| ClickSave (net : Net)              (* [saveBoxStatus] *)
| OpenModal (b : bool)
| EditForm (f : ReleaseForm)
| CheckConsent (b : bool)
| ClickRelease (net : Net).          (* [handleReleaseSubmit] *)

Definition runHandler (h : Net -> H unit) (net : Net) (w : World) : World :=
  let r := h net (page w) in
  let wrote := existsb isUpdate (trace r) &&
               match updateResult net with inr _ => true | inl _ => false end in
  let store' := commit net (trace r) (store w) in
  {| store := store';
     page := if wrote then onSnapshot store' (final r) else final r |}.

Definition step (a : Action) (w : World) : World :=
  match a with
  | SelectStatus s => {| store := store w; page := setStatusDraft s (page w) |}
  | OpenModal b => {| store := store w; page := setShowModal b (page w) |}
  | EditForm f => {| store := store w; page := setForm f (page w) |}
  | CheckConsent b => {| store := store w; page := setConsent b (page w) |}
  | ClickSave net => runHandler saveBoxStatus net w
  | ClickRelease net => runHandler handleReleaseSubmit net w
  end.

Definition steps (acts : list Action) (w : World) : World :=
  fold_left (fun w a => step a w) acts w.

(** The page shows the stored record. *)
Definition synced (w : World) : Prop :=
  item (page w) = withId (routeId (page w)) (store w).

End Page.
End InspectionDetail.

(* ================================================================== *)
(** * app/(protected)/inspections/page.tsx                             *)
(* ================================================================== *)

Module InspectionsList.
Import Js Eff Eff.Notations.

(** [type BoxStatus = 'Not yet in store' | 'In Store' | 'Released' | 'DESTROYED'] *)
Inductive BoxStatus := NotYetInStore | InStore | Released | DESTROYED.

(** [createdAt?: string | number] *)
Inductive OrderVal :=
| ONum (n : Z)
| OStr (s : jsstring).

Record MetaBlock := {
  serialNumber : option jsstring;
  facilityName : option jsstring;
  drugshopName : option jsstring;
  drugshopContactPhones : option jsstring;
  boxesImpounded : option jsstring;
  date : option jsstring;
  createdAt : option OrderVal
}.

Record ImpoundmentBlock := {
  totalBoxes : option jsstring;
  impoundmentDate : option jsstring;
  boxStatus : option BoxStatus;
  reminder100SentAt : option jsstring (* set once we auto-notify (>100 days in store) *)
}.

Record Inspection := {
  id : jsstring;
  meta : MetaBlock;
  impoundment : option ImpoundmentBlock
}.

Definition PAGE_SIZE : nat := 24.

(** What the page takes from [Date]. *)
Record Platform := {
  (** [Date.parse(s)] and [new Date(s).getTime()]; [None] is [NaN] *)
  dateParse : jsstring -> option Z;
  (** [new Date().toISOString()] *)
  nowIso : jsstring;
  (** [fmtDate] *)
  fmtDate : jsstring -> jsstring
}.

Section Sorting.
Variable key : Inspection -> Z.

(** [arr.sort((a, b) => key(b) - key(a))]: descending, and stable. *)
Fixpoint insertDesc (x : Inspection) (l : list Inspection) : list Inspection :=
  match l with
  | [] => [x]
  | y :: r => if (key y <=? key x)%Z then x :: y :: r else y :: insertDesc x r
  end.

Definition sortDesc (l : list Inspection) : list Inspection :=
  fold_right insertDesc [] l.
End Sorting.

(** ** Pagination *)

(** [fbQuery(baseRef, orderByChild('meta/createdAt'), endAt(bound)?, limitToLast(n))] *)
Record Query := {
  endAt : option OrderVal;
  limitToLast : nat
}.

Record Pager := {
  items : list Inspection;
  lastSeenOrderVal : option OrderVal;    (* a ref *)
  reachedEnd : bool;                      (* a ref *)
  loadingMore : bool
}.

Definition setItems (f : list Inspection -> list Inspection) (st : Pager) : Pager :=
  {| items := f (items st); lastSeenOrderVal := lastSeenOrderVal st;
     reachedEnd := reachedEnd st; loadingMore := loadingMore st |}.

Definition setLastSeen (v : option OrderVal) (st : Pager) : Pager :=
  {| items := items st; lastSeenOrderVal := v;
     reachedEnd := reachedEnd st; loadingMore := loadingMore st |}.

Definition setReachedEnd (v : bool) (st : Pager) : Pager :=
  {| items := items st; lastSeenOrderVal := lastSeenOrderVal st;
     reachedEnd := v; loadingMore := loadingMore st |}.

Definition setLoadingMore (v : bool) (st : Pager) : Pager :=
  {| items := items st; lastSeenOrderVal := lastSeenOrderVal st;
     reachedEnd := reachedEnd st; loadingMore := v |}.

Inductive PagerEvent :=
| Get (q : Query)
| PagerAlert (text : jsstring)
| PagerConsoleError.

Definition HP := M Pager PagerEvent Exn.

(** [arr[arr.length - 1]] *)
Definition lastOf (l : list Inspection) : option Inspection :=
  match rev l with [] => None | x :: _ => Some x end.

(** The merge of [setItems((prev) => ...)]: entries of the batch whose id is
    already in [prev] are dropped, the others appended. *)
Definition mergeNew (prev batch : list Inspection) : list Inspection :=
  let seen := map id prev in
  prev ++ filter (fun it => negb (mem (id it) seen)) batch.

(** The query of a "load more" at a given cursor. *)
Definition cursorQuery (cursor : OrderVal) : Query :=
  {| endAt := Some (match cursor with
                    | ONum n => ONum (n - 1)
                    | OStr s => OStr s
                    end);
     limitToLast := PAGE_SIZE |}.

Section Paging.
Variable key : Inspection -> Z.          (* [createdAtMs(it.meta)] *)
(** The store's answer to [get(q)]: the children of the snapshot in
    query order, or an exception. *)
Variable get : Query -> Exn + list Inspection.

(** The first page, as the [onValue] listener and [onRefresh] install it. *)
Definition firstPage (snap : list Inspection) : Pager :=
  let next := sortDesc key snap in
  {| items := next;
     lastSeenOrderVal :=
       match lastOf next with
       | Some last => createdAt (meta last)
       | None => None
       end;
     reachedEnd := Nat.ltb (List.length next) PAGE_SIZE;
     loadingMore := false |}.

Definition loadMore : HP unit :=
  st <- Eff.get ;;
  match lastSeenOrderVal st with
  | None => ret tt
  | Some cursor =>
      if loadingMore st || reachedEnd st then ret tt
      else
        tryFinally
          (tryCatch
             (modify (setLoadingMore true) ;;;
              let q := cursorQuery cursor in
              snap <- call (Get q) (get q) ;;
              let batch := sortDesc key snap in
              match lastOf batch with
              | None => modify (setReachedEnd true)
              | Some last =>
                  modify (setItems (fun prev => sortDesc key (mergeNew prev batch))) ;;;
                  modify (setLastSeen
                            (match createdAt (meta last) with
                             | Some v => Some v
                             | None => Some cursor
                             end)) ;;;
                  if Nat.ltb (List.length batch) PAGE_SIZE
                  then modify (setReachedEnd true)
                  else ret tt
              end)
             (fun e =>
                call PagerConsoleError (inr tt) ;;;
                call (PagerAlert (lit "Failed to load more records.")) (inr tt)))
          (setLoadingMore false)
  end.

(** [n] presses of "load more", one after the other has settled. *)
Fixpoint loadMoreTimes (n : nat) (st : Pager) : list PagerEvent * Pager :=
  match n with
  | O => ([], st)
  | S k =>
      let r := loadMore st in
      let '(t, st') := loadMoreTimes k (final r) in
      (trace r ++ t, st')
  end.
End Paging.

(** ** The record store's ordered queries.

    The children of [ndachecklists/submissions] are given in the order of
    the [meta/createdAt] index: children without the value first, then
    numbers, then strings, ties by key.  [endAt(b)] keeps the children whose
    value is at most [b], [limitToLast(n)] the last [n] of them. *)

Fixpoint str_leb (a b : jsstring) : bool :=
  match a, b with
  | [], _ => true
  | _ :: _, [] => false
  | x :: a', y :: b' => (x <? y)%N || ((x =? y)%N && str_leb a' b')
  end.

Definition ord_leb (v : option OrderVal) (bound : OrderVal) : bool :=
  match v, bound with
  | None, _ => true
  | Some (ONum a), ONum b => (a <=? b)%Z
  | Some (ONum _), OStr _ => true
  | Some (OStr _), ONum _ => false
  | Some (OStr a), OStr b => str_leb a b
  end.

Definition lastN {A} (n : nat) (l : list A) : list A :=
  skipn (List.length l - n) l.

Definition runQuery (dataset : list Inspection) (q : Query) : list Inspection :=
  let kept := match endAt q with
              | Some b => filter (fun it => ord_leb (createdAt (meta it)) b) dataset
              | None => dataset
              end in
  lastN (limitToLast q) kept.

(** The answers of a store holding a fixed dataset. *)
Definition storeGet (dataset : list Inspection) (q : Query) : Exn + list Inspection :=
  inr (runQuery dataset q).

(** [fbQuery(baseRef, orderByChild('meta/createdAt'), limitToLast(PAGE_SIZE))] *)
Definition firstQuery : Query := {| endAt := None; limitToLast := PAGE_SIZE |}.

(** The page once its first snapshot has arrived. *)
Definition openPage (key : Inspection -> Z) (dataset : list Inspection) : Pager :=
  firstPage key (runQuery dataset firstQuery).

(** ** Datasets

    What the statements about pagination say of a fixed dataset. *)

(** Strictly before [c] in the index. *)
Definition ord_ltb (v : option OrderVal) (c : OrderVal) : bool :=
  ord_leb v c
  && negb (match v with Some w => ord_leb (Some c) w | None => false end).

Section Datasets.
Variable key : Inspection -> Z.
Variable ds : list Inspection.

(** Every record carries a numeric [createdAt]. *)
Definition numeric : Prop :=
  forall it, In it ds -> exists v, createdAt (meta it) = Some (ONum v).

(** Every record carries a [createdAt]. *)
Definition stamped : Prop :=
  forall it, In it ds -> exists c, createdAt (meta it) = Some c.

(** Below a string [createdAt] the sort key follows the index: a record
    that comes strictly before it in the index has a smaller key. *)
Definition keyFollowsIndex : Prop :=
  forall x y s,
    In x ds -> In y ds ->
    createdAt (meta y) = Some (OStr s) ->
    ord_ltb (createdAt (meta x)) (OStr s) = true ->
    (key x < key y)%Z.

Definition stampedAt (s : jsstring) (it : Inspection) : bool :=
  match createdAt (meta it) with
  | Some (OStr w) => jseqb w s
  | _ => false
  end.

(** Fewer records than a page share any one [createdAt] string. *)
Definition fewTies : Prop :=
  forall s, List.length (filter (stampedAt s) ds) < PAGE_SIZE.

(** The records strictly before [c] in the index, the measure of what is
    left to load. *)
Definition before (c : OrderVal) : list Inspection :=
  filter (fun it => ord_ltb (createdAt (meta it)) c) ds.





End Datasets.

Section CreatedAt.
Variable P : Platform.

Definition parsedDate (m : MetaBlock) : Z :=
  match date m with
  | Some ((_ :: _) as d) =>
      match dateParse P d with Some t => t | None => 0 end
  | _ => 0
  end.


(** [createdAtMs] of the other copy of the page: an unreadable
    [createdAt] string gives 0. *)
Definition createdAtMs' (m : MetaBlock) : Z :=
  match createdAt m with
  | Some (ONum v) => v
  | Some (OStr v) =>
      match dateParse P v with
      | Some t => t
      | None => 0
      end
  | None => parsedDate m
  end.
End CreatedAt.

(** ** Auto-remind when more than 100 days in store *)

Definition BoxStatus_eqb (a b : BoxStatus) : bool :=
  match a, b with
  | NotYetInStore, NotYetInStore | InStore, InStore
  | Released, Released | DESTROYED, DESTROYED => true
  | _, _ => false
  end.

Definition collectOwnerPhones (m : MetaBlock) : jsstring :=
  let base := Phone.splitCsv (drugshopContactPhones m) in
  let normalized := filter truthy (map Phone.normalizeUgPhone base) in
  Phone.uniqueCsv normalized.

Inductive RemindEvent :=
| Sms (to message : jsstring)
| Update (path : jsstring) (reminder100SentAt : jsstring)
| ConsoleWarn.

(** What the outside answers for the record with a given id. *)
Record RemindNet := {
  smsResult : jsstring -> Exn + unit;
  updateResult : jsstring -> Exn + unit
}.

(** [remindedIds]: prevents duplicate SMS sends within the current session. *)
Definition Reminded := list jsstring.

Definition HR := M Reminded RemindEvent Exn.

Section Remind.
Variable P : Platform.
Variable net : RemindNet.

Definition orNull (l : list (option jsstring)) : option jsstring :=
  match firstTruthy l [] with [] => None | s => Some s end.

Definition daysBetween (aIso bIso : option jsstring) : option Z :=
  match aIso, bIso with
  | Some ((_ :: _) as a), Some ((_ :: _) as b) =>
      match dateParse P a, dateParse P b with
      | Some ta, Some tb =>
          let diffMs := Z.max 0 (tb - ta) in
          Some (diffMs / (1000 * 60 * 60 * 24))%Z
      | _, _ => None
      end
  | _, _ => None
  end.

Definition buildReminder100Message (it : Inspection) (days : Z) : jsstring :=
  let m := meta it in
  let shop := firstTruthy [facilityName m; drugshopName m] (lit "Facility") in
  let ref := firstTruthy [serialNumber m; Some (id it)] [] in
  let impDate :=
    firstTruthy [match impoundment it with
                 | Some imp => impoundmentDate imp
                 | None => None
                 end; date m] [] in
  let when := fmtDate P impDate in
  let boxes :=
    firstTruthy [match impoundment it with
                 | Some imp => totalBoxes imp
                 | None => None
                 end; boxesImpounded m] (lit "0") in
  lit "Dear " ++ shop ++ lit ", your impounded drugs (" ++ boxes
  ++ lit " box(es)) have been in store for " ++ toString days
  ++ lit " days (since " ++ when ++ lit "). "
  ++ lit "Please arrange to claim them. Ref: " ++ ref ++ lit ".".

Definition impoundmentPath (it : Inspection) : jsstring :=
  lit "ndachecklists/submissions/" ++ id it ++ lit "/impoundment".

(** One turn of the [for (const it of list)] loop. *)
Definition remindOne (it : Inspection) : HR unit :=
  reminded <- Eff.get ;;
  match impoundment it with
  | None => ret tt
  | Some imp =>
      if negb (match boxStatus imp with
               | Some s => BoxStatus_eqb s InStore
               | None => false
               end) then ret tt                   (* only while in store *)
      else if truthyOpt (reminder100SentAt imp) then ret tt
                                                  (* already reminded *)
      else if mem (id it) reminded then ret tt    (* session guard *)
      else
        let start := orNull [impoundmentDate imp; date (meta it)] in
        match daysBetween start (Some (nowIso P)) with
        | None => ret tt
        | Some d =>
            if (d <=? 100)%Z then ret tt
            else
              let toCsv := collectOwnerPhones (meta it) in
              if negb (truthy toCsv) then ret tt
              else
                tryCatch
                  (call (Sms toCsv (buildReminder100Message it d))
                        (smsResult net (id it)) ;;;
                   call (Update (impoundmentPath it) (nowIso P))
                        (updateResult net (id it)) ;;;
                   modify (fun r => id it :: r))
                  (fun e => call ConsoleWarn (inr tt))
        end
  end.

(** One evaluation pass of the effect over [items]. *)
Fixpoint autoRemind (list : list Inspection) : HR unit :=
  match list with
  | [] => ret tt
  | it :: rest => remindOne it ;;; autoRemind rest
  end.

(** The record as the store holds it once the patch has been applied. *)
Definition withReminder (ts : jsstring) (it : Inspection) : Inspection :=
  {| id := id it; meta := meta it;
     impoundment :=
       match impoundment it with
       | Some imp => Some {| totalBoxes := totalBoxes imp;
                             impoundmentDate := impoundmentDate imp;
                             boxStatus := boxStatus imp;
                             reminder100SentAt := Some ts |}
       | None => Some {| totalBoxes := None; impoundmentDate := None;
                         boxStatus := None; reminder100SentAt := Some ts |}
       end |}.

End Remind.

(** The record is due for the reminder: in store, no timestamp, more than
    100 days since it was impounded, and a contact phone to write to. *)
Definition due (P : Platform) (it : Inspection) (d : Z) : Prop :=
  exists imp,
    impoundment it = Some imp /\
    boxStatus imp = Some InStore /\
    truthyOpt (reminder100SentAt imp) = false /\
    daysBetween P (orNull [impoundmentDate imp; date (meta it)]) (Some (nowIso P)) = Some d /\
    (100 < d)%Z /\
    truthy (collectOwnerPhones (meta it)) = true.

(** The record's reminder timestamp is set. *)
Definition reminderSet (it : Inspection) : Prop :=
  exists imp, impoundment it = Some imp /\ truthyOpt (reminder100SentAt imp) = true.

End InspectionsList.

(* ================================================================== *)
(** * Concrete records and forms, for the examples                     *)
(* ================================================================== *)

Module Examples.
Import Js.

Definition asciiUpper (s : jsstring) : jsstring :=
  map (fun c => if ((97 <=? c) && (c <=? 122))%N then (c - 32)%N else c) s.

Definition asciiLower (s : jsstring) : jsstring :=
  map (fun c => if ((65 <=? c) && (c <=? 90))%N then (c + 32)%N else c) s.

(** *** The bounded-drugs page *)

Definition platform : BoundedDrugs.Platform :=
  {| BoundedDrugs.dateToISOString := fun s => inr (s ++ lit "T00:00:00.000Z");
     BoundedDrugs.nowIso := lit "2025-03-01T09:30:00.000Z";
     BoundedDrugs.dateNow := 1740821400000%Z;
     BoundedDrugs.formatWhen := fun s => s;
     BoundedDrugs.toUpperCase := asciiUpper;
     BoundedDrugs.toLowerCase := asciiLower |}.

(** A record with five boxes impounded, the count stored as a string. *)
Definition shop : BoundedDrugs.Inspection :=
  {| BoundedDrugs.id := lit "-Nabc";
     BoundedDrugs.serialNumber := Some (lit "NDA-0042");
     BoundedDrugs.drugshopName := Some (lit "Kato Drug Shop");
     BoundedDrugs.clientTelephone := Some (lit "0772123456");
     BoundedDrugs.boxesImpounded := Some (BoundedDrugs.BStr (lit "5"));
     BoundedDrugs.status := None;
     BoundedDrugs.releasedAt := None |}.


Definition releaseForm (boxes : jsstring) : BoundedDrugs.Form :=
  {| BoundedDrugs.relDate := lit "2025-03-01";
     BoundedDrugs.clientName := lit "Kato";
     BoundedDrugs.telephone := lit "0772123456";
     BoundedDrugs.releasedBy := lit "Officer A";
     BoundedDrugs.comment := [];
     BoundedDrugs.boxesReleased := boxes;
     BoundedDrugs.ack1 := true;
     BoundedDrugs.ack2 := true;
     BoundedDrugs.confirmText := lit "release" |}.

Definition modalOn (t : BoundedDrugs.Inspection) (boxes : jsstring)
    : BoundedDrugs.State :=
  {| BoundedDrugs.target := Some t;
     BoundedDrugs.open := true;
     BoundedDrugs.savingId := None;
     BoundedDrugs.error := None;
     BoundedDrugs.form := releaseForm boxes |}.

Definition allFine : BoundedDrugs.Net :=
  {| BoundedDrugs.pushResult := inr tt;
     BoundedDrugs.updateResult := inr tt;
     BoundedDrugs.smsResult := inr tt |}.

Definition smsDown : BoundedDrugs.Net :=
  {| BoundedDrugs.pushResult := inr tt;
     BoundedDrugs.updateResult := inr tt;
     BoundedDrugs.smsResult := inl (Some (lit "SMS failed (502)")) |}.

(** *** The earlier bounded-drugs page *)

Definition legacyModal (t : BoundedDrugs.Inspection) (boxes : jsstring)
    : BoundedFromInspections.State :=
  {| BoundedFromInspections.targetRow := Some t;
     BoundedFromInspections.confirmOpen := true;
     BoundedFromInspections.savingId := None;
     BoundedFromInspections.saveError := None;
     BoundedFromInspections.relDate := lit "2025-03-01";
     BoundedFromInspections.clientName := lit "Kato";
     BoundedFromInspections.telephone := lit "0772123456";
     BoundedFromInspections.releasedBy := lit "Officer A";
     BoundedFromInspections.comment := [];
     BoundedFromInspections.boxesReleased := boxes |}.

Definition legacyFine : BoundedFromInspections.Net :=
  {| BoundedFromInspections.pushResult := inr tt;
     BoundedFromInspections.updateResult := inr tt;
     BoundedFromInspections.smsResult := inr true |}.

(** *** The inspection detail page *)

Definition showDate (d : option jsstring) : jsstring :=
  match d with Some ((_ :: _) as s) => s | _ => [8212%N] end.

(** An inspection in store, five boxes, one contact phone. *)
Definition stored : InspectionDetail.Inspection :=
  {| InspectionDetail.id := None;
     InspectionDetail.meta :=
       Some {| InspectionDetail.serialNumber := Some (lit "NDA-0042");
               InspectionDetail.drugshopName := None;
               InspectionDetail.facilityName := Some (lit "Kato Drug Shop");
               InspectionDetail.drugshopContactPhones := Some (lit "0772123456");
               InspectionDetail.boxesImpounded := Some (lit "5");
               InspectionDetail.date := Some (lit "2025-01-10") |};
     InspectionDetail.impoundment :=
       Some {| InspectionDetail.totalBoxes := Some (lit "5");
               InspectionDetail.impoundmentDate := Some (lit "2025-01-10");
               InspectionDetail.boxStatus := Some InspectionDetail.InStore |};
     InspectionDetail.releaseRecord := None |}.

Definition detailForm (boxes : jsstring) : InspectionDetail.ReleaseForm :=
  {| InspectionDetail.releaseDate := lit "2025-03-01";
     InspectionDetail.clientName := lit "Kato";
     InspectionDetail.telephone := lit "0772123456";
     InspectionDetail.releasedBy := lit "Officer A";
     InspectionDetail.comment := [];
     InspectionDetail.boxesReleased := boxes |}.

Definition detailPage (boxes : jsstring) : InspectionDetail.State :=
  {| InspectionDetail.routeId := Some (lit "-Nabc");
     InspectionDetail.item :=
       InspectionDetail.withId (Some (lit "-Nabc")) (Some stored);
     InspectionDetail.statusDraft := InspectionDetail.InStore;
     InspectionDetail.savingStatus := false;
     InspectionDetail.showModal := true;
     InspectionDetail.form := detailForm boxes;
     InspectionDetail.consent := true;
     InspectionDetail.releasing := false |}.

Definition detailFine : InspectionDetail.Net :=
  {| InspectionDetail.updateResult := inr tt;
     InspectionDetail.smsResult := inr tt |}.

Definition detailSmsDown : InspectionDetail.Net :=
  {| InspectionDetail.updateResult := inr tt;
     InspectionDetail.smsResult := inl (Some (lit "SMS failed (502): ")) |}.

(** *** The inspections list *)

(** [Date.parse] on the few dates of the examples, and on the instants
    [2025-01-01T00:00:ss.000Z] of the first minute of 2025. *)
Definition parseExampleDate (s : jsstring) : option Z :=
  match stripPrefix (lit "2025-01-01T00:00:") s with
  | Some [a; b; 46%N; 48%N; 48%N; 48%N; 90%N] =>
      if isDigit a && isDigit b
      then Some (1735689600000 + 1000 * decVal [a; b])%Z
      else None
  | _ =>
      if jseqb s (lit "2025-01-10") then Some 1736467200000%Z
      else if jseqb s (lit "2025-05-20") then Some 1747699200000%Z
      else if jseqb s (lit "2025-06-01T00:00:00.000Z") then Some 1748736000000%Z
      else None
  end.

Definition listPlatform : InspectionsList.Platform :=
  {| InspectionsList.dateParse := parseExampleDate;
     InspectionsList.nowIso := lit "2025-06-01T00:00:00.000Z";
     InspectionsList.fmtDate := fun s => s |}.






(** An impounded record, in store since 2025-01-10, never reminded. *)
Definition inStore (phones : option jsstring) : InspectionsList.Inspection :=
  {| InspectionsList.id := lit "-Nabc";
     InspectionsList.meta :=
       {| InspectionsList.serialNumber := Some (lit "NDA-0042");
          InspectionsList.facilityName := Some (lit "Kato Drug Shop");
          InspectionsList.drugshopName := None;
          InspectionsList.drugshopContactPhones := phones;
          InspectionsList.boxesImpounded := Some (lit "5");
          InspectionsList.date := Some (lit "2025-01-10");
          InspectionsList.createdAt :=
            Some (InspectionsList.OStr (lit "2025-01-10")) |};
     InspectionsList.impoundment :=
       Some {| InspectionsList.totalBoxes := Some (lit "5");
               InspectionsList.impoundmentDate := Some (lit "2025-01-10");
               InspectionsList.boxStatus := Some InspectionsList.InStore;
               InspectionsList.reminder100SentAt := None |} |}.

Definition relayUp : InspectionsList.RemindNet :=
  {| InspectionsList.smsResult := fun _ => inr tt;
     InspectionsList.updateResult := fun _ => inr tt |}.

End Examples.

(* ================================================================== *)
(** * Vocabulary for comma-separated lists                              *)
(* ================================================================== *)

Module Csv.
Import Js.

(** The string holds white space only. *)
Definition blank (s : jsstring) : Prop := forallb isWhiteSpace s = true.

(** A token as [splitCsv] gives them: not empty, trimmed, without a comma. *)
Definition cleanToken (t : jsstring) : Prop :=
  t <> [] /\ trim t = t /\ ~ In 44%N t.

End Csv.

(* ================================================================== *)
(** * app/(protected)/inspections/new/page.tsx: phones and numbering    *)
(* ================================================================== *)

Module NewInspection.
Import Js Phone.

(** [/^\+?2567\d{8}$|^07\d{8}$/] *)
Definition ugReAccepted (s : jsstring) : bool :=
  prefixThenDigits (lit "+2567") 8 s
  || prefixThenDigits (lit "2567") 8 s
  || prefixThenDigits (lit "07") 8 s.

(** The [for (const t of tokens)] loop of [validatePhones]: the first token
    whose normal form is not accepted. *)
Fixpoint firstInvalid (tokens : list jsstring) : option jsstring :=
  match tokens with
  | [] => None
  | t :: rest =>
      if negb (ugReAccepted (normalizeUgPhone t)) then Some t
      else firstInvalid rest
  end.

(** Soft validation used for inline field errors only; [None] is [null]. *)
Definition validatePhones (raw : jsstring) : option jsstring :=
  match splitCsv (Some raw) with
  | [] => Some (lit "Enter at least one phone number")
  | tokens =>
      match firstInvalid tokens with
      | Some t => Some (lit "Invalid phone: " ++ t)
      | None => None
      end
  end.

(** The recipients [sendSms] posts to [/api/sms]:
    [uniqueCsv(splitCsv(toPhonesCsv).map(normalizeUgPhone))]. *)
Definition recipients (toPhonesCsv : jsstring) : jsstring :=
  uniqueCsv (map normalizeUgPhone (splitCsv (Some toPhonesCsv))).

End NewInspection.

(* ================================================================== *)
(** * The pages' SMS helpers, and the route behind them                 *)
(* ================================================================== *)

Module SmsClient.
Import Js.

Section Client.
(** The parsed JSON body of a response. *)
Variable Json : Type.
(** [{}] *)
Variable emptyJson : Json.

(** The response [fetch('/api/sms', ...)] resolves to, as far as the pages
    look at it. *)
Record ApiResponse := {
  a_status : Z;
  a_text : Exn + jsstring;     (* [r.text()] *)
  a_json : Exn + Json          (* [r.json()] *)
}.

(** [Response.ok] *)
Definition a_ok (r : ApiResponse) : bool :=
  ((200 <=? a_status r) && (a_status r <=? 299))%Z.

(** [fetch('/api/sms', { method: 'POST', body: JSON.stringify({ phone, message }) })]:
    what the browser's request with these two fields resolves to, or the
    exception of a failed request. *)
Definition Fetcher : Type := jsstring -> jsstring -> Exn + ApiResponse.

(** [r.json().catch(() => ({}))] *)
Definition jsonOrEmpty (r : ApiResponse) : Json :=
  match a_json r with inr d => d | inl _ => emptyJson end.

(** [sendSmsViaApi] of the bounded-drugs page. *)
Definition sendSmsViaApi (fetchApi : Fetcher) (phone message : jsstring)
    : Exn + Json :=
  match fetchApi phone message with
  | inl e => inl e
  | inr res =>
      if negb (a_ok res) then
        inl (Some (lit "SMS failed (" ++ toString (a_status res) ++ lit ")"))
      else inr (jsonOrEmpty res)
  end.

(** [sendSms] of the inspection detail page and of the inspections list. *)
Definition sendSms (fetchApi : Fetcher) (toPhonesCsv message : jsstring)
    : Exn + Json :=
  match fetchApi toPhonesCsv message with
  | inl e => inl e
  | inr r =>
      if negb (a_ok r) then
        let text := match a_text r with inr t => t | inl _ => [] end in
        inl (Some (lit "SMS failed (" ++ toString (a_status r) ++ lit "): "
                   ++ (if truthy text then text else lit "Unknown error")))
      else inr (jsonOrEmpty r)
  end.

(** The awaited call as a page sees it when it drops the returned JSON. *)
Definition discard (r : Exn + Json) : Exn + unit :=
  match r with inl e => inl e | inr _ => inr tt end.

End Client.

(** ** The route as the server of [/api/sms] *)

Section Served.
Variable Data : Type.
Variable emptyObject : Data.
(** The text of the JSON body ([NextResponse.json] serialises it). *)
Variable bodyText : SmsRoute.Body Data -> jsstring.
(** [process.env.YOOLA_SMS_API_KEY] and the provider. *)
Variable apiKey : option jsstring.
Variable fetchUpstream :
  SmsRoute.UpstreamRequest -> Exn + SmsRoute.UpstreamResponse Data.

(** The request body [{ phone, message }] as the route reads it. *)
Definition payload (phone message : jsstring) : SmsRoute.SendSmsPayload :=
  {| SmsRoute.phone := Some phone; SmsRoute.message := Some message |}.

(** The route's run on the request of a page. *)
Definition routeRun (phone message : jsstring)
    : list SmsRoute.Event * (Exn + SmsRoute.Response Data) :=
  SmsRoute.run emptyObject apiKey (inr (payload phone message)) fetchUpstream.

(** The JSON a page reads from the route: one of the route's two bodies,
    or [None] for the [{}] a helper falls back to. *)
Definition RouteJson : Type := option (SmsRoute.Body Data).

(** The fetcher of a page served by the route. *)
Definition served : Fetcher RouteJson :=
  fun phone message =>
    match snd (routeRun phone message) with
    | inl e => inl e
    | inr resp =>
        inr {| a_status := SmsRoute.status resp;
               a_text := inr (bodyText (SmsRoute.body resp));
               a_json := inr (Some (SmsRoute.body resp)) |}
    end.

End Served.

End SmsClient.

(* ================================================================== *)
(** * app/sms/page.tsx                                                  *)
(* ================================================================== *)

Module SmsPage.
Import Js Eff Eff.Notations.

Section Page.
Variable Data : Type.

(** The JSON the route answers with. *)
Definition Json : Type := SmsClient.RouteJson Data.

Record State := {
  phone : jsstring;
  message : jsstring;
  loading : bool;
  result : option Json;
  error : option jsstring
}.

Definition setLoading (v : bool) (st : State) : State :=
  {| phone := phone st; message := message st; loading := v;
     result := result st; error := error st |}.

Definition setResult (v : option Json) (st : State) : State :=
  {| phone := phone st; message := message st; loading := loading st;
     result := v; error := error st |}.

Definition setError (v : option jsstring) (st : State) : State :=
  {| phone := phone st; message := message st; loading := loading st;
     result := result st; error := v |}.

Inductive Event := Post (phone message : jsstring).

Definition H := M State Event Exn.

(** [data?.error || "Failed to send SMS"] *)
Definition errorOr (data : Json) (d : jsstring) : jsstring :=
  match data with
  | Some (SmsRoute.ErrorBody ((_ :: _) as e)) => e
  | _ => d
  end.

(** [err?.message ?? "Network error"] *)
Definition messageOr (err : Exn) (d : jsstring) : jsstring :=
  match err with Some m => m | None => d end.

Definition onSubmit (fetchApi : SmsClient.Fetcher Json) : H unit :=
  st <- get ;;
  modify (setLoading true) ;;;
  modify (setError None) ;;;
  modify (setResult None) ;;;
  tryFinally
    (tryCatch
       (res <- call (Post (phone st) (message st))
                    (fetchApi (phone st) (message st)) ;;
        data <- (fun s => ([], s, SmsClient.a_json res)) ;;
        if negb (SmsClient.a_ok res) then
          modify (setError (Some (errorOr data (lit "Failed to send SMS"))))
        else
          modify (setResult (Some data)))
       (fun err => modify (setError (Some (messageOr err (lit "Network error"))))))
    (setLoading false).

End Page.
End SmsPage.

(* ================================================================== *)
(** * The pages on top of the route                                     *)
(* ================================================================== *)

(** What the SMS call of a page is answered with when its [sendSms] goes
    through a given fetcher. *)
Module PagesOnRoute.
Import Js.

Section Wiring.
Variable Json : Type.
Variable fetchApi : SmsClient.Fetcher (option Json).

Definition send (to message : jsstring) : Exn + unit :=
  SmsClient.discard (SmsClient.sendSms None fetchApi to message).

(** The release SMS of the inspection detail page. *)
Definition releaseSms (fmtDate : option jsstring -> jsstring)
    (st : InspectionDetail.State) : Exn + unit :=
  match InspectionDetail.item st with
  | Some it =>
      send (InspectionDetail.collectOwnerPhones it
              (Some (InspectionDetail.telephone (InspectionDetail.form st))))
           (InspectionDetail.buildReleaseMessage fmtDate it (InspectionDetail.form st))
  | None => inr tt
  end.

(** The "In Store" SMS of the inspection detail page. *)
Definition inStoreSms (fmtDate : option jsstring -> jsstring)
    (st : InspectionDetail.State) : Exn + unit :=
  match InspectionDetail.item st with
  | Some it =>
      send (InspectionDetail.collectOwnerPhones it None)
           (InspectionDetail.buildInStoreMessage fmtDate it)
  | None => inr tt
  end.

(** The days in store the reminder loop computes for a record. *)
Definition daysInStore (P : InspectionsList.Platform)
    (it : InspectionsList.Inspection) : option Z :=
  match InspectionsList.impoundment it with
  | Some imp =>
      InspectionsList.daysBetween P
        (InspectionsList.orNull [InspectionsList.impoundmentDate imp;
                                 InspectionsList.date (InspectionsList.meta it)])
        (Some (InspectionsList.nowIso P))
  | None => None
  end.

(** The reminder SMS of the inspections list. *)
Definition reminderSms (P : InspectionsList.Platform)
    (it : InspectionsList.Inspection) : Exn + unit :=
  match daysInStore P it with
  | Some d =>
      send (InspectionsList.collectOwnerPhones (InspectionsList.meta it))
           (InspectionsList.buildReminder100Message P it d)
  | None => inr tt
  end.

End Wiring.
End PagesOnRoute.

(* ================================================================== *)
(** * app/(protected)/bounded-drugs/page.tsx: the list and the modal     *)
(* ================================================================== *)

Module BoundedDrugsRows.
Import Js BoundedDrugs.



Section Rows.
(** [parseMs(r.createdAt) || parseMs(r.date)], the sort key of a row. *)
Variable key : Inspection -> Z.

(** [list.sort((a, b) => bT - aT)]: descending, and stable. *)
Fixpoint insertDesc (x : Inspection) (l : list Inspection) : list Inspection :=
  match l with
  | [] => [x]
  | y :: r => if (key y <=? key x)%Z then x :: y :: r else y :: insertDesc x r
  end.

Definition sortDesc (l : list Inspection) : list Inspection :=
  fold_right insertDesc [] l.


End Rows.



(** [update(ref(db, `inspections/${id}`), patch)]: the fields of the patch
    replace those of the stored record. *)
Definition applyPatch (p : InspectionPatch) (r : Inspection) : Inspection :=
  {| id := id r;
     serialNumber := serialNumber r;
     drugshopName := drugshopName r;
     clientTelephone := clientTelephone r;
     boxesImpounded := Some (p_boxesImpounded p);
     status := Some (p_status p);
     releasedAt := Some (p_releasedAt p) |}.


Section Modal.
Variable P : Platform.
Variable me : option User.

(** [openModal(row)] *)
Definition openModal (row : Inspection) (st : State) : State :=
  {| target := Some row;
     open := true;
     savingId := savingId st;
     error := None;
     form := {| relDate := firstn 10 (nowIso P);
                clientName := [];
                telephone := orElse (clientTelephone row) [];
                releasedBy := firstTruthy [nameOf me; emailOf me] [];
                comment := [];
                boxesReleased := [];
                ack1 := false;
                ack2 := false;
                confirmText := [] |} |}.
End Modal.

End BoundedDrugsRows.

(* ================================================================== *)
(** * app/bounded-drugs/page.tsx (the earlier page): the submit button   *)
(* ================================================================== *)

Module BoundedFromInspectionsModal.
Import Js BoundedFromInspections.

(** [canSubmit], which enables the submit button. *)
Definition canSubmit (st : State) : bool :=
  match targetRow st with
  | None => false
  | Some _ =>
      if negb (truthy (relDate st)) then false
      else if negb (truthy (trim (clientName st))) then false
      else if negb (truthy (trim (telephone st))) || negb (validateTel (telephone st))
      then false
      else if negb (truthy (trim (releasedBy st))) then false
      else if (intendedCount st =? 0)%Z || (intendedCount st <=? 0)%Z then false
      else if (intendedCount st >? availableBoxes st)%Z then false
      else true
  end.

Section Modal.
Variable P : Platform.
Variable me : option User.

(** [openReleaseModal(row)] *)
Definition openReleaseModal (row : Inspection) (st : State) : State :=
  {| targetRow := Some row;
     confirmOpen := true;
     savingId := savingId st;
     saveError := None;
     relDate := firstn 10 (BoundedDrugs.nowIso P);
     clientName := [];
     telephone := BoundedDrugs.orElse (BoundedDrugs.clientTelephone row) [];
     releasedBy := firstTruthy [BoundedDrugs.nameOf me; BoundedDrugs.emailOf me] [];
     comment := [];
     boxesReleased := [] |}.
End Modal.

End BoundedFromInspectionsModal.

(* ================================================================== *)
(** * app/(protected)/inspections/page.tsx: refresh                     *)
(* ================================================================== *)

Module InspectionsListRefresh.
Import Js Eff Eff.Notations InspectionsList.

(** The pager together with the [refreshing] flag. *)
Record ListPage := {
  pager : Pager;
  refreshing : bool
}.

Definition setRefreshing (v : bool) (st : ListPage) : ListPage :=
  {| pager := pager st; refreshing := v |}.

Definition onPager (f : Pager -> Pager) (st : ListPage) : ListPage :=
  {| pager := f (pager st); refreshing := refreshing st |}.

Definition HL := M ListPage PagerEvent Exn.

Section Refresh.
Variable key : Inspection -> Z.          (* [createdAtMs(it.meta)] *)
Variable get : Query -> Exn + list Inspection.

Definition onRefresh : HL unit :=
  tryFinally
    (tryCatch
       (modify (setRefreshing true) ;;;
        modify (onPager (setReachedEnd false)) ;;;
        modify (onPager (setLastSeen None)) ;;;
        snap <- call (Get firstQuery) (get firstQuery) ;;
        let next := sortDesc key snap in
        modify (onPager (setItems (fun _ => next))) ;;;
        modify (onPager (setLastSeen
                           (match lastOf next with
                            | Some last => createdAt (meta last)
                            | None => None
                            end))) ;;;
        modify (onPager (setReachedEnd (Nat.ltb (List.length next) PAGE_SIZE))))
       (fun e =>
          call PagerConsoleError (inr tt) ;;;
          call (PagerAlert (lit "Could not refresh. Check your connection and try again."))
               (inr tt)))
    (setRefreshing false).

End Refresh.
End InspectionsListRefresh.

(* ================================================================== *)
(** * app/(protected)/inspections/new/page.tsx: numbers and submission  *)
(* ================================================================== *)

Module NewInspectionForm.
Import Js Eff Eff.Notations.

(** ** Counters *)

(** [s.padStart(n, '0')] *)
Definition padStart0 (n : nat) (s : jsstring) : jsstring :=
  repeat 48%N (n - List.length s) ++ s.

(** [const formatDoc = (n) => `DOC${String(n).padStart(7, '0')}`] *)
Definition formatDoc (n : Z) : jsstring := lit "DOC" ++ padStart0 7 (toString n).

(** [const formatSerial = (n) => `SN${String(n).padStart(6, '0')}`] *)
Definition formatSerial (n : Z) : jsstring := lit "SN" ++ padStart0 6 (toString n).

(** The value at [ndachecklists/counters]; a field may be missing. *)
Record Counters := {
  doc : option Z;
  serial : option Z
}.

(** [curr?.doc ?? 0] and [curr?.serial ?? 0] *)
Definition fieldOr0 (curr : option Counters) (f : Counters -> option Z) : Z :=
  match curr with
  | Some c => match f c with Some v => v | None => 0%Z end
  | None => 0%Z
  end.

(** The update the transaction applies: [{ doc, serial }], each one more
    than before. *)
Definition bump (curr : option Counters) : Z * Z :=
  ((fieldOr0 curr doc + 1)%Z, (fieldOr0 curr serial + 1)%Z).

(** A thrown value, as far as [friendlyError] looks at it: a string, or an
    object with its [code], [name], [message], [error.code] and
    [error.message]. *)
Inductive Thrown :=
| ThrownString (s : jsstring)
| ThrownObject (code name message errorCode errorMessage : option jsstring).

(** [new Error(msg)] *)
Definition newError (msg : jsstring) : Thrown :=
  ThrownObject None (Some (lit "Error")) (Some msg) None None.

(** What [runTransaction] resolves to: whether it committed, and the value
    the counters had when the update was applied. *)
Record Transaction := {
  committed : bool;
  before : option Counters
}.


(** [reserveNumbers(db)], given what the transaction resolves to: the
    pair [(docNo, serialNo)]. *)
Definition reserveNumbers (tx : Thrown + Transaction)
    : Thrown + (jsstring * jsstring) :=
  match tx with
  | inl e => inl e
  | inr t =>
      if negb (committed t) then inl (newError (lit "Could not reserve numbers"))
      else
        let '(d, s) := bump (before t) in
        inr (formatDoc d, formatSerial s)
  end.



(** ** The form *)

Inductive ImpoundReason :=
| UnsuitablePremises
| UnqualifiedPersonnel
| IllegalPossession
| Unlicensed.

Definition reasonText (r : ImpoundReason) : jsstring :=
  match r with
  | UnsuitablePremises => lit "Unsuitable premises"
  | UnqualifiedPersonnel => lit "Unqualified personnel"
  | IllegalPossession => lit "Illegal possession of drugs"
  | Unlicensed => lit "Unlicensed"
  end.

(** [type YesNo = '' | 'yes' | 'no'] *)
Inductive YesNo := Blank | Yes | No.

(** The keys of [DRUGOUTLET_ITEMS.slice(0, 10)]. *)
Definition outletKeys : list jsstring :=
  [lit "01"; lit "02"; lit "03"; lit "04"; lit "05";
   lit "06"; lit "07"; lit "08"; lit "09"; lit "10"].

(** [outletAnswers[key] || ''] on a [Record<string, YesNo>]. *)
Fixpoint answerOf (answers : list (jsstring * YesNo)) (key : jsstring) : YesNo :=
  match answers with
  | [] => Blank
  | (k, v) :: rest => if jseqb k key then v else answerOf rest key
  end.

(** [s.includes(p)] *)
Fixpoint includes (s p : jsstring) : bool :=
  match stripPrefix p s with
  | Some _ => true
  | None => match s with
            | [] => false
            | _ :: r => includes r p
            end
  end.

Section Page.
(** [{ latitude: number; longitude: number }] *)
Variable Coords : Type.
(** The JSON [/api/sms] answers with, and [{}]. *)
Variable Json : Type.
Variable emptyJson : Json.

Record FormData := {
  date : jsstring;
  docNo : jsstring;
  serialNumber : jsstring;
  drugshopName : jsstring;
  drugshopContactPhones : jsstring;
  sendSms : bool;
  boxesImpounded : jsstring;
  impoundedBy : jsstring;
  location : option Coords;
  locationAddress : jsstring
}.

(** The inline errors [validateForm] sets, by field. *)
Record FieldErrors := {
  errDrugshopName : option jsstring;
  errBoxesImpounded : option jsstring;
  errDrugshopContactPhones : option jsstring
}.

Definition noErrors : FieldErrors :=
  {| errDrugshopName := None; errBoxesImpounded := None;
     errDrugshopContactPhones := None |}.

Record State := {
  formData : FormData;
  lastVisit : jsstring;
  lastLicenseDate : jsstring;
  prevScores : jsstring;
  currentPercentage : jsstring;
  inChargeName : jsstring;
  inChargeContact : jsstring;
  districtRepPresent : bool;
  impoundReasons : list ImpoundReason;
  outletAnswers : list (jsstring * YesNo);
  errors : FieldErrors;
  formErrors : list jsstring;
  lastSmsResult : option Json;
  isSubmitting : bool
}.

Definition setErrors (v : FieldErrors) (st : State) : State :=
  {| formData := formData st; lastVisit := lastVisit st;
     lastLicenseDate := lastLicenseDate st; prevScores := prevScores st;
     currentPercentage := currentPercentage st; inChargeName := inChargeName st;
     inChargeContact := inChargeContact st;
     districtRepPresent := districtRepPresent st;
     impoundReasons := impoundReasons st; outletAnswers := outletAnswers st;
     errors := v; formErrors := formErrors st;
     lastSmsResult := lastSmsResult st; isSubmitting := isSubmitting st |}.

Definition setFormErrors (f : list jsstring -> list jsstring) (st : State) : State :=
  {| formData := formData st; lastVisit := lastVisit st;
     lastLicenseDate := lastLicenseDate st; prevScores := prevScores st;
     currentPercentage := currentPercentage st; inChargeName := inChargeName st;
     inChargeContact := inChargeContact st;
     districtRepPresent := districtRepPresent st;
     impoundReasons := impoundReasons st; outletAnswers := outletAnswers st;
     errors := errors st; formErrors := f (formErrors st);
     lastSmsResult := lastSmsResult st; isSubmitting := isSubmitting st |}.

Definition setLastSmsResult (v : option Json) (st : State) : State :=
  {| formData := formData st; lastVisit := lastVisit st;
     lastLicenseDate := lastLicenseDate st; prevScores := prevScores st;
     currentPercentage := currentPercentage st; inChargeName := inChargeName st;
     inChargeContact := inChargeContact st;
     districtRepPresent := districtRepPresent st;
     impoundReasons := impoundReasons st; outletAnswers := outletAnswers st;
     errors := errors st; formErrors := formErrors st;
     lastSmsResult := v; isSubmitting := isSubmitting st |}.

Definition setIsSubmitting (v : bool) (st : State) : State :=
  {| formData := formData st; lastVisit := lastVisit st;
     lastLicenseDate := lastLicenseDate st; prevScores := prevScores st;
     currentPercentage := currentPercentage st; inChargeName := inChargeName st;
     inChargeContact := inChargeContact st;
     districtRepPresent := districtRepPresent st;
     impoundReasons := impoundReasons st; outletAnswers := outletAnswers st;
     errors := errors st; formErrors := formErrors st;
     lastSmsResult := lastSmsResult st; isSubmitting := v |}.

(** What the page takes from the platform. *)
Record Platform := {
  (** [new Date(s).toISOString()], which throws on an invalid date *)
  dateToISOString : jsstring -> Thrown + jsstring;
  (** [new Date().toISOString()] *)
  nowIso : jsstring;
  (** [todayLocalYYYYMMDD()] *)
  todayLocal : jsstring;
  (** the date of the message: [toLocaleString('en-UG', ...)], or the text
      itself when it is no date *)
  whenText : jsstring -> jsstring;
  toLowerCase : jsstring -> jsstring;
  (** [navigator.onLine] *)
  onLine : bool;
  (** [auth.currentUser?.email] *)
  currentUserEmail : option jsstring
}.

(** ** The record pushed under [ndachecklists/submissions] *)

Record MetaPayload := {
  m_docNo : jsstring;
  m_date : jsstring;
  m_serialNumber : jsstring;
  m_source : jsstring;
  m_drugshopName : jsstring;
  m_drugshopContactPhones : jsstring;
  m_boxesImpounded : jsstring;
  m_impoundedBy : jsstring;
  (** [{ coordinates, formattedAddress }] or [null] *)
  m_location : option (Coords * jsstring);
  m_status : jsstring;
  m_createdAt : jsstring;
  m_createdBy : jsstring
}.

Record VisitPayload := {
  v_lastVisit : option jsstring;
  v_lastLicenseDate : option jsstring;
  v_prevScores : jsstring;
  v_currentPercentage : jsstring;
  v_inChargeName : jsstring;
  v_inChargeContact : jsstring;
  v_isDistrictRepPresent : bool
}.

Record ImpoundmentPayload := {
  i_totalBoxes : jsstring;
  i_impoundedBy : jsstring;
  i_impoundmentDate : jsstring;
  i_reasons : list ImpoundReason
}.

Record Payload := {
  p_meta : MetaPayload;
  p_outlet : list (jsstring * YesNo);     (* [outlet.answers] *)
  p_visit : VisitPayload;
  p_impoundment : ImpoundmentPayload
}.

Inductive Event :=
| Push (payload : Payload)                 (* [push(submissionsRef, payload)] *)
| Post (recipients message : jsstring)     (* [fetch('/api/sms', ...)] *)
| Reserve                                  (* [runTransaction(countersRef, ...)] *)
| Alert (text : jsstring)
| RemoveAutosave                           (* [localStorage.removeItem(...)] *)
| ScrollToError
| ConsoleWarn
| ConsoleError.

(** What the outside answers: the push (the time-out of [pushWithGuard]
    is one of its failures), the request to [/api/sms], the transaction
    on the counters. *)
Record Net := {
  pushResult : Thrown + unit;
  fetchResult : Thrown + SmsClient.ApiResponse Json;
  txResult : Thrown + Transaction
}.

Definition H := M State Event Thrown.

Section Handlers.
Variable P : Platform.

(** ** [friendlyError] *)

Definition firstTruthyOpt (l : list (option jsstring)) : option jsstring :=
  match firstTruthy l [] with [] => None | s => Some s end.

(** [err?.code || err?.error?.code || err?.name || (typeof err === 'string' ? err : undefined)] *)
Definition codeOf (err : Thrown) : option jsstring :=
  match err with
  | ThrownString s => Some s
  | ThrownObject code name _ errorCode _ => firstTruthyOpt [code; errorCode; name]
  end.

(** [err?.message || err?.error?.message || (typeof err === 'string' ? err : undefined)] *)
Definition msgOf (err : Thrown) : option jsstring :=
  match err with
  | ThrownString s => Some s
  | ThrownObject _ _ message _ errorMessage => firstTruthyOpt [message; errorMessage]
  end.

(** [s?.includes(p)] *)
Definition optIncludes (s : option jsstring) (p : jsstring) : bool :=
  match s with Some x => includes x p | None => false end.

(** [s?.toLowerCase().includes(p)] *)
Definition lowerIncludes (s : option jsstring) (p : jsstring) : bool :=
  match s with Some x => includes (toLowerCase P x) p | None => false end.

Definition friendlyError (err : Thrown) : jsstring :=
  let code := codeOf err in
  let msg := msgOf err in
  if optIncludes code (lit "PERMISSION_DENIED") || lowerIncludes msg (lit "permission")
  then lit "Permission denied. Your account may not be allowed to write to this path."
  else if negb (onLine P)
  then lit "You are offline. Please reconnect and try again."
  else if lowerIncludes msg (lit "timeout")
  then lit "Timed out. Connection might be slow" ++ [8212%N] ++ lit "please retry."
  else if lowerIncludes msg (lit "network") || lowerIncludes code (lit "network")
  then lit "Network error while sending request."
  else match msg with
       | Some ((_ :: _) as m) => m
       | _ => lit "Unknown error occurred."
       end.

(** ** Validation *)

(** [formData.boxesImpounded ? parseInt(formData.boxesImpounded, 10) || 0 : 0] *)
Definition boxesNum (f : FormData) : Z :=
  if truthy (boxesImpounded f) then
    match parseInt (boxesImpounded f) with
    | Some n => n
    | None => 0%Z
    end
  else 0%Z.

(** The three checks of [validateForm]. *)
Definition nameMissing (f : FormData) : bool :=
  negb (truthy (trim (drugshopName f))).

Definition boxesInvalid (f : FormData) : bool :=
  truthy (boxesImpounded f) && negb (allDigits1 (trim (boxesImpounded f))).

Definition phonesError (f : FormData) : option jsstring :=
  if sendSms f && (boxesNum f >? 0)%Z
  then NewInspection.validatePhones (drugshopContactPhones f)
  else None.

(** [validateForm()]: the inline errors, the summary, and [ok]. *)
Definition validateForm (f : FormData) : FieldErrors * list jsstring * bool :=
  let e1 := nameMissing f in
  let e2 := boxesInvalid f in
  let e3 := phonesError f in
  ({| errDrugshopName :=
        if e1 then Some (lit "This field is required") else None;
      errBoxesImpounded :=
        if e2 then Some (lit "Enter a valid number") else None;
      errDrugshopContactPhones := e3 |},
   (if e1 then [lit "facilityName: required"] else [])
   ++ (if e2 then [lit "boxesImpounded: must be a number"] else [])
   ++ (match e3 with Some err => [lit "Phones: " ++ err] | None => [] end),
   negb e1 && negb e2 && match e3 with Some _ => false | None => true end).

(** ** The message *)

Definition buildImpoundMessage (serialNumber drugshopName boxesImpounded dateIso
    impoundedBy : jsstring) (reasons : list ImpoundReason) : jsstring :=
  let reasonsText :=
    match reasons with
    | [] => []
    | _ => lit " Reasons: " ++ join (lit "; ") (map reasonText reasons) ++ lit "."
    end in
  lit "Dear " ++ (if truthy drugshopName then drugshopName else lit "Facility")
  ++ lit ", "
  ++ (if truthy boxesImpounded then boxesImpounded else lit "0")
  ++ lit " box(es) were impounded on " ++ whenText P dateIso ++ lit ". "
  ++ lit "Serial: " ++ serialNumber ++ lit ". Officer: " ++ impoundedBy ++ lit "."
  ++ reasonsText.

(** ** The helpers of the submission *)

Definition lift {A} (r : Thrown + A) : H A := fun s => ([], s, r).

(** [sendSms(toPhonesCsv, message)] of this page: the recipients are
    normalised and deduplicated first. *)
Definition sendSmsTo (net : Net) (toPhonesCsv message : jsstring) : H Json :=
  r <- call (Post (NewInspection.recipients toPhonesCsv) message) (fetchResult net) ;;
  if negb (SmsClient.a_ok r) then
    let text := match SmsClient.a_text r with inr t => t | inl _ => [] end in
    throw (newError (lit "SMS failed (" ++ toString (SmsClient.a_status r) ++ lit "): "
                     ++ (if truthy text then text else lit "Unknown error")))
  else ret (SmsClient.jsonOrEmpty emptyJson r).

(** [pushWithGuard(dbRef, payload)] *)
Definition pushWithGuard (net : Net) (payload : Payload) : H unit :=
  if negb (onLine P) then throw (newError (lit "Offline"))
  else call (Push payload) (pushResult net).

(** [lastVisit ? new Date(lastVisit).toISOString() : null] *)
Definition isoOrNull (s : jsstring) : H (option jsstring) :=
  if truthy s then (d <- lift (dateToISOString P s) ;; ret (Some d))
  else ret None.

Definition freshFormData (docNo serialNo : jsstring) : FormData :=
  {| date := todayLocal P;
     docNo := docNo;
     serialNumber := serialNo;
     drugshopName := [];
     drugshopContactPhones := [];
     sendSms := true;
     boxesImpounded := [];
     impoundedBy := [];
     location := None;
     locationAddress := [] |}.

(** The state [hardReset] installs. *)
Definition resetState (docNo serialNo : jsstring) (st : State) : State :=
  {| formData := freshFormData docNo serialNo;
     lastVisit := []; lastLicenseDate := [];
     prevScores := []; currentPercentage := [];
     inChargeName := []; inChargeContact := [];
     districtRepPresent := false;
     impoundReasons := []; outletAnswers := [];
     errors := noErrors; formErrors := [];
     lastSmsResult := None; isSubmitting := isSubmitting st |}.

(** [hardReset()]; [f] is the form data of the render that submitted. *)
Definition hardReset (net : Net) (f : FormData) : H unit :=
  numbers <- tryCatch
               (call Reserve (reserveNumbers (txResult net)))
               (fun e => call ConsoleWarn (inr tt) ;;; ret (docNo f, serialNumber f)) ;;
  modify (resetState (fst numbers) (snd numbers)).

Definition metaOf (f : FormData) (dateIso : jsstring) : MetaPayload :=
  {| m_docNo := docNo f;
     m_date := dateIso;
     m_serialNumber := trim (serialNumber f);
     m_source := lit "web";
     m_drugshopName := trim (drugshopName f);
     m_drugshopContactPhones := trim (drugshopContactPhones f);
     m_boxesImpounded := trim (boxesImpounded f);
     m_impoundedBy := trim (impoundedBy f);
     m_location :=
       match location f with
       | Some c => Some (c, trim (locationAddress f))
       | None => None
       end;
     m_status := lit "submitted";
     m_createdAt := nowIso P;
     m_createdBy :=
       match currentUserEmail P with
       | Some ((_ :: _) as e) => e
       | _ => lit "anonymous"
       end |}.

Definition payloadOf (st : State) (dateIso : jsstring)
    (visit licence : option jsstring) (impDate : jsstring) : Payload :=
  let f := formData st in
  {| p_meta := metaOf f dateIso;
     p_outlet := map (fun k => (k, answerOf (outletAnswers st) k)) outletKeys;
     p_visit := {| v_lastVisit := visit;
                   v_lastLicenseDate := licence;
                   v_prevScores := prevScores st;
                   v_currentPercentage := currentPercentage st;
                   v_inChargeName := inChargeName st;
                   v_inChargeContact := inChargeContact st;
                   v_isDistrictRepPresent := districtRepPresent st |};
     p_impoundment := {| i_totalBoxes := trim (boxesImpounded f);
                         i_impoundedBy := trim (impoundedBy f);
                         i_impoundmentDate := impDate;
                         i_reasons := impoundReasons st |} |}.

(** The summary a failed submission leaves. *)
Definition failureSummary (reason : jsstring) : list jsstring :=
  [lit "Submission failed.";
   lit "Reason: " ++ reason;
   lit "Tip: Ensure you are online and signed in. If the problem continues, contact the admin to check Firebase rules."].

Definition failureAlert (reason : jsstring) : jsstring :=
  lit "Submission failed." ++ [10%N; 10%N] ++ lit "Reason: " ++ reason
  ++ [10%N; 10%N] ++ lit "Tip: Ensure you are online and signed in, then try again.".

(** Whether the submission notifies the owner. *)
Definition notifies (f : FormData) : bool :=
  sendSms f && (boxesNum f >? 0)%Z && truthy (trim (drugshopContactPhones f)).

(** ** [handleSubmit] *)

(** The [meta] and [payload] objects: a date that does not convert
    throws. *)
Definition buildPayload (st : State) : H Payload :=
  let f := formData st in
  dateIso <- lift (dateToISOString P (date f)) ;;
  visit <- isoOrNull (lastVisit st) ;;
  licence <- isoOrNull (lastLicenseDate st) ;;
  impDate <- lift (dateToISOString P (date f)) ;;
  ret (payloadOf st dateIso visit licence impDate).

(** The block under [SMS Notification (includes reasons)]. *)
Definition notifyOwner (net : Net) (st : State) (payload : Payload) : H unit :=
  let f := formData st in
  if notifies f then
    tryCatch
      (let m := p_meta payload in
       let msg := buildImpoundMessage (m_serialNumber m) (m_drugshopName m)
                    (m_boxesImpounded m) (m_date m) (m_impoundedBy m)
                    (impoundReasons st) in
       smsRes <- sendSmsTo net (trim (drugshopContactPhones f)) msg ;;
       modify (setLastSmsResult (Some smsRes)))
      (fun smsErr =>
         call ConsoleWarn (inr tt) ;;;
         modify (setFormErrors
                   (fun errs => errs ++ [lit "SMS delivery failed: "
                                         ++ friendlyError smsErr])))
  else ret tt.

Definition handleSubmit (net : Net) : H unit :=
  st <- get ;;
  let f := formData st in
  modify (setLastSmsResult None) ;;;
  let '(next, summary, ok) := validateForm f in
  modify (setErrors next) ;;;
  modify (setFormErrors (fun _ => summary)) ;;;
  if negb ok then call ScrollToError (inr tt)
  else
    modify (setIsSubmitting true) ;;;
    tryFinally
      (tryCatch
         (payload <- buildPayload st ;;
          pushWithGuard net payload ;;;
          notifyOwner net st payload ;;;
          call (Alert (lit "Inspection submitted.")) (inr tt) ;;;
          call RemoveAutosave (inr tt) ;;;
          hardReset net f)
         (fun err =>
            call ConsoleError (inr tt) ;;;
            let reason := friendlyError err in
            modify (setFormErrors (fun _ => failureSummary reason)) ;;;
            call (Alert (failureAlert reason)) (inr tt)))
      (setIsSubmitting false).

End Handlers.
End Page.
End NewInspectionForm.

(* ================================================================== *)
(** * More concrete values, for the examples                            *)
(* ================================================================== *)

Module RelayExamples.
Import Js.

(** A provider that accepts every request. *)
Definition provider200 (rq : SmsRoute.UpstreamRequest)
    : Exn + SmsRoute.UpstreamResponse unit :=
  inr {| SmsRoute.up_status := 200%Z; SmsRoute.up_json := None |}.

(** The body text of the examples: the error message, or a fixed word. *)
Definition relayText (b : SmsRoute.Body unit) : jsstring :=
  match b with
  | SmsRoute.ErrorBody e => e
  | SmsRoute.RelayBody _ _ _ => lit "relayed"
  end.

(** The route with its key set, in front of that provider. *)
Definition relay : SmsClient.Fetcher (option (SmsRoute.Body unit)) :=
  SmsClient.served tt relayText (Some (lit "key")) provider200.

(** The detail page's network when its SMS goes through the relay. *)
Definition detailOnRelay (st : InspectionDetail.State) : InspectionDetail.Net :=
  {| InspectionDetail.updateResult := inr tt;
     InspectionDetail.smsResult :=
       PagesOnRoute.releaseSms relay Examples.showDate st |}.

(** The list page's network when its SMS goes through the relay. *)
Definition listOnRelay (it : InspectionsList.Inspection) : InspectionsList.RemindNet :=
  {| InspectionsList.smsResult :=
       fun _ => PagesOnRoute.reminderSms relay Examples.listPlatform it;
     InspectionsList.updateResult := fun _ => inr tt |}.



(** A filled-in form, and a platform and a network for it. *)
Definition filledForm : NewInspectionForm.FormData (Z * Z) :=
  {| NewInspectionForm.date := lit "2025-03-04";
     NewInspectionForm.docNo := lit "DOC0000041";
     NewInspectionForm.serialNumber := lit "SN000041";
     NewInspectionForm.drugshopName := lit " Kato Drug Shop ";
     NewInspectionForm.drugshopContactPhones := lit "0772123456, 256772123456";
     NewInspectionForm.sendSms := true;
     NewInspectionForm.boxesImpounded := lit "3";
     NewInspectionForm.impoundedBy := lit "Officer A";
     NewInspectionForm.location := None;
     NewInspectionForm.locationAddress := [] |}.

Definition filledState : NewInspectionForm.State (Z * Z) unit :=
  {| NewInspectionForm.formData := filledForm;
     NewInspectionForm.lastVisit := [];
     NewInspectionForm.lastLicenseDate := [];
     NewInspectionForm.prevScores := [];
     NewInspectionForm.currentPercentage := [];
     NewInspectionForm.inChargeName := [];
     NewInspectionForm.inChargeContact := [];
     NewInspectionForm.districtRepPresent := false;
     NewInspectionForm.impoundReasons := [NewInspectionForm.Unlicensed];
     NewInspectionForm.outletAnswers := [(lit "01", NewInspectionForm.Yes)];
     NewInspectionForm.errors := NewInspectionForm.noErrors;
     NewInspectionForm.formErrors := [];
     NewInspectionForm.lastSmsResult := None;
     NewInspectionForm.isSubmitting := false |}.

Definition browser : NewInspectionForm.Platform :=
  {| NewInspectionForm.dateToISOString :=
       fun s => inr (s ++ lit "T00:00:00.000Z");
     NewInspectionForm.nowIso := lit "2025-03-04T09:00:00.000Z";
     NewInspectionForm.todayLocal := lit "2025-03-04";
     NewInspectionForm.whenText := fun s => s;
     NewInspectionForm.toLowerCase := fun s => s;
     NewInspectionForm.onLine := true;
     NewInspectionForm.currentUserEmail := None |}.

(** The push succeeds, the relay refuses, the counters stand at 41. *)
Definition relayDown : NewInspectionForm.Net unit :=
  {| NewInspectionForm.pushResult := inr tt;
     NewInspectionForm.fetchResult :=
       inr {| SmsClient.a_status := 502%Z;
              SmsClient.a_text := inr (lit "Bad gateway");
              SmsClient.a_json := inl None |};
     NewInspectionForm.txResult :=
       inr {| NewInspectionForm.committed := true;
              NewInspectionForm.before :=
                Some {| NewInspectionForm.doc := Some 41%Z;
                        NewInspectionForm.serial := Some 41%Z |} |} |}.

(** The record the filled-in form pushes. *)
Definition filledPayload : NewInspectionForm.Payload (Z * Z) :=
  NewInspectionForm.payloadOf browser filledState
    (lit "2025-03-04T00:00:00.000Z") None None (lit "2025-03-04T00:00:00.000Z").

(** The message about it. *)
Definition filledMessage : jsstring :=
  NewInspectionForm.buildImpoundMessage browser (lit "SN000041")
    (lit "Kato Drug Shop") (lit "3") (lit "2025-03-04T00:00:00.000Z")
    (lit "Officer A") [NewInspectionForm.Unlicensed].

End RelayExamples.

(* ================================================================== *)
(** * Theorems                                                         *)
(* ================================================================== *)

Module JsFacts.
Import Js.

Lemma stripWs_noWs (s : jsstring) : noWs (stripWs s).
Proof.
  unfold noWs, stripWs. apply forallb_forall. intros c Hc.
  apply filter_In in Hc. tauto.
Qed.

Lemma stripWs_id (s : jsstring) : noWs s -> stripWs s = s.
Proof.
  unfold noWs, stripWs. induction s as [|c s IH]; simpl; [reflexivity|].
  intro H. apply andb_true_iff in H. destruct H as [Hc Hs].
  rewrite Hc. f_equal. auto.
Qed.

Lemma stripWs_idem (s : jsstring) : stripWs (stripWs s) = stripWs s.
Proof. apply stripWs_id, stripWs_noWs. Qed.

Lemma noWs_app (a b : jsstring) : noWs a -> noWs b -> noWs (a ++ b).
Proof. unfold noWs. intros Ha Hb. rewrite forallb_app, Ha, Hb. reflexivity. Qed.

Lemma noWs_tl (s : jsstring) : noWs s -> noWs (tl s).
Proof.
  unfold noWs. destruct s; simpl; auto.
  intro H. apply andb_true_iff in H. tauto.
Qed.

Lemma cu_eqb_eq (a b : cu) : cu_eqb a b = true <-> a = b.
Proof. apply N.eqb_eq. Qed.

Lemma stripPrefix_app (p s r : jsstring) :
  stripPrefix p s = Some r <-> s = p ++ r.
Proof.
  revert s. induction p as [|x p IH]; intros s; simpl.
  - split; [intros [= ->]; reflexivity | intros ->; reflexivity].
  - destruct s as [|y s].
    + split; discriminate.
    + destruct (cu_eqb x y) eqn:E.
      * apply cu_eqb_eq in E. subst y. rewrite IH.
        split; [intros ->; reflexivity | intros [= ->]; reflexivity].
      * split; [discriminate|]. intros [= -> _].
        unfold cu_eqb in E. rewrite N.eqb_refl in E. discriminate.
Qed.

Lemma prefixThenDigits_spec (p : jsstring) (n : nat) (s : jsstring) :
  prefixThenDigits p n s = true <->
  exists ds, s = p ++ ds /\ List.length ds = n /\ forallb isDigit ds = true.
Proof.
  unfold prefixThenDigits. destruct (stripPrefix p s) as [ds|] eqn:E.
  - apply stripPrefix_app in E. subst s. rewrite andb_true_iff, Nat.eqb_eq.
    split.
    + intros [H1 H2]. exists ds. auto.
    + intros (ds' & Heq & H1 & H2). apply app_inv_head in Heq. subst ds'. auto.
  - split; [discriminate|]. intros (ds & Heq & _). subst s.
    assert (stripPrefix p (p ++ ds) = Some ds) as H by (apply stripPrefix_app; reflexivity).
    congruence.
Qed.

Lemma digit_not_ws (c : cu) : isDigit c = true -> isWhiteSpace c = false.
Proof.
  unfold isDigit, isWhiteSpace. intro H.
  apply andb_true_iff in H. destruct H as [H1 H2].
  apply N.leb_le in H1, H2.
  assert ((c <=? 13) = false)%N as -> by (apply N.leb_gt; lia).
  assert ((8192 <=? c) = false)%N as -> by (apply N.leb_gt; lia).
  rewrite andb_false_r. simpl.
  repeat match goal with
         | |- context [(c =? ?b)%N] =>
             let E := fresh in
             assert ((c =? b) = false)%N as E by (apply N.eqb_neq; lia);
             rewrite E; clear E
         end.
  reflexivity.
Qed.

Lemma digits_noWs (ds : jsstring) : forallb isDigit ds = true -> noWs ds.
Proof.
  unfold noWs. rewrite !forallb_forall. intros H c Hc.
  rewrite (digit_not_ws _ (H c Hc)). reflexivity.
Qed.

Lemma trimStart_noWs (s : jsstring) : noWs s -> trimStart s = s.
Proof.
  unfold noWs. destruct s as [|c s]; simpl; [reflexivity|].
  intro H. apply andb_true_iff in H. destruct H as [Hc _].
  apply negb_true_iff in Hc. rewrite Hc. reflexivity.
Qed.

Lemma noWs_rev (s : jsstring) : noWs s -> noWs (rev s).
Proof.
  unfold noWs. rewrite !forallb_forall. intros H c Hc.
  apply H, in_rev, Hc.
Qed.

Lemma trim_noWs (s : jsstring) : noWs s -> trim s = s.
Proof.
  intro H. unfold trim, trimEnd.
  rewrite (trimStart_noWs H), (trimStart_noWs (noWs_rev H)).
  apply rev_involutive.
Qed.

(** ** Decimal digits *)








End JsFacts.

Module PhoneFacts.
Import Js Phone JsFacts.

Lemma canonical_of_bare (s : jsstring) :
  ugReBare s = true -> ugReCanonical (lit "+" ++ s) = true.
Proof.
  unfold ugReBare, ugReCanonical. rewrite !prefixThenDigits_spec.
  intros (ds & -> & H1 & H2). exists ds. auto.
Qed.

Lemma canonical_of_local (s : jsstring) :
  ugReLocal s = true -> ugReCanonical (lit "+256" ++ slice1 s) = true.
Proof.
  unfold ugReLocal, ugReCanonical. rewrite !prefixThenDigits_spec.
  intros (ds & -> & H1 & H2). exists ds. auto.
Qed.

Lemma normalize_noWs (p : jsstring) : noWs (normalizeUgPhone p).
Proof.
  unfold normalizeUgPhone. pose proof (stripWs_noWs p) as H.
  destruct (ugReCanonical _); [exact H|].
  destruct (ugReBare _); [apply noWs_app; [reflexivity|exact H]|].
  destruct (ugReLocal _); [apply noWs_app; [reflexivity|apply noWs_tl, H]|].
  exact H.
Qed.

(** C6: the per-token phone normaliser is idempotent. *)
Theorem normalizeUgPhone_idempotent (x : jsstring) :
  normalizeUgPhone (normalizeUgPhone x) = normalizeUgPhone x.
Proof.
  pose proof (normalize_noWs x) as Hn.
  unfold normalizeUgPhone at 1. rewrite (stripWs_id Hn).
  unfold normalizeUgPhone in *.
  destruct (ugReCanonical (stripWs x)) eqn:Ec.
  - rewrite Ec. reflexivity.
  - destruct (ugReBare (stripWs x)) eqn:Eb.
    + rewrite (canonical_of_bare _ Eb). reflexivity.
    + destruct (ugReLocal (stripWs x)) eqn:El.
      * rewrite (canonical_of_local _ El). reflexivity.
      * rewrite Ec, Eb, El. reflexivity.
Qed.

End PhoneFacts.

Module PhoneSpec.
Import Js Phone JsFacts PhoneFacts.

(** C7 (as amended): white space is removed from the token first; then a
    local [07] + 8 digits token has its leading [0] replaced by [+256], a
    canonical [+2567] + 8 digits token is returned unchanged, a bare
    [2567] + 8 digits token gains a leading [+], and every other token is
    returned with its white space removed, hence as it is when it holds
    none. *)
Theorem normalizeUgPhone_cases :
  (forall p, normalizeUgPhone p = normalizeUgPhone (stripWs p)) /\
  (forall ds, List.length ds = 8 -> forallb isDigit ds = true ->
     normalizeUgPhone (lit "07" ++ ds) = lit "+2567" ++ ds /\
     normalizeUgPhone (lit "+2567" ++ ds) = lit "+2567" ++ ds /\
     normalizeUgPhone (lit "2567" ++ ds) = lit "+2567" ++ ds) /\
  (forall p, ugReLocal (stripWs p) = false ->
             ugReCanonical (stripWs p) = false ->
             ugReBare (stripWs p) = false ->
     normalizeUgPhone p = stripWs p) /\
  (forall p, noWs p -> stripWs p = p).
Proof.
  split; [|split; [|split]].
  - intro p. unfold normalizeUgPhone. rewrite stripWs_idem. reflexivity.
  - intros ds Hlen Hdig.
    pose proof (digits_noWs _ Hdig) as Hds.
    assert (forall q, noWs q -> stripWs (q ++ ds) = q ++ ds) as Hs.
    { intros q Hq. apply stripWs_id, noWs_app; assumption. }
    assert (forall q, prefixThenDigits q 8 (q ++ ds) = true) as Hm.
    { intro q. apply prefixThenDigits_spec. exists ds. auto. }
    unfold normalizeUgPhone.
    rewrite !Hs by reflexivity.
    repeat split.
    + assert (ugReCanonical (lit "07" ++ ds) = false) as -> by reflexivity.
      assert (ugReBare (lit "07" ++ ds) = false) as -> by reflexivity.
      unfold ugReLocal. rewrite Hm. reflexivity.
    + unfold ugReCanonical. rewrite Hm. reflexivity.
    + assert (ugReCanonical (lit "2567" ++ ds) = false) as -> by reflexivity.
      unfold ugReBare. rewrite Hm. reflexivity.
  - intros p Hl Hc Hb. unfold normalizeUgPhone. rewrite Hc, Hb, Hl. reflexivity.
  - intros p Hp. apply stripWs_id, Hp.
Qed.

(** C7, counterexample: a token that matches none of the three forms and
    holds a space is not passed through as it is. *)
Lemma normalizeUgPhone_not_as_is :
  let p := lit "12 34" in
  ugReLocal p = false /\ ugReCanonical p = false /\ ugReBare p = false /\
  normalizeUgPhone p = lit "1234" /\ jseqb (normalizeUgPhone p) p = false.
Proof. repeat split. Qed.

End PhoneSpec.

Module SmsRouteSpec.
Import Js Eff SmsRoute.

Section Facts.
Variable Data : Type.
Variable emptyObject : Data.

Lemma run_unconfigured apiKey reqJson fetchUp :
  apiKey = None \/ apiKey = Some [] ->
  run emptyObject apiKey reqJson fetchUp =
    ([], inr (failure 500 (lit "Server is missing YOOLA_SMS_API_KEY."))).
Proof. intros [-> | ->]; reflexivity. Qed.

Lemma run_configured c key reqJson fetchUp :
  run emptyObject (Some (c :: key)) reqJson fetchUp =
    match reqJson with
    | inl e => ([], inr (failure 500 (messageOf e)))
    | inr b =>
        let phone := trim (orEmpty (phone b)) in
        let message := trim (orEmpty (message b)) in
        match phone, message with
        | [], _ => ([], inr (failure 400 (lit "Phone is required.")))
        | _, [] => ([], inr (failure 400 (lit "Message is required.")))
        | _, _ =>
            let rq := {| up_phone := cleanedPhone phone;
                         up_message := message;
                         up_api_key := c :: key |} in
            ([Fetch rq],
             match fetchUp rq with
             | inl e => inr (failure 500 (messageOf e))
             | inr u =>
                 inr {| status := up_status u;
                        body := RelayBody (up_ok u) (up_status u)
                                  (match up_json u with
                                   | Some d => d
                                   | None => emptyObject
                                   end) |}
             end)
        end
    end.
Proof.
  unfold run, POST, tryCatch, bind, trace, outcome.
  destruct reqJson as [e | b]; simpl; [reflexivity|].
  destruct (trim (orEmpty (phone b))) as [|p ps]; simpl; [reflexivity|].
  destruct (trim (orEmpty (message b))) as [|m ms]; simpl; [reflexivity|].
  unfold call, ret.
  destruct (fetchUp _) as [e | u]; reflexivity.
Qed.


End Facts.
End SmsRouteSpec.

(* ------------------------------------------------------------------ *)
(** ** The bounded-drugs release handler                               *)
(* ------------------------------------------------------------------ *)

(** Case analysis of a handler: destruct the innermost tests it is stuck on. *)
Ltac break :=
  cbv beta iota;
  repeat (match goal with
          | |- context [match ?x with _ => _ end] =>
              lazymatch x with
              | context [match _ with _ => _ end] => fail
              | _ => destruct x eqn:?
              end
          end; cbv beta iota).

(** Membership in an explicit trace: go through its events, keeping the
    cases where the event may be the one looked for. *)
Ltac inTrace H :=
  cbn [Eff.trace fst In app] in H;
  repeat match type of H with
         | _ \/ _ => destruct H as [H|H]; [try discriminate H|]
         | False => destruct H
         end.

Module BoundedDrugsFacts.
Import Js Eff BoundedDrugs.

Section Facts.
Variable P : Platform.
Variable me : option User.

(** A run that passed every check is the [try] block. *)
Lemma handle_accepted net st t c :
  target st = Some t ->
  fieldsOk (form st) = true ->
  parseInt (boxesReleased (form st)) = Some c ->
  (0 < c <= num (boxesImpounded t))%Z ->
  canConfirm P st = true ->
  handleSubmitRelease P me net st =
    tryFinally
      (tryCatch (submit P me net t (form st) (num (boxesImpounded t)) c) onError)
      (setSavingId None) st.
Proof.
  intros Ht Hf Hc [Hpos Hle] Hk.
  unfold fieldsOk in Hf. repeat (apply andb_true_iff in Hf; destruct Hf as [Hf ?]).
  unfold handleSubmitRelease, bind at 1, get. rewrite Ht.
  repeat match goal with H : _ = true |- _ => rewrite H; clear H end.
  cbn [negb]. rewrite Hc.
  assert ((c <=? 0) = false)%Z as -> by (apply Z.leb_gt; lia).
  assert ((c >? num (boxesImpounded t)) = false)%Z as ->
      by (rewrite Z.gtb_ltb; apply Z.ltb_ge; lia).
  fold onError.
  destruct (tryFinally _ _ st) as [[tr s2] r]. reflexivity.
Qed.

(** Any other run stops at a check: nothing is called, and the only
    change to the state is the error message. *)
Lemma handle_rejected net st :
  (exists t c,
      target st = Some t /\ fieldsOk (form st) = true /\
      parseInt (boxesReleased (form st)) = Some c /\
      (0 < c <= num (boxesImpounded t))%Z /\ canConfirm P st = true)
  \/ (handleSubmitRelease P me net st = ([], st, inr tt) /\ target st = None)
  \/ (exists msg, handleSubmitRelease P me net st =
                    ([], setError (Some msg) st, inr tt)).
Proof.
  unfold handleSubmitRelease, bind, get. cbv beta.
  destruct (target st) as [t|] eqn:Ht; [|right; left; split; reflexivity].
  unfold fieldsOk.
  destruct (truthy (relDate (form st))); cbn [negb andb];
    [|right; right; eexists; reflexivity].
  destruct (truthy (trim (clientName (form st)))); cbn [negb andb];
    [|right; right; eexists; reflexivity].
  destruct (truthy (trim (telephone (form st)))); cbn [negb andb];
    [|right; right; eexists; reflexivity].
  destruct (telOk (telephone (form st))); cbn [negb andb];
    [|right; right; eexists; reflexivity].
  destruct (truthy (trim (releasedBy (form st)))); cbn [negb andb];
    [|right; right; eexists; reflexivity].
  destruct (parseInt (boxesReleased (form st))) as [c|];
    [|right; right; eexists; reflexivity].
  destruct (Z.leb_spec c 0); [right; right; eexists; reflexivity|].
  rewrite Z.gtb_ltb.
  destruct (Z.ltb_spec (num (boxesImpounded t)) c);
    [right; right; eexists; reflexivity|].
  destruct (canConfirm P st) eqn:Hk; cbn [negb];
    [|right; right; eexists; reflexivity].
  left. exists t, c. repeat split; auto; lia.
Qed.

(** The [try] block, by what the outside answers. *)
Lemma accepted_run net t f a c st :
  tryFinally (tryCatch (submit P me net t f a c) onError) (setSavingId None) st =
  match dateToISOString P (relDate f) with
  | inl e => ([ConsoleError], failedWith e t st, inr tt)
  | inr d =>
      match pushResult net with
      | inl e => ([pushEv P me t f c d; ConsoleError], failedWith e t st, inr tt)
      | inr _ =>
          match updateResult net with
          | inl e =>
              ([pushEv P me t f c d; updateEv P me t f a c; ConsoleError],
               failedWith e t st, inr tt)
          | inr _ =>
              ([pushEv P me t f c d; updateEv P me t f a c; smsEv P t f a c]
                 ++ match smsResult net with
                    | inl _ => [ConsoleWarn]
                    | inr _ => []
                    end
                 ++ [doneAlert a c],
               released t st, inr tt)
          end
      end
  end.
Proof.
  unfold tryFinally, tryCatch, submit, onError, bind, call, modify, ret.
  destruct (dateToISOString P (relDate f)) as [e|d]; [reflexivity|].
  destruct (pushResult net) as [e|[]]; [reflexivity|].
  destruct (updateResult net) as [e|[]]; [reflexivity|].
  destruct (smsResult net) as [e|[]]; reflexivity.
Qed.



End Facts.
End BoundedDrugsFacts.

Module BoundedFromInspectionsFacts.
Import Js Eff BoundedFromInspections.

Section Facts.
Variable P : Platform.
Variable me : option User.

Lemma handle_accepted' net st t :
  targetRow st = Some t ->
  fieldsOk st = true ->
  (0 < intendedCount st <= availableBoxes st)%Z ->
  handleSubmitRelease P me net st =
    tryFinally
      (tryCatch (submit P me net t st (availableBoxes st) (intendedCount st)) onError)
      (setSavingId None) st.
Proof.
  intros Ht Hf [Hpos Hle].
  unfold fieldsOk in Hf. repeat (apply andb_true_iff in Hf; destruct Hf as [Hf ?]).
  unfold handleSubmitRelease, bind at 1, Eff.get. rewrite Ht.
  repeat match goal with H : _ = true |- _ => rewrite H; clear H end.
  cbn [negb].
  assert ((intendedCount st <=? 0) = false)%Z as -> by (apply Z.leb_gt; lia).
  assert ((intendedCount st >? availableBoxes st) = false)%Z as ->
      by (rewrite Z.gtb_ltb; apply Z.ltb_ge; lia).
  fold onError.
  destruct (tryFinally _ _ st) as [[tr s2] r]. reflexivity.
Qed.

Lemma handle_rejected' net st :
  (exists t,
      targetRow st = Some t /\ fieldsOk st = true /\
      (0 < intendedCount st <= availableBoxes st)%Z)
  \/ (handleSubmitRelease P me net st = ([], st, inr tt) /\ targetRow st = None)
  \/ (exists msg, handleSubmitRelease P me net st =
                    ([], setSaveError (Some msg) st, inr tt)).
Proof.
  unfold handleSubmitRelease, bind, Eff.get. cbv beta.
  destruct (targetRow st) as [t|] eqn:Ht; [|right; left; split; reflexivity].
  unfold fieldsOk.
  destruct (truthy (relDate st)); cbn [negb andb];
    [|right; right; eexists; reflexivity].
  destruct (truthy (trim (clientName st))); cbn [negb andb];
    [|right; right; eexists; reflexivity].
  destruct (truthy (trim (telephone st))); cbn [negb andb];
    [|right; right; eexists; reflexivity].
  destruct (validateTel (telephone st)); cbn [negb andb];
    [|right; right; eexists; reflexivity].
  destruct (truthy (trim (releasedBy st))); cbn [negb andb];
    [|right; right; eexists; reflexivity].
  destruct (Z.leb_spec (intendedCount st) 0); [right; right; eexists; reflexivity|].
  rewrite Z.gtb_ltb.
  destruct (Z.ltb_spec (availableBoxes st) (intendedCount st));
    [right; right; eexists; reflexivity|].
  left. exists t. repeat split; auto; lia.
Qed.

Lemma accepted_run' net t a c st :
  tryFinally (tryCatch (submit P me net t st a c) onError) (setSavingId None) st =
  match BoundedDrugs.dateToISOString P (relDate st) with
  | inl e => ([BoundedDrugs.ConsoleError], failedWith e t st, inr tt)
  | inr d =>
      match pushResult net with
      | inl e =>
          ([pushEv P me t st c d; BoundedDrugs.ConsoleError], failedWith e t st, inr tt)
      | inr _ =>
          match updateResult net with
          | inl e =>
              ([pushEv P me t st c d; updateEv P me t st a c; BoundedDrugs.ConsoleError],
               failedWith e t st, inr tt)
          | inr _ =>
              ([pushEv P me t st c d; updateEv P me t st a c; smsEv P t st a c;
                doneAlert match smsResult net with
                           | inr ok => ok
                           | inl _ => false
                           end a c],
               released t st, inr tt)
          end
      end
  end.
Proof.
  unfold tryFinally, tryCatch, submit, onError, bind, call, modify, ret.
  destruct (BoundedDrugs.dateToISOString P (relDate st)) as [e|d]; [reflexivity|].
  destruct (pushResult net) as [e|[]]; [reflexivity|].
  destruct (updateResult net) as [e|[]]; [reflexivity|].
  destruct (smsResult net) as [e|[|]]; reflexivity.
Qed.



End Facts.
End BoundedFromInspectionsFacts.

(* ------------------------------------------------------------------ *)
(** ** What a release writes to the inspection                          *)
(* ------------------------------------------------------------------ *)

Module ReleaseSpec.
Import Js Eff JsFacts.

Section Patch.
Variable P : BoundedDrugs.Platform.
Variable me : option BoundedDrugs.User.



End Patch.



End ReleaseSpec.

(* ------------------------------------------------------------------ *)
(** ** The inspection detail page                                       *)
(* ------------------------------------------------------------------ *)

Module InspectionDetailFacts.
Import Js Eff InspectionDetail.

Section Facts.
Variable fmtDate : option jsstring -> jsstring.

Ltac run := unfold saveBoxStatus, handleReleaseSubmit, bind, Eff.get, tryFinally,
   tryCatch, call, modify, ret, throw, final, trace, outcome; cbv beta.

Lemma BoxStatus_eqb_eq a b : BoxStatus_eqb a b = true <-> a = b.
Proof. destruct a, b; simpl; split; congruence. Qed.

Lemma saveBoxStatus_frame net st :
  item (final (saveBoxStatus fmtDate net st)) = item st /\
  routeId (final (saveBoxStatus fmtDate net st)) = routeId st.
Proof. run. break; cbn; auto. Qed.

Lemma handleReleaseSubmit_frame net st :
  item (final (handleReleaseSubmit fmtDate net st)) = item st /\
  routeId (final (handleReleaseSubmit fmtDate net st)) = routeId st.
Proof. run. break; cbn; auto. Qed.

Lemma saveBoxStatus_updates net st path p :
  In (Update path p) (trace (saveBoxStatus fmtDate net st)) ->
  p = StatusPatch (statusDraft st) /\
  currentStatus st <> Released /\
  statusDraft st <> Released.
Proof.
  run. break; cbn [fst In app]; intro H; inTrace H.
  all: injection H as <- <-.
  all: repeat split; try reflexivity; intro E; apply BoxStatus_eqb_eq in E; congruence.
Qed.

(** Only alerts *)
Lemma saveBoxStatus_when_released net st :
  currentStatus st = Released \/ statusDraft st = Released ->
  forall e, In e (trace (saveBoxStatus fmtDate net st)) -> exists text, e = Alert text.
Proof.
  intros Hrel e. run.
  destruct (routeId st); [|intros []].
  destruct (item st) eqn:Hi; [|intros []].
  destruct (BoxStatus_eqb (currentStatus st) Released) eqn:E1.
  - cbn. intros [<-|[]]. eauto.
  - destruct (BoxStatus_eqb (statusDraft st) Released) eqn:E2.
    + cbn. intros [<-|[]]. eauto.
    + exfalso. destruct Hrel as [H|H]; apply BoxStatus_eqb_eq in H; congruence.
Qed.

Lemma handleReleaseSubmit_updates net st path p :
  In (Update path p) (trace (handleReleaseSubmit fmtDate net st)) ->
  p = ReleasePatch Released (form st) /\
  smsResult net = inr tt /\
  validateRelease (form st) (consent st) = [] /\
  exists to msg rest,
    trace (handleReleaseSubmit fmtDate net st) = Sms to msg :: Update path p :: rest.
Proof.
  run. break; cbn [fst In app]; intro H; inTrace H.
  all: injection H as <- <-.
  all: repeat split; try reflexivity; try (destruct u; reflexivity).
  all: do 3 eexists; reflexivity.
Qed.

Lemma handleReleaseSubmit_sms_failed net st e :
  smsResult net = inl e ->
  forall ev, In ev (trace (handleReleaseSubmit fmtDate net st)) -> isUpdate ev = false.
Proof.
  intros Hs ev. run. rewrite Hs. break; cbn [fst In app]; intro H; inTrace H; subst ev; reflexivity.
Qed.


Lemma boxStatusOf_withId rid rec : boxStatusOf (withId rid rec) = boxStatusOf rec.
Proof. destruct rec; reflexivity. Qed.

Lemma boxStatusOf_applyPatch p rec :
  boxStatusOf (applyPatch p rec) =
    Some (match p with StatusPatch s => s | ReleasePatch s _ => s end).
Proof. destruct p; reflexivity. Qed.

(** The store after a handler: either untouched, or patched once. *)
Lemma commit_trace net (t : list Event) rec :
  (forall e, In e t -> isUpdate e = false) ->
  commit net t rec = rec.
Proof.
  unfold commit. destruct (updateResult net); [reflexivity|].
  revert rec. induction t as [|e t IH]; intros rec H; [reflexivity|].
  cbn [fold_left]. assert (isUpdate e = false) as He by (apply H; left; reflexivity).
  destruct e; try discriminate; apply IH; intros; apply H; right; assumption.
Qed.

Lemma existsb_isUpdate_false (t : list Event) :
  (forall e, In e t -> isUpdate e = false) -> existsb isUpdate t = false.
Proof.
  intro H. induction t as [|e t IH]; [reflexivity|].
  cbn [existsb]. rewrite (H e (or_introl eq_refl)). apply IH.
  intros; apply H; right; assumption.
Qed.

Lemma synced_onSnapshot rec st :
  synced {| store := rec; page := onSnapshot rec st |}.
Proof. reflexivity. Qed.

Ltac breakw :=
  cbv beta iota; cbn [fst snd app existsb isUpdate andb orb];
  repeat (match goal with
          | |- context [match ?x with _ => _ end] =>
              lazymatch x with
              | context [match _ with _ => _ end] => fail
              | _ => destruct x eqn:?
              end
          end; cbv beta iota; cbn [fst snd app existsb isUpdate andb orb]).

Lemma saveBoxStatus_store net w :
  let w' := runHandler (saveBoxStatus fmtDate) net w in
  (store w' = store w /\ item (page w') = item (page w) /\ routeId (page w') = routeId (page w))
  \/ (currentStatus (page w) <> Released /\ statusDraft (page w) <> Released /\
      store w' = applyPatch (StatusPatch (statusDraft (page w))) (store w) /\
      synced w').
Proof.
  unfold runHandler, commit. run. breakw; cbn [store page fold_left]; auto.
  all: right.
  all: repeat split; try reflexivity;
       try (intro E; apply BoxStatus_eqb_eq in E; congruence).
Qed.

Lemma handleReleaseSubmit_store net w :
  let w' := runHandler (handleReleaseSubmit fmtDate) net w in
  (store w' = store w /\ item (page w') = item (page w) /\ routeId (page w') = routeId (page w))
  \/ (store w' = applyPatch (ReleasePatch Released (form (page w))) (store w) /\
      synced w').
Proof.
  unfold runHandler, commit. run. breakw; cbn [store page fold_left]; auto.
  all: right; split; reflexivity.
Qed.

Lemma step_released a w :
  synced w -> boxStatusOf (store w) = Some Released ->
  synced (step fmtDate a w) /\ boxStatusOf (store (step fmtDate a w)) = Some Released.
Proof.
  intros Hs Hr. destruct a; try (split; [exact Hs|exact Hr]).
  - cbn [step]. destruct (saveBoxStatus_store net w) as [(E1 & E2 & E3)|(Hc & _)].
    + split; [|rewrite E1; exact Hr]. unfold synced in *. congruence.
    + exfalso. apply Hc. unfold currentStatus. rewrite Hs, boxStatusOf_withId, Hr.
      reflexivity.
  - cbn [step]. destruct (handleReleaseSubmit_store net w) as [(E1 & E2 & E3)|(E & Hsy)].
    + split; [|rewrite E1; exact Hr]. unfold synced in *. congruence.
    + split; [exact Hsy|]. rewrite E. reflexivity.
Qed.

Lemma step_synced a w : synced w -> synced (step fmtDate a w).
Proof.
  intros Hs. destruct a; try exact Hs.
  - cbn [step]. destruct (saveBoxStatus_store net w) as [(E1 & E2 & E3)|(_ & _ & _ & H)];
      [unfold synced in *; congruence | exact H].
  - cbn [step]. destruct (handleReleaseSubmit_store net w) as [(E1 & E2 & E3)|(_ & H)];
      [unfold synced in *; congruence | exact H].
Qed.

Lemma step_reaches_released a w :
  boxStatusOf (store w) <> Some Released ->
  boxStatusOf (store (step fmtDate a w)) = Some Released ->
  exists net, a = ClickRelease net.
Proof.
  intros Hn Hr. destruct a; try (exfalso; exact (Hn Hr)); [|eauto].
  exfalso. cbn [step] in Hr.
  destruct (saveBoxStatus_store net w) as [(E1 & _)|(_ & Hd & E & _)].
  - rewrite E1 in Hr. exact (Hn Hr).
  - rewrite E, boxStatusOf_applyPatch in Hr. congruence.
Qed.

End Facts.

End InspectionDetailFacts.

Module LifecycleSpec.
Import Js Eff InspectionDetail InspectionDetailFacts.

(** C1: on the inspection detail page, [saveBoxStatus] on a record whose
    status is Released only alerts (no store write, no SMS) and leaves the
    draft at Released; it refuses a draft of Released the same way; so no
    patch it sends carries Released.  In the store, Released is reached only
    through the release handler, and once there no page action changes it. *)
Theorem released_is_terminal :
  (* a save on a Released record is rejected *)
  (forall fmt net st,
      currentStatus st = Released ->
      (forall e, In e (trace (saveBoxStatus fmt net st)) -> exists text, e = Alert text) /\
      (forall rid it,
          routeId st = Some rid -> item st = Some it ->
          saveBoxStatus fmt net st =
            ([Alert (lit "Status is Released and cannot be changed.")],
             setStatusDraft Released st, inr tt))) /\
  (* a save of Released is refused *)
  (forall fmt net st,
      statusDraft st = Released ->
      forall e, In e (trace (saveBoxStatus fmt net st)) -> exists text, e = Alert text) /\
  (* what a save writes is the draft, and never Released *)
  (forall fmt net st path p,
      In (Update path p) (trace (saveBoxStatus fmt net st)) ->
      p = StatusPatch (statusDraft st) /\
      statusDraft st <> Released /\ currentStatus st <> Released) /\
  (* Released is reached through the release handler only *)
  (forall fmt a w,
      boxStatusOf (store w) <> Some Released ->
      boxStatusOf (store (step fmt a w)) = Some Released ->
      exists net, a = ClickRelease net) /\
  (* and is terminal *)
  (forall fmt acts w,
      synced w ->
      boxStatusOf (store w) = Some Released ->
      boxStatusOf (store (steps fmt acts w)) = Some Released).
Proof.
  repeat apply conj.
  - intros fmt net st Hc. split.
    + apply saveBoxStatus_when_released. left. exact Hc.
    + intros rid it Hr Hi.
      unfold saveBoxStatus, bind, Eff.get, call, modify. cbv beta.
      rewrite Hr, Hi, Hc. reflexivity.
  - intros fmt net st Hd. apply saveBoxStatus_when_released. right. exact Hd.
  - intros fmt net st path p Hin.
    destruct (saveBoxStatus_updates _ _ _ _ _ Hin) as (H1 & H2 & H3). auto.
  - intros fmt a w. apply step_reaches_released.
  - intros fmt acts. unfold steps.
    induction acts as [|a acts IH]; intros w Hs Hr; [exact Hr|].
    cbn [fold_left]. destruct (step_released fmt a Hs Hr) as [Hs' Hr'].
    apply IH; assumption.
Qed.

End LifecycleSpec.

(* ------------------------------------------------------------------ *)
(** ** Order of the store writes and the SMS in a release               *)
(* ------------------------------------------------------------------ *)

Module ReleaseOrderSpec.
Import Js Eff.

Section Bounded.
Variable P : BoundedDrugs.Platform.
Variable me : option BoundedDrugs.User.

(** On the bounded-drugs page the SMS is sent only after both writes were
    answered without an exception. *)
Lemma bounded_sms_after_writes net st to msg :
  In (BoundedDrugs.Sms to msg) (trace (BoundedDrugs.handleSubmitRelease P me net st)) ->
  BoundedDrugs.pushResult net = inr tt /\
  BoundedDrugs.updateResult net = inr tt /\
  exists path r path' p rest,
    trace (BoundedDrugs.handleSubmitRelease P me net st) =
      BoundedDrugs.Push path r :: BoundedDrugs.Update path' p
        :: BoundedDrugs.Sms to msg :: rest.
Proof.
  destruct (BoundedDrugsFacts.handle_rejected P me net st)
    as [(t & c & Ht & Hf & Hc & Hr & Hk) | [[-> _] | [m ->]]];
    [|intros []..].
  rewrite (BoundedDrugsFacts.handle_accepted P me net st Ht Hf Hc Hr Hk),
    BoundedDrugsFacts.accepted_run.
  destruct (BoundedDrugs.dateToISOString P _) as [e|d]; [intro H; inTrace H|].
  destruct (BoundedDrugs.pushResult net) as [e|[]]; [intro H; inTrace H|].
  destruct (BoundedDrugs.updateResult net) as [e|[]]; [intro H; inTrace H|].
  intro H. repeat split.
  destruct (BoundedDrugs.smsResult net); inTrace H;
    unfold BoundedDrugs.smsEv in H; injection H as <- <-;
    do 5 eexists; reflexivity.
Qed.

(** Once both writes are stored the release is complete, whatever the SMS
    relay answers. *)
Lemma bounded_release_completes net st t c d :
  BoundedDrugs.target st = Some t ->
  BoundedDrugs.fieldsOk (BoundedDrugs.form st) = true ->
  parseInt (BoundedDrugs.boxesReleased (BoundedDrugs.form st)) = Some c ->
  (0 < c <= BoundedDrugs.num (BoundedDrugs.boxesImpounded t))%Z ->
  BoundedDrugs.canConfirm P st = true ->
  BoundedDrugs.dateToISOString P (BoundedDrugs.relDate (BoundedDrugs.form st)) = inr d ->
  BoundedDrugs.pushResult net = inr tt ->
  BoundedDrugs.updateResult net = inr tt ->
  let a := BoundedDrugs.num (BoundedDrugs.boxesImpounded t) in
  BoundedDrugs.handleSubmitRelease P me net st =
    ([BoundedDrugs.pushEv P me t (BoundedDrugs.form st) c d;
      BoundedDrugs.updateEv P me t (BoundedDrugs.form st) a c;
      BoundedDrugs.smsEv P t (BoundedDrugs.form st) a c]
       ++ match BoundedDrugs.smsResult net with
          | inl _ => [BoundedDrugs.ConsoleWarn]
          | inr _ => []
          end
       ++ [BoundedDrugs.doneAlert a c],
     BoundedDrugs.released t st, inr tt).
Proof.
  intros Ht Hf Hc Hr Hk Hd Hp Hu.
  rewrite (BoundedDrugsFacts.handle_accepted P me net st Ht Hf Hc Hr Hk),
    BoundedDrugsFacts.accepted_run, Hd, Hp, Hu.
  reflexivity.
Qed.

Lemma legacy_sms_after_writes net st to msg :
  In (BoundedDrugs.Sms to msg)
     (trace (BoundedFromInspections.handleSubmitRelease P me net st)) ->
  BoundedFromInspections.pushResult net = inr tt /\
  BoundedFromInspections.updateResult net = inr tt /\
  exists path r path' p rest,
    trace (BoundedFromInspections.handleSubmitRelease P me net st) =
      BoundedDrugs.Push path r :: BoundedDrugs.Update path' p
        :: BoundedDrugs.Sms to msg :: rest.
Proof.
  destruct (BoundedFromInspectionsFacts.handle_rejected' P me net st)
    as [(t & Ht & Hf & Hr) | [[-> _] | [m ->]]];
    [|intros []..].
  rewrite (BoundedFromInspectionsFacts.handle_accepted' P me net st Ht Hf Hr),
    BoundedFromInspectionsFacts.accepted_run'.
  destruct (BoundedDrugs.dateToISOString P _) as [e|d]; [intro H; inTrace H|].
  destruct (BoundedFromInspections.pushResult net) as [e|[]]; [intro H; inTrace H|].
  destruct (BoundedFromInspections.updateResult net) as [e|[]]; [intro H; inTrace H|].
  intro H. repeat split.
  inTrace H. unfold BoundedFromInspections.smsEv in H. injection H as <- <-.
  do 5 eexists; reflexivity.
Qed.

Lemma legacy_release_completes net st t d :
  BoundedFromInspections.targetRow st = Some t ->
  BoundedFromInspections.fieldsOk st = true ->
  (0 < BoundedFromInspections.intendedCount st
     <= BoundedFromInspections.availableBoxes st)%Z ->
  BoundedDrugs.dateToISOString P (BoundedFromInspections.relDate st) = inr d ->
  BoundedFromInspections.pushResult net = inr tt ->
  BoundedFromInspections.updateResult net = inr tt ->
  let a := BoundedFromInspections.availableBoxes st in
  let c := BoundedFromInspections.intendedCount st in
  BoundedFromInspections.handleSubmitRelease P me net st =
    ([BoundedFromInspections.pushEv P me t st c d;
      BoundedFromInspections.updateEv P me t st a c;
      BoundedFromInspections.smsEv P t st a c;
      BoundedFromInspections.doneAlert
        match BoundedFromInspections.smsResult net with
        | inr ok => ok
        | inl _ => false
        end a c],
     BoundedFromInspections.released t st, inr tt).
Proof.
  intros Ht Hf Hr Hd Hp Hu.
  rewrite (BoundedFromInspectionsFacts.handle_accepted' P me net st Ht Hf Hr),
    BoundedFromInspectionsFacts.accepted_run', Hd, Hp, Hu.
  reflexivity.
Qed.

End Bounded.

(** C2 (as amended): on both bounded-drugs pages the store writes come
    first and the SMS second, and once the writes are stored the release
    completes with its success alert whatever the SMS relay answers (the
    failure is only a console warning, or "(SMS failed)" in the alert).  On
    the inspection detail page the order is the reverse: the SMS is sent
    first, the store is written only after it succeeded, and an SMS failure
    leaves the store untouched. *)
Theorem release_side_effect_order :
  (forall P me net st to msg,
      In (BoundedDrugs.Sms to msg) (trace (BoundedDrugs.handleSubmitRelease P me net st)) ->
      BoundedDrugs.pushResult net = inr tt /\
      BoundedDrugs.updateResult net = inr tt /\
      exists path r path' p rest,
        trace (BoundedDrugs.handleSubmitRelease P me net st) =
          BoundedDrugs.Push path r :: BoundedDrugs.Update path' p
            :: BoundedDrugs.Sms to msg :: rest) /\
  (forall P me net st t c d,
      BoundedDrugs.target st = Some t ->
      BoundedDrugs.fieldsOk (BoundedDrugs.form st) = true ->
      parseInt (BoundedDrugs.boxesReleased (BoundedDrugs.form st)) = Some c ->
      (0 < c <= BoundedDrugs.num (BoundedDrugs.boxesImpounded t))%Z ->
      BoundedDrugs.canConfirm P st = true ->
      BoundedDrugs.dateToISOString P (BoundedDrugs.relDate (BoundedDrugs.form st)) = inr d ->
      BoundedDrugs.pushResult net = inr tt ->
      BoundedDrugs.updateResult net = inr tt ->
      let a := BoundedDrugs.num (BoundedDrugs.boxesImpounded t) in
      BoundedDrugs.handleSubmitRelease P me net st =
        ([BoundedDrugs.pushEv P me t (BoundedDrugs.form st) c d;
          BoundedDrugs.updateEv P me t (BoundedDrugs.form st) a c;
          BoundedDrugs.smsEv P t (BoundedDrugs.form st) a c]
           ++ match BoundedDrugs.smsResult net with
              | inl _ => [BoundedDrugs.ConsoleWarn]
              | inr _ => []
              end
           ++ [BoundedDrugs.doneAlert a c],
         BoundedDrugs.released t st, inr tt)) /\
  (forall P me net st to msg,
      In (BoundedDrugs.Sms to msg)
         (trace (BoundedFromInspections.handleSubmitRelease P me net st)) ->
      BoundedFromInspections.pushResult net = inr tt /\
      BoundedFromInspections.updateResult net = inr tt /\
      exists path r path' p rest,
        trace (BoundedFromInspections.handleSubmitRelease P me net st) =
          BoundedDrugs.Push path r :: BoundedDrugs.Update path' p
            :: BoundedDrugs.Sms to msg :: rest) /\
  (forall P me net st t d,
      BoundedFromInspections.targetRow st = Some t ->
      BoundedFromInspections.fieldsOk st = true ->
      (0 < BoundedFromInspections.intendedCount st
         <= BoundedFromInspections.availableBoxes st)%Z ->
      BoundedDrugs.dateToISOString P (BoundedFromInspections.relDate st) = inr d ->
      BoundedFromInspections.pushResult net = inr tt ->
      BoundedFromInspections.updateResult net = inr tt ->
      let a := BoundedFromInspections.availableBoxes st in
      let c := BoundedFromInspections.intendedCount st in
      BoundedFromInspections.handleSubmitRelease P me net st =
        ([BoundedFromInspections.pushEv P me t st c d;
          BoundedFromInspections.updateEv P me t st a c;
          BoundedFromInspections.smsEv P t st a c;
          BoundedFromInspections.doneAlert
            match BoundedFromInspections.smsResult net with
            | inr ok => ok
            | inl _ => false
            end a c],
         BoundedFromInspections.released t st, inr tt)) /\
  (forall fmt net st path p,
      In (InspectionDetail.Update path p)
         (trace (InspectionDetail.handleReleaseSubmit fmt net st)) ->
      InspectionDetail.smsResult net = inr tt /\
      exists to msg rest,
        trace (InspectionDetail.handleReleaseSubmit fmt net st) =
          InspectionDetail.Sms to msg :: InspectionDetail.Update path p :: rest) /\
  (forall fmt net st e,
      InspectionDetail.smsResult net = inl e ->
      forall ev, In ev (trace (InspectionDetail.handleReleaseSubmit fmt net st)) ->
                 InspectionDetail.isUpdate ev = false).
Proof.
  repeat apply conj.
  - exact bounded_sms_after_writes.
  - exact bounded_release_completes.
  - exact legacy_sms_after_writes.
  - exact legacy_release_completes.
  - intros fmt net st path p Hin.
    destruct (InspectionDetailFacts.handleReleaseSubmit_updates _ _ _ _ _ Hin)
      as (_ & Hs & _ & Hex). auto.
  - intros fmt net st e. apply InspectionDetailFacts.handleReleaseSubmit_sms_failed.
Qed.

(** C2, counterexample: a release on the inspection detail page.  With the
    relay up, the SMS goes out before the store is written; with the relay
    down, the release is aborted ("Release failed: ...") and nothing is
    written. *)
Lemma detail_release_notifies_first :
  (exists to msg,
      trace (InspectionDetail.handleReleaseSubmit Examples.showDate Examples.detailFine
               (Examples.detailPage (lit "5"))) =
        [InspectionDetail.Sms to msg;
         InspectionDetail.Update (lit "ndachecklists/submissions/-Nabc")
           (InspectionDetail.ReleasePatch InspectionDetail.Released
              (Examples.detailForm (lit "5")));
         InspectionDetail.Alert (lit "Released and SMS sent.")]) /\
  (exists to msg,
      trace (InspectionDetail.handleReleaseSubmit Examples.showDate Examples.detailSmsDown
               (Examples.detailPage (lit "5"))) =
        [InspectionDetail.Sms to msg;
         InspectionDetail.ConsoleError;
         InspectionDetail.Alert (lit "Release failed: SMS failed (502): ")]).
Proof. split; do 2 eexists; vm_compute; reflexivity. Qed.

End ReleaseOrderSpec.

(* ------------------------------------------------------------------ *)
(** ** Validation of the number of boxes released                       *)
(* ------------------------------------------------------------------ *)

Module ValidationSpec.
Import Js Eff JsFacts.


Lemma splitSign_digit (c : cu) (ds : jsstring) :
  isDigit c = true -> splitSign (c :: ds) = (false, c :: ds).
Proof.
  intro Hc. unfold splitSign. unfold isDigit in Hc. apply andb_true_iff in Hc.
  destruct Hc as [H1 H2]. apply N.leb_le in H1, H2.
  destruct c as [|p]; [reflexivity|].
  do 6 (destruct p as [p|p|]; try reflexivity); lia.
Qed.








End ValidationSpec.

(* ------------------------------------------------------------------ *)
(** ** The inspections list: pagination                                 *)
(* ------------------------------------------------------------------ *)

Unset Implicit Arguments.

Module InspectionsListFacts.
Import Js Eff InspectionsList.

Lemma jseqb_eq (a b : jsstring) : jseqb a b = true <-> a = b.
Proof.
  revert b. induction a as [|x a IH]; intros [|y b]; cbn [jseqb];
    try (split; [discriminate|congruence]); [tauto|].
  rewrite andb_true_iff, IH. unfold cu_eqb. rewrite N.eqb_eq.
  split; [intros [-> ->]; reflexivity | intros [= -> ->]; auto].
Qed.

Lemma mem_In (x : jsstring) (l : list jsstring) : mem x l = true <-> In x l.
Proof.
  unfold mem. rewrite existsb_exists. split.
  - intros (y & Hy & E). apply jseqb_eq in E. subst y. exact Hy.
  - intro H. exists x. split; [exact H|]. apply jseqb_eq. reflexivity.
Qed.

Section Sorted.
Variable key : Inspection -> Z.

Lemma insertDesc_perm (x : Inspection) (l : list Inspection) :
  Permutation (insertDesc key x l) (x :: l).
Proof.
  induction l as [|y l IH]; cbn [insertDesc]; [reflexivity|].
  destruct (key y <=? key x)%Z; [reflexivity|].
  rewrite IH. apply perm_swap.
Qed.

Lemma sortDesc_perm (l : list Inspection) : Permutation (sortDesc key l) l.
Proof.
  induction l as [|x l IH]; [reflexivity|].
  unfold sortDesc in *. cbn [fold_right]. rewrite insertDesc_perm, IH. reflexivity.
Qed.

Lemma sortDesc_In (l : list Inspection) (x : Inspection) :
  In x (sortDesc key l) <-> In x l.
Proof.
  split; apply Permutation_in; [|symmetry]; apply sortDesc_perm.
Qed.


End Sorted.


Lemma lastOf_None (l : list Inspection) : lastOf l = None -> l = [].
Proof.
  unfold lastOf. destruct (rev l) as [|y r] eqn:E; [|discriminate].
  intros _. apply (f_equal (@rev _)) in E. rewrite rev_involutive in E. exact E.
Qed.



Lemma skipn_In (n : nat) (l : list Inspection) (x : Inspection) :
  In x (skipn n l) -> In x l.
Proof.
  intro H. rewrite <- (firstn_skipn n l). apply in_or_app. right. exact H.
Qed.


Lemma runQuery_In (ds : list Inspection) (q : Query) (x : Inspection) :
  In x (runQuery ds q) ->
  In x ds /\ match endAt q with
             | Some b => ord_leb (createdAt (meta x)) b = true
             | None => True
             end.
Proof.
  unfold runQuery, lastN. intro H. apply skipn_In in H.
  destruct (endAt q); [apply filter_In in H; exact H | auto].
Qed.

Lemma runQuery_length (ds : list Inspection) (q : Query) :
  List.length (runQuery ds q) <= limitToLast q.
Proof.
  unfold runQuery, lastN. rewrite length_skipn. lia.
Qed.



Section Paging.
Variable key : Inspection -> Z.
Variable get : Query -> Exn + list Inspection.

Ltac runp := unfold loadMore, bind, Eff.get, tryFinally, tryCatch, call, modify, ret,
               final, trace, outcome; cbv beta.

(** Once the end is marked, "load more" returns without fetching. *)
Lemma loadMore_at_end st :
  reachedEnd st = true -> loadMore key get st = ([], st, inr tt).
Proof.
  intro H. runp. rewrite H, orb_true_r. destruct (lastSeenOrderVal st); reflexivity.
Qed.


(** A fetch that was answered: what the call leaves. *)
Lemma loadMore_fetched st cursor snap :
  lastSeenOrderVal st = Some cursor ->
  loadingMore st = false ->
  reachedEnd st = false ->
  get (cursorQuery cursor) = inr snap ->
  let batch := sortDesc key snap in
  loadMore key get st =
    ([Get (cursorQuery cursor)],
     {| items := match batch with
                 | [] => items st
                 | _ => sortDesc key (mergeNew (items st) batch)
                 end;
        lastSeenOrderVal :=
          match lastOf batch with
          | Some last =>
              match createdAt (meta last) with
              | Some v => Some v
              | None => Some cursor
              end
          | None => Some cursor
          end;
        reachedEnd := Nat.ltb (List.length batch) PAGE_SIZE;
        loadingMore := false |},
     inr tt).
Proof.
  intros Hc Hl He Hg. cbv zeta. runp. rewrite Hc, Hl, He. cbn [orb].
  fold (cursorQuery cursor). rewrite Hg.
  destruct (lastOf (sortDesc key snap)) as [last|] eqn:El.
  - destruct (sortDesc key snap) as [|b0 bs] eqn:Eb; [discriminate El|].
    destruct (Nat.ltb (List.length (b0 :: bs)) PAGE_SIZE) eqn:Elt;
      unfold setLoadingMore, setLastSeen, setItems, setReachedEnd;
      cbn [items lastSeenOrderVal reachedEnd loadingMore app];
      rewrite ?He; reflexivity.
  - apply lastOf_None in El. rewrite El.
    unfold setLoadingMore, setLastSeen, setItems, setReachedEnd;
      cbn [items lastSeenOrderVal reachedEnd loadingMore app List.length].
    rewrite Hc. reflexivity.
Qed.


End Paging.



(** ** Against a fixed dataset *)

Section Dataset.
Variable key : Inspection -> Z.
Variable ds : list Inspection.






End Dataset.

End InspectionsListFacts.

Module OrderFacts.
Import Js Eff InspectionsList InspectionsListFacts.

(** ** The order of the [meta/createdAt] index *)








(** ** The last entry of a sorted batch has the least key *)

Section Sorted.
Variable key : Inspection -> Z.


Lemma insertDesc_sorted (x : Inspection) (l : list Inspection) :
  StronglySorted (fun a b => (key b <= key a)%Z) l ->
  StronglySorted (fun a b => (key b <= key a)%Z) (insertDesc key x l).
Proof.
  induction l as [|y l IH]; intro H; cbn [insertDesc].
  - repeat constructor.
  - inversion H as [|? ? Hs Hall]; subst.
    destruct (Z.leb_spec (key y) (key x)) as [Hle|Hgt].
    + constructor; [exact H|]. constructor; [exact Hle|].
      rewrite Forall_forall in *. intros z Hz. specialize (Hall z Hz). lia.
    + constructor; [apply IH, Hs|].
      rewrite Forall_forall in *. intros z Hz.
      apply (Permutation_in _ (insertDesc_perm key x l)) in Hz.
      destruct Hz as [<-|Hz]; [lia|apply Hall, Hz].
Qed.

Lemma sortDesc_sorted (l : list Inspection) :
  StronglySorted (fun a b => (key b <= key a)%Z) (sortDesc key l).
Proof.
  induction l as [|x l IH]; [constructor|].
  unfold sortDesc in *. cbn [fold_right]. apply insertDesc_sorted, IH.
Qed.


End Sorted.



(** ** Against a fixed dataset, whatever the type of the cursor *)

Section Stamped.
Variable key : Inspection -> Z.
Variable ds : list Inspection.





(** A dataset of numeric timestamps meets the conditions on strings. *)
Lemma numeric_stamped : numeric ds -> stamped ds /\ keyFollowsIndex key ds /\ fewTies ds.
Proof.
  intro Hnum. repeat split.
  - intros it Hin. destruct (Hnum it Hin) as [v Hv]. eauto.
  - intros x y s _ Hy Hs. destruct (Hnum y Hy) as [v Hv]. congruence.
  - intro s. assert (filter (stampedAt s) ds = []) as ->; [|unfold PAGE_SIZE; cbn; lia].
    clear -Hnum. induction ds as [|x l IH]; [reflexivity|].
    cbn [filter]. unfold stampedAt at 1.
    destruct (Hnum x (or_introl eq_refl)) as [v ->].
    apply IH. intros it Hin. apply Hnum. right. exact Hin.
Qed.




End Stamped.


End OrderFacts.

Module PaginationSpec.
Import Js Eff InspectionsList InspectionsListFacts OrderFacts.



End PaginationSpec.

(* ------------------------------------------------------------------ *)
(** ** The inspections list: the 100-day reminder                       *)
(* ------------------------------------------------------------------ *)

Module ReminderFacts.
Import Js Eff InspectionsList InspectionsListFacts.

Section Remind.
Variable P : Platform.
Variable net : RemindNet.

Ltac runr := unfold remindOne, bind, Eff.get, tryCatch, call, modify, ret; cbv beta.

Lemma remindOne_fires it d reminded :
  due P it d ->
  mem (id it) reminded = false ->
  smsResult net (id it) = inr tt ->
  updateResult net (id it) = inr tt ->
  remindOne P net it reminded =
    ([Sms (collectOwnerPhones (meta it)) (buildReminder100Message P it d);
      Update (impoundmentPath it) (nowIso P)],
     id it :: reminded, inr tt).
Proof.
  intros (imp & Hi & Hb & Hr & Hd & Hgt & Hp) Hm Hs Hu. runr.
  rewrite Hi, Hb, Hr, Hm, Hd. cbn [BoxStatus_eqb negb].
  assert ((d <=? 100) = false)%Z as -> by (apply Z.leb_gt; lia).
  rewrite Hp, Hs, Hu. reflexivity.
Qed.

Lemma remindOne_skips_set it reminded :
  reminderSet it -> remindOne P net it reminded = ([], reminded, inr tt).
Proof.
  intros (imp & Hi & Hr). runr. rewrite Hi, Hr.
  destruct (boxStatus imp) as [[]|]; reflexivity.
Qed.

Lemma remindOne_skips_session it reminded :
  mem (id it) reminded = true -> remindOne P net it reminded = ([], reminded, inr tt).
Proof.
  intros Hm. runr. rewrite Hm.
  destruct (impoundment it) as [imp|]; [|reflexivity].
  destruct (boxStatus imp) as [[]|]; try reflexivity.
  cbn [BoxStatus_eqb negb]. destruct (truthyOpt _); reflexivity.
Qed.

(** Without a contact phone nothing is sent and nothing is written. *)
Lemma remindOne_skips_no_phone it reminded :
  truthy (collectOwnerPhones (meta it)) = false ->
  remindOne P net it reminded = ([], reminded, inr tt).
Proof.
  intros Hp. runr. rewrite Hp.
  destruct (impoundment it) as [imp|]; [|reflexivity].
  destruct (boxStatus imp) as [[]|]; try reflexivity.
  cbn [BoxStatus_eqb negb]. destruct (truthyOpt _); [reflexivity|].
  destruct (mem _ _); [reflexivity|].
  destruct (daysBetween _ _ _) as [d|]; [|reflexivity].
  destruct (d <=? 100)%Z; reflexivity.
Qed.

(** A turn of the loop never throws and only ever adds to [remindedIds]. *)
Lemma remindOne_total it reminded :
  outcome (remindOne P net it reminded) = inr tt /\
  (final (remindOne P net it reminded) = reminded \/
   final (remindOne P net it reminded) = id it :: reminded).
Proof.
  runr. unfold outcome, final. break; cbn; auto.
Qed.

Lemma autoRemind_cons it rest reminded :
  autoRemind P net (it :: rest) reminded =
    (trace (remindOne P net it reminded)
       ++ trace (autoRemind P net rest (final (remindOne P net it reminded))),
     final (autoRemind P net rest (final (remindOne P net it reminded))),
     outcome (autoRemind P net rest (final (remindOne P net it reminded)))).
Proof.
  cbn [autoRemind]. unfold bind at 1.
  pose proof (remindOne_total it reminded) as [Ho _].
  destruct (remindOne P net it reminded) as [[t s] o]. cbn [outcome snd] in Ho.
  subst o. unfold trace, final, outcome. cbn [fst snd].
  destruct (autoRemind P net rest s) as [[t' s'] o']. reflexivity.
Qed.

Lemma autoRemind_app l1 l2 reminded :
  autoRemind P net (l1 ++ l2) reminded =
    (trace (autoRemind P net l1 reminded)
       ++ trace (autoRemind P net l2 (final (autoRemind P net l1 reminded))),
     final (autoRemind P net l2 (final (autoRemind P net l1 reminded))),
     outcome (autoRemind P net l2 (final (autoRemind P net l1 reminded)))).
Proof.
  revert reminded. induction l1 as [|it l1 IH]; intro reminded.
  - cbn [app autoRemind]. unfold ret, trace, final, outcome. cbn [fst snd app].
    destruct (autoRemind P net l2 reminded) as [[t s] o]. reflexivity.
  - cbn [app]. rewrite !autoRemind_cons, IH.
    unfold trace, final, outcome. cbn [fst snd]. rewrite app_assoc. reflexivity.
Qed.

(** The session set after a pass holds only ids of the records passed
    over, besides what it held. *)
Lemma autoRemind_reminded l reminded x :
  In x (final (autoRemind P net l reminded)) ->
  In x reminded \/ In x (map id l).
Proof.
  revert reminded. induction l as [|it l IH]; intros reminded H.
  - left. exact H.
  - rewrite autoRemind_cons in H. unfold final at 1 in H. cbn [fst snd] in H.
    apply IH in H. cbn [map In].
    destruct H as [H|H]; [|auto].
    destruct (remindOne_total it reminded) as [_ [E|E]]; rewrite E in H.
    + auto.
    + destruct H as [<-|H]; auto.
Qed.

(** A pass over records whose timestamp is set sends nothing. *)
Lemma autoRemind_all_set l reminded :
  (forall it, In it l -> reminderSet it) ->
  autoRemind P net l reminded = ([], reminded, inr tt).
Proof.
  induction l as [|it l IH]; intro H; [reflexivity|].
  rewrite autoRemind_cons, (remindOne_skips_set it reminded (H it (or_introl eq_refl))).
  unfold final, trace, outcome. cbn [fst snd app].
  rewrite IH by (intros; apply H; right; assumption). reflexivity.
Qed.

End Remind.
End ReminderFacts.

Module ReminderSpec.
Import Js Eff InspectionsList InspectionsListFacts ReminderFacts.

(** C5 (as amended): for a record that is in store, has no reminder
    timestamp, was not reminded in this session, has been in store for more
    than 100 days and has a contact phone, a turn of the pass in which the
    SMS and the store patch succeed sends exactly one SMS, writes the
    timestamp and notes the id for the session; in a pass over a list the
    record contributes exactly these two calls.  A record without a contact
    phone is skipped.  A record whose timestamp is set, and a record noted
    in the session, are skipped: a later pass sends nothing for them. *)
Theorem auto_reminder_once :
  (forall P net it d reminded,
      due P it d ->
      mem (id it) reminded = false ->
      smsResult net (id it) = inr tt ->
      updateResult net (id it) = inr tt ->
      remindOne P net it reminded =
        ([Sms (collectOwnerPhones (meta it)) (buildReminder100Message P it d);
          Update (impoundmentPath it) (nowIso P)],
         id it :: reminded, inr tt)) /\
  (forall P net pre it post d reminded,
      due P it d ->
      ~ In (id it) reminded ->
      ~ In (id it) (map id pre) ->
      smsResult net (id it) = inr tt ->
      updateResult net (id it) = inr tt ->
      exists seen,
        final (autoRemind P net pre reminded) = seen /\
        trace (autoRemind P net (pre ++ it :: post) reminded) =
          trace (autoRemind P net pre reminded)
            ++ [Sms (collectOwnerPhones (meta it)) (buildReminder100Message P it d);
                Update (impoundmentPath it) (nowIso P)]
            ++ trace (autoRemind P net post (id it :: seen))) /\
  (forall P net it reminded,
      truthy (collectOwnerPhones (meta it)) = false ->
      remindOne P net it reminded = ([], reminded, inr tt)) /\
  (forall P net it reminded,
      reminderSet it \/ mem (id it) reminded = true ->
      remindOne P net it reminded = ([], reminded, inr tt)) /\
  (forall P net l reminded,
      (forall it, In it l -> reminderSet it) ->
      autoRemind P net l reminded = ([], reminded, inr tt)) /\
  (forall P it,
      nowIso P <> [] -> reminderSet (withReminder (nowIso P) it)).
Proof.
  repeat apply conj.
  - exact remindOne_fires.
  - intros P net pre it post d reminded Hdue Hr Hpre Hs Hu.
    eexists. split; [reflexivity|].
    rewrite autoRemind_app. unfold trace at 1. cbn [fst].
    f_equal. rewrite autoRemind_cons. unfold trace at 1. cbn [fst].
    assert (mem (id it) (final (autoRemind P net pre reminded)) = false) as Hm.
    { destruct (mem _ _) eqn:E; [|reflexivity]. exfalso.
      apply mem_In, autoRemind_reminded in E. tauto. }
    rewrite (remindOne_fires P net it d _ Hdue Hm Hs Hu).
    unfold trace at 1, final at 2. cbn [fst snd]. reflexivity.
  - exact remindOne_skips_no_phone.
  - intros P net it reminded [H|H];
      [apply remindOne_skips_set | apply remindOne_skips_session]; exact H.
  - exact autoRemind_all_set.
  - intros P it Hnow. unfold reminderSet, withReminder. cbn [impoundment].
    destruct (impoundment it) as [imp|]; eexists; (split; [reflexivity|]);
      cbn [reminder100SentAt truthyOpt]; destruct (nowIso P); congruence.
Qed.

(** C5, counterexample: a record in store for 142 days, never reminded,
    whose contact phone list is empty: the pass sends no SMS and writes no
    timestamp. *)
Lemma no_phone_no_reminder :
  let it := Examples.inStore None in
  (exists imp,
      impoundment it = Some imp /\
      boxStatus imp = Some InStore /\
      reminder100SentAt imp = None /\
      daysBetween Examples.listPlatform
        (orNull [impoundmentDate imp; date (meta it)])
        (Some (nowIso Examples.listPlatform)) = Some 142%Z) /\
  remindOne Examples.listPlatform Examples.relayUp it [] = ([], [], inr tt) /\
  autoRemind Examples.listPlatform Examples.relayUp [it] [] = ([], [], inr tt).
Proof.
  cbv zeta. split; [eexists; repeat split; vm_compute; reflexivity|].
  split; vm_compute; reflexivity.
Qed.

End ReminderSpec.

(* ------------------------------------------------------------------ *)
(** ** The theorems at concrete records                                 *)
(* ------------------------------------------------------------------ *)

Module Scenarios.
Import Js Eff Examples.

(** A released record stays released through saves, drafts and a second
    release. *)
Lemma released_stays_released :
  let rec := InspectionDetail.applyPatch
               (InspectionDetail.ReleasePatch InspectionDetail.Released
                  (detailForm (lit "5"))) (Some stored) in
  let w := {| InspectionDetail.store := rec;
              InspectionDetail.page :=
                InspectionDetail.onSnapshot rec (detailPage (lit "5")) |} in
  InspectionDetail.boxStatusOf
    (InspectionDetail.store
       (InspectionDetail.steps showDate
          [InspectionDetail.ClickSave detailFine;
           InspectionDetail.SelectStatus InspectionDetail.InStore;
           InspectionDetail.ClickSave detailFine;
           InspectionDetail.CheckConsent true;
           InspectionDetail.ClickRelease detailFine] w))
  = Some InspectionDetail.Released.
Proof.
  cbv zeta.
  apply (proj2 (proj2 (proj2 (proj2 LifecycleSpec.released_is_terminal)))).
  - reflexivity.
  - reflexivity.
Defined.

(** Five boxes impounded, five released, the SMS relay down: both writes
    are made, then the SMS is tried, and the release still completes. *)
Lemma release_with_relay_down :
  exists push update sms alert,
    BoundedDrugs.handleSubmitRelease platform None smsDown (modalOn shop (lit "5")) =
      ([push; update; sms; BoundedDrugs.ConsoleWarn; alert],
       BoundedDrugs.released shop (modalOn shop (lit "5")), inr tt).
Proof.
  do 4 eexists.
  apply (proj1 (proj2 ReleaseOrderSpec.release_side_effect_order)
           platform None smsDown (modalOn shop (lit "5")) shop 5%Z
           (lit "2025-03-01T00:00:00.000Z"));
    try reflexivity.
  split; [reflexivity | discriminate].
Defined.




(** A record in store for 142 days with a contact phone is reminded once. *)
Lemma reminder_sent_once :
  exists sms,
    InspectionsList.remindOne listPlatform relayUp
      (inStore (Some (lit "0772123456"))) [] =
      ([sms;
        InspectionsList.Update (lit "ndachecklists/submissions/-Nabc/impoundment")
          (lit "2025-06-01T00:00:00.000Z")],
       [lit "-Nabc"], inr tt).
Proof.
  eexists.
  apply (proj1 ReminderSpec.auto_reminder_once listPlatform relayUp
           (inStore (Some (lit "0772123456"))) 142%Z []); try reflexivity.
  eexists. repeat split; reflexivity.
Defined.


(** A local number becomes international. *)
Lemma local_number_normalized :
  Phone.normalizeUgPhone (lit "0772123456") = lit "+256772123456".
Proof.
  apply (proj1 (proj2 PhoneSpec.normalizeUgPhone_cases) (lit "72123456"));
    reflexivity.
Defined.


End Scenarios.

(* ================================================================== *)
(** * Further properties of the pages                                  *)
(* ================================================================== *)

(* ------------------------------------------------------------------ *)
(** ** Comma-separated phone lists                                      *)
(* ------------------------------------------------------------------ *)

Module CsvFacts.
Import Js Phone Csv.

(** *** [split] and [join] *)

Lemma split_not_nil (sep : cu) (s : jsstring) : split sep s <> [].
Proof.
  induction s as [|c r IH]; cbn [split]; [discriminate|].
  destruct (cu_eqb c sep); [discriminate|].
  destruct (split sep r); discriminate.
Qed.

Lemma split_no_sep (sep : cu) (s t : jsstring) :
  In t (split sep s) -> ~ In sep t.
Proof.
  revert t. induction s as [|c r IH]; cbn [split]; intros t Ht.
  - destruct Ht as [<-|[]]. intros [].
  - destruct (cu_eqb c sep) eqn:Ec.
    + destruct Ht as [<-|Ht]; [intros []|auto].
    + destruct (split sep r) as [|h tl] eqn:Es.
      * destruct Ht as [<-|[]]. intros [->|[]].
        unfold cu_eqb in Ec. rewrite N.eqb_refl in Ec. discriminate.
      * destruct Ht as [<-|Ht].
        -- intros [->|Hin].
           ++ unfold cu_eqb in Ec. rewrite N.eqb_refl in Ec. discriminate.
           ++ exact (IH h (or_introl eq_refl) Hin).
        -- apply IH. right. exact Ht.
Qed.

Lemma join_split (sep : cu) (s : jsstring) : join [sep] (split sep s) = s.
Proof.
  induction s as [|c r IH]; [reflexivity|]. cbn [split].
  pose proof (split_not_nil sep r) as Hn.
  destruct (cu_eqb c sep) eqn:Ec.
  - apply JsFacts.cu_eqb_eq in Ec. subst c.
    destruct (split sep r) as [|h t]; [congruence|].
    change (join [sep] ([] :: h :: t)) with ([] ++ [sep] ++ join [sep] (h :: t)).
    rewrite IH. reflexivity.
  - destruct (split sep r) as [|h t]; [congruence|].
    destruct t as [|h' t'].
    + change (c :: h = c :: r). change (h = r) in IH. congruence.
    + change (join [sep] ((c :: h) :: h' :: t'))
        with (c :: (h ++ [sep] ++ join [sep] (h' :: t'))).
      change (h ++ [sep] ++ join [sep] (h' :: t') = r) in IH. congruence.
Qed.

Lemma split_sep_free (sep : cu) (t : jsstring) :
  ~ In sep t -> split sep t = [t].
Proof.
  induction t as [|c r IH]; intro H; [reflexivity|]. cbn [split].
  destruct (cu_eqb c sep) eqn:Ec.
  - apply JsFacts.cu_eqb_eq in Ec. subst c. exfalso. apply H. left. reflexivity.
  - rewrite IH; [reflexivity|]. intro Hin. apply H. right. exact Hin.
Qed.

Lemma split_app_sep (sep : cu) (t s : jsstring) :
  ~ In sep t -> split sep (t ++ sep :: s) = t :: split sep s.
Proof.
  induction t as [|c r IH]; intro H.
  - cbn [app split]. unfold cu_eqb. rewrite N.eqb_refl. reflexivity.
  - cbn [app split].
    destruct (cu_eqb c sep) eqn:Ec.
    + apply JsFacts.cu_eqb_eq in Ec. subst c. exfalso. apply H. left. reflexivity.
    + rewrite IH; [reflexivity|]. intro Hin. apply H. right. exact Hin.
Qed.

(** Printing a list of separator-free tokens and reading it back. *)
Lemma split_join (sep : cu) (l : list jsstring) :
  l <> [] -> (forall t, In t l -> ~ In sep t) ->
  split sep (join [sep] l) = l.
Proof.
  induction l as [|x r IH]; [congruence|]. intros _ H.
  destruct r as [|y r'].
  - cbn [join]. apply split_sep_free. apply H. left. reflexivity.
  - change (join [sep] (x :: y :: r')) with (x ++ sep :: join [sep] (y :: r')).
    rewrite split_app_sep by (apply H; left; reflexivity).
    rewrite IH; [reflexivity|discriminate|].
    intros t Ht. apply H. right. exact Ht.
Qed.

(** A prefix without the separator goes to the first field. *)
Lemma split_app_l (sep : cu) (a m : jsstring) :
  ~ In sep a ->
  split sep (a ++ m) =
    match split sep m with
    | h :: t => (a ++ h) :: t
    | [] => [a]
    end.
Proof.
  induction a as [|c r IH]; intro H.
  - cbn [app]. pose proof (split_not_nil sep m).
    destruct (split sep m); [congruence|reflexivity].
  - cbn [app split].
    destruct (cu_eqb c sep) eqn:Ec.
    + apply JsFacts.cu_eqb_eq in Ec. subst c. exfalso. apply H. left. reflexivity.
    + rewrite IH by (intro Hin; apply H; right; exact Hin).
      pose proof (split_not_nil sep m).
      destruct (split sep m); [congruence|reflexivity].
Qed.

(** A suffix without the separator goes to the last field. *)
Lemma split_app_r (sep : cu) (m b : jsstring) :
  ~ In sep b ->
  split sep (m ++ b) =
    removelast (split sep m) ++ [last (split sep m) [] ++ b].
Proof.
  intro Hb. induction m as [|c r IH].
  - cbn [app split removelast last]. apply split_sep_free. exact Hb.
  - cbn [app split].
    pose proof (split_not_nil sep r) as Hn.
    destruct (cu_eqb c sep) eqn:Ec.
    + rewrite IH. destruct (split sep r) as [|h t]; [congruence|]. reflexivity.
    + rewrite IH. destruct (split sep r) as [|h t]; [congruence|].
      destruct t as [|h' t']; reflexivity.
Qed.

(** *** [trim] *)

Lemma trimEnd_snoc (s : jsstring) (c : cu) :
  trimEnd (s ++ [c]) = if isWhiteSpace c then trimEnd s else s ++ [c].
Proof.
  unfold trimEnd. rewrite rev_app_distr. cbn [rev app trimStart].
  destruct (isWhiteSpace c); [reflexivity|].
  cbn [rev]. rewrite rev_involutive. reflexivity.
Qed.

Lemma trimStart_blank_app (a s : jsstring) :
  blank a -> trimStart (a ++ s) = trimStart s.
Proof.
  unfold blank. induction a as [|c r IH]; intro H; [reflexivity|].
  cbn [forallb] in H. apply andb_true_iff in H. destruct H as [Hc Hr].
  cbn [app trimStart]. rewrite Hc. auto.
Qed.

Lemma trimEnd_app_blank (s b : jsstring) :
  blank b -> trimEnd (s ++ b) = trimEnd s.
Proof.
  unfold blank. revert s. induction b as [|c r IH]; intros s H.
  - rewrite app_nil_r. reflexivity.
  - cbn [forallb] in H. apply andb_true_iff in H. destruct H as [Hc Hr].
    change (s ++ c :: r) with (s ++ [c] ++ r). rewrite app_assoc, IH by exact Hr.
    rewrite trimEnd_snoc, Hc. reflexivity.
Qed.

(** A string is its trimmed part between two blank ends. *)
Lemma trimStart_split (s : jsstring) :
  exists a, blank a /\ s = a ++ trimStart s.
Proof.
  induction s as [|c r [a [Ha Hr]]].
  - exists []. split; reflexivity.
  - cbn [trimStart]. destruct (isWhiteSpace c) eqn:Ec.
    + exists (c :: a). split.
      * unfold blank in *. cbn [forallb]. rewrite Ec, Ha. reflexivity.
      * cbn [app]. congruence.
    + exists []. split; reflexivity.
Qed.

Lemma trimEnd_split (s : jsstring) :
  exists b, blank b /\ s = trimEnd s ++ b.
Proof.
  induction s as [|c r [b [Hb Hr]]] using rev_ind.
  - exists []. split; reflexivity.
  - rewrite trimEnd_snoc. destruct (isWhiteSpace c) eqn:Ec.
    + exists (b ++ [c]). split.
      * unfold blank in *. rewrite forallb_app, Hb. cbn [forallb]. rewrite Ec. reflexivity.
      * rewrite app_assoc. congruence.
    + exists []. split; [reflexivity|]. rewrite app_nil_r. reflexivity.
Qed.

Lemma trim_split (s : jsstring) :
  exists a b, blank a /\ blank b /\ s = a ++ trim s ++ b.
Proof.
  destruct (trimStart_split s) as [a [Ha Hs]].
  destruct (trimEnd_split (trimStart s)) as [b [Hb Ht]].
  exists a, b. unfold trim. repeat split; try assumption.
  transitivity (a ++ trimStart s); [exact Hs|]. f_equal. exact Ht.
Qed.

Lemma trimStart_idem (s : jsstring) : trimStart (trimStart s) = trimStart s.
Proof.
  induction s as [|c r IH]; [reflexivity|]. cbn [trimStart].
  destruct (isWhiteSpace c) eqn:Ec; [exact IH|]. cbn [trimStart]. rewrite Ec. reflexivity.
Qed.

Lemma trimEnd_idem (s : jsstring) : trimEnd (trimEnd s) = trimEnd s.
Proof.
  unfold trimEnd. rewrite rev_involutive, trimStart_idem. reflexivity.
Qed.

(** Trimming the end keeps a string that starts with a visible character
    starting with it. *)
Lemma trimStart_trimEnd (s : jsstring) :
  trimStart s = s -> trimStart (trimEnd s) = trimEnd s.
Proof.
  induction s as [|c r IH] using rev_ind; intro H; [reflexivity|].
  rewrite trimEnd_snoc. destruct (isWhiteSpace c) eqn:Ec; [|exact H].
  destruct r as [|d r'].
  - reflexivity.
  - apply IH. cbn [app trimStart] in H. cbn [trimStart].
    destruct (isWhiteSpace d) eqn:Ed; [|reflexivity].
    exfalso.
    assert (List.length (trimStart (r' ++ [c])) <= List.length (r' ++ [c])) as Hl.
    { clear. induction (r' ++ [c]) as [|x l IHl]; [reflexivity|].
      cbn [trimStart]. destruct (isWhiteSpace x); cbn [List.length]; lia. }
    rewrite H in Hl. cbn [List.length] in Hl. rewrite !length_app in Hl.
    cbn [List.length] in Hl. lia.
Qed.

Lemma trim_idem (s : jsstring) : trim (trim s) = trim s.
Proof.
  unfold trim.
  rewrite (trimStart_trimEnd (trimStart s)) by apply trimStart_idem.
  apply trimEnd_idem.
Qed.

Lemma trim_blank_l (a s : jsstring) : blank a -> trim (a ++ s) = trim s.
Proof. intro H. unfold trim. rewrite trimStart_blank_app by exact H. reflexivity. Qed.

Lemma trimStart_app_visible (s b : jsstring) :
  trimStart s <> [] -> trimStart (s ++ b) = trimStart s ++ b.
Proof.
  induction s as [|c r IH]; intro H; [exfalso; apply H; reflexivity|].
  cbn [app trimStart] in *. destruct (isWhiteSpace c); [auto|reflexivity].
Qed.

Lemma trimStart_nil_blank (s : jsstring) : trimStart s = [] -> blank s.
Proof.
  unfold blank. induction s as [|c r IH]; intro H; [reflexivity|].
  cbn [trimStart forallb] in *. destruct (isWhiteSpace c); [auto|discriminate].
Qed.

Lemma blank_app (a b : jsstring) : blank a -> blank b -> blank (a ++ b).
Proof. unfold blank. intros Ha Hb. rewrite forallb_app, Ha, Hb. reflexivity. Qed.

Lemma trimStart_blank (s : jsstring) : blank s -> trimStart s = [].
Proof.
  intro H. rewrite <- (app_nil_r s), trimStart_blank_app by exact H. reflexivity.
Qed.

Lemma trim_blank_r (s b : jsstring) : blank b -> trim (s ++ b) = trim s.
Proof.
  intro H. unfold trim.
  destruct (trimStart s) as [|c r] eqn:Es.
  - rewrite trimStart_blank; [reflexivity|].
    apply blank_app; [|exact H]. apply trimStart_nil_blank. exact Es.
  - rewrite trimStart_app_visible by congruence.
    rewrite Es. apply trimEnd_app_blank. exact H.
Qed.

Lemma trim_incl (s : jsstring) (c : cu) : In c (trim s) -> In c s.
Proof.
  destruct (trim_split s) as (a & b & _ & _ & Hs). intro H.
  rewrite Hs. apply in_or_app. right. apply in_or_app. left. exact H.
Qed.

Lemma blank_no_comma (a : jsstring) : blank a -> ~ In 44%N a.
Proof.
  unfold blank. intros H Hin.
  rewrite forallb_forall in H. specialize (H _ Hin). discriminate.
Qed.

Lemma stripWs_blank (a : jsstring) : blank a -> stripWs a = [].
Proof.
  unfold blank, stripWs. induction a as [|c r IH]; intro H; [reflexivity|].
  cbn [forallb filter] in *. apply andb_true_iff in H. destruct H as [-> Hr].
  cbn [negb]. auto.
Qed.

Lemma stripWs_trim (s : jsstring) : stripWs (trim s) = stripWs s.
Proof.
  destruct (trim_split s) as (a & b & Ha & Hb & Hs).
  rewrite Hs at 2. unfold stripWs in *. rewrite !filter_app.
  fold (stripWs a). fold (stripWs b).
  rewrite (stripWs_blank _ Ha), (stripWs_blank _ Hb), app_nil_r. reflexivity.
Qed.

Lemma stripWs_nil_blank (s : jsstring) : stripWs s = [] -> blank s.
Proof.
  unfold blank, stripWs. induction s as [|c r IH]; intro H; [reflexivity|].
  cbn [filter forallb] in *. destruct (isWhiteSpace c); cbn [negb] in H; [auto|discriminate].
Qed.

(** A string with a visible character keeps one when white space goes. *)
Lemma trim_visible (s : jsstring) : trim s <> [] -> stripWs s <> [].
Proof.
  intros H Hn. apply H. apply stripWs_nil_blank in Hn.
  unfold trim. rewrite (trimStart_blank _ Hn). reflexivity.
Qed.

(** *** [splitCsv] *)

Lemma splitCsv_token (s : option jsstring) (t : jsstring) :
  In t (splitCsv s) -> t <> [] /\ trim t = t /\ ~ In 44%N t /\ stripWs t <> [].
Proof.
  unfold splitCsv. intro H. apply filter_In in H. destruct H as [H Ht].
  apply in_map_iff in H. destruct H as (x & <- & Hx).
  assert (trim x <> []) as Hne by (destruct (trim x); [discriminate|congruence]).
  repeat split.
  - exact Hne.
  - apply trim_idem.
  - intro Hin. apply trim_incl in Hin. exact (split_no_sep _ _ _ Hx Hin).
  - rewrite stripWs_trim. apply trim_visible. exact Hne.
Qed.

Lemma map_trim_split_blank_l (a m : jsstring) :
  blank a -> map trim (split 44%N (a ++ m)) = map trim (split 44%N m).
Proof.
  intro Ha. rewrite split_app_l by (apply blank_no_comma; exact Ha).
  pose proof (split_not_nil 44%N m).
  destruct (split 44%N m) as [|h t]; [congruence|].
  cbn [map]. rewrite trim_blank_l by exact Ha. reflexivity.
Qed.

Lemma map_trim_split_blank_r (m b : jsstring) :
  blank b -> map trim (split 44%N (m ++ b)) = map trim (split 44%N m).
Proof.
  intro Hb. rewrite split_app_r by (apply blank_no_comma; exact Hb).
  pose proof (split_not_nil 44%N m) as Hn.
  rewrite (app_removelast_last [] Hn) at 3.
  rewrite !map_app. cbn [map]. rewrite trim_blank_r by exact Hb. reflexivity.
Qed.

(** Trimming the whole list first does not change its tokens. *)
Lemma splitCsv_trim (s : jsstring) : splitCsv (Some (trim s)) = splitCsv (Some s).
Proof.
  unfold splitCsv.
  destruct (trim_split s) as (a & b & Ha & Hb & Hs).
  rewrite Hs at 2.
  rewrite map_trim_split_blank_l by exact Ha.
  rewrite map_trim_split_blank_r by exact Hb. reflexivity.
Qed.

Lemma filter_id {A} (p : A -> bool) (l : list A) :
  (forall x, In x l -> p x = true) -> filter p l = l.
Proof.
  induction l as [|x r IH]; intro H; [reflexivity|]. cbn [filter].
  rewrite (H x (or_introl eq_refl)), IH; [reflexivity|].
  intros y Hy. apply H. right. exact Hy.
Qed.

Lemma map_id' {A} (f : A -> A) (l : list A) :
  (forall x, In x l -> f x = x) -> map f l = l.
Proof.
  induction l as [|x r IH]; intro H; [reflexivity|]. cbn [map].
  rewrite (H x (or_introl eq_refl)), IH; [reflexivity|].
  intros y Hy. apply H. right. exact Hy.
Qed.

(** Reading back a printed list of clean tokens. *)
Lemma splitCsv_join (l : list jsstring) :
  (forall t, In t l -> t <> [] /\ trim t = t /\ ~ In 44%N t) ->
  splitCsv (Some (join [44%N] l)) = l.
Proof.
  intro H. unfold splitCsv. destruct l as [|x r]; [reflexivity|].
  rewrite split_join; [|discriminate|intros t Ht; apply H; exact Ht].
  rewrite map_id' by (intros t Ht; apply H; exact Ht).
  apply filter_id. intros t Ht. destruct (H t Ht) as [Hne _].
  destruct t; [congruence|reflexivity].
Qed.

(** *** [Array.from(new Set(arr))] *)

Lemma uniqFrom_In (seen l : list jsstring) (x : jsstring) :
  In x (uniqFrom seen l) <-> In x l /\ ~ In x seen.
Proof.
  revert seen. induction l as [|y r IH]; intro seen; cbn [uniqFrom].
  - cbn [In]. tauto.
  - destruct (mem y seen) eqn:Em.
    + rewrite IH. apply InspectionsListFacts.mem_In in Em. cbn [In].
      split; [tauto|]. intros [[->|H] Hn]; [contradiction|tauto].
    + assert (~ In y seen) as Hy.
      { intro Hin. apply InspectionsListFacts.mem_In in Hin. congruence. }
      cbn [In]. rewrite IH. cbn [In].
      split.
      * intros [->|[H Hn]]; [tauto|]. split; [tauto|]. intro. apply Hn. tauto.
      * intros [[->|H] Hn]; [tauto|].
        destruct (list_eq_dec N.eq_dec y x) as [->|Hd]; [tauto|].
        right. split; [exact H|]. intros [?|?]; tauto.
Qed.

Lemma uniqFrom_NoDup (seen l : list jsstring) : NoDup (uniqFrom seen l).
Proof.
  revert seen. induction l as [|y r IH]; intro seen; cbn [uniqFrom]; [constructor|].
  destruct (mem y seen); [apply IH|].
  constructor; [|apply IH].
  rewrite uniqFrom_In. cbn [In]. tauto.
Qed.

Lemma uniqFrom_fixed (seen l : list jsstring) :
  NoDup l -> (forall x, In x l -> ~ In x seen) -> uniqFrom seen l = l.
Proof.
  revert seen. induction l as [|y r IH]; intros seen Hnd Hs; [reflexivity|].
  cbn [uniqFrom]. inversion Hnd as [|? ? Hy Hr]; subst.
  destruct (mem y seen) eqn:Em.
  - apply InspectionsListFacts.mem_In in Em. exfalso. exact (Hs y (or_introl eq_refl) Em).
  - f_equal. apply IH; [exact Hr|].
    intros x Hx [<-|Hin]; [contradiction|]. exact (Hs x (or_intror Hx) Hin).
Qed.

Lemma uniq_In (l : list jsstring) (x : jsstring) : In x (uniq l) <-> In x l.
Proof. unfold uniq. rewrite uniqFrom_In. cbn [In]. tauto. Qed.

Lemma uniq_NoDup (l : list jsstring) : NoDup (uniq l).
Proof. apply uniqFrom_NoDup. Qed.

Lemma uniq_fixed (l : list jsstring) : NoDup l -> uniq l = l.
Proof. intro H. apply uniqFrom_fixed; [exact H|]. intros x _ []. Qed.

Lemma uniq_idem (l : list jsstring) : uniq (uniq l) = uniq l.
Proof. apply uniq_fixed, uniq_NoDup. Qed.

(** *** [normalizeUgPhone] on tokens *)

Lemma canonical_noWs (s : jsstring) : ugReCanonical s = true -> noWs s.
Proof.
  unfold ugReCanonical. intro H. apply JsFacts.prefixThenDigits_spec in H.
  destruct H as (ds & -> & _ & Hd).
  apply JsFacts.noWs_app; [reflexivity|]. apply JsFacts.digits_noWs. exact Hd.
Qed.

Lemma normalize_canonical (s : jsstring) :
  ugReCanonical s = true -> normalizeUgPhone s = s.
Proof.
  intro H. unfold normalizeUgPhone.
  rewrite (JsFacts.stripWs_id (canonical_noWs _ H)), H. reflexivity.
Qed.

(** The normal form is canonical, or the token is none of the three forms
    and only loses its white space. *)
Lemma normalize_cases (p : jsstring) :
  ugReCanonical (normalizeUgPhone p) = true \/
  (ugReCanonical (stripWs p) = false /\ ugReBare (stripWs p) = false /\
   ugReLocal (stripWs p) = false /\ normalizeUgPhone p = stripWs p).
Proof.
  unfold normalizeUgPhone.
  destruct (ugReCanonical (stripWs p)) eqn:Ec; [left; exact Ec|].
  destruct (ugReBare (stripWs p)) eqn:Eb.
  - left. apply PhoneFacts.canonical_of_bare. exact Eb.
  - destruct (ugReLocal (stripWs p)) eqn:El.
    + left. apply PhoneFacts.canonical_of_local. exact El.
    + right. repeat split.
Qed.

Lemma normalize_again (p : jsstring) :
  normalizeUgPhone (normalizeUgPhone p) = normalizeUgPhone p.
Proof.
  destruct (normalize_cases p) as [H|(Hc & Hb & Hl & ->)].
  - apply normalize_canonical. exact H.
  - unfold normalizeUgPhone. rewrite JsFacts.stripWs_idem, Hc, Hb, Hl. reflexivity.
Qed.

Lemma stripWs_incl (s : jsstring) (c : cu) : In c (stripWs s) -> In c s.
Proof. unfold stripWs. intro H. apply filter_In in H. tauto. Qed.

Lemma normalize_no_comma (p : jsstring) :
  ~ In 44%N p -> ~ In 44%N (normalizeUgPhone p).
Proof.
  intros H Hin. unfold normalizeUgPhone in Hin.
  assert (~ In 44%N (stripWs p)) as Hs by (intro X; apply H; exact (stripWs_incl _ _ X)).
  destruct (ugReCanonical (stripWs p)); [contradiction|].
  destruct (ugReBare (stripWs p)).
  - cbn in Hin. destruct Hin as [Hin|Hin]; [discriminate|contradiction].
  - destruct (ugReLocal (stripWs p)); [|contradiction].
    apply in_app_or in Hin. destruct Hin as [Hin|Hin].
    + cbn in Hin. repeat (destruct Hin as [Hin|Hin]; [discriminate|]). contradiction.
    + unfold slice1 in Hin. apply Hs. destruct (stripWs p); [exact Hin|right; exact Hin].
Qed.

Lemma normalize_visible (p : jsstring) :
  stripWs p <> [] -> normalizeUgPhone p <> [].
Proof.
  intro H. unfold normalizeUgPhone.
  destruct (ugReCanonical (stripWs p)); [exact H|].
  destruct (ugReBare (stripWs p)); [discriminate|].
  destruct (ugReLocal (stripWs p)); [discriminate|exact H].
Qed.

(** The normal form of a token of [splitCsv] is again a clean token. *)
Lemma normalize_token (s : option jsstring) (t : jsstring) :
  In t (splitCsv s) ->
  normalizeUgPhone t <> [] /\ trim (normalizeUgPhone t) = normalizeUgPhone t /\
  ~ In 44%N (normalizeUgPhone t).
Proof.
  intro H. destruct (splitCsv_token _ _ H) as (_ & _ & Hc & Hv).
  repeat split.
  - apply normalize_visible. exact Hv.
  - apply JsFacts.trim_noWs, PhoneFacts.normalize_noWs.
  - apply normalize_no_comma. exact Hc.
Qed.

Lemma noWs_join (l : list jsstring) :
  (forall t, In t l -> noWs t) -> noWs (join [44%N] l).
Proof.
  induction l as [|x r IH]; intro H; [reflexivity|].
  destruct r as [|y r'].
  - cbn [join]. apply H. left. reflexivity.
  - change (join [44%N] (x :: y :: r')) with (x ++ [44%N] ++ join [44%N] (y :: r')).
    apply JsFacts.noWs_app; [apply H; left; reflexivity|].
    apply JsFacts.noWs_app; [reflexivity|].
    apply IH. intros t Ht. apply H. right. exact Ht.
Qed.

End CsvFacts.

Module PhoneListSpec.
Import Js Phone Csv CsvFacts NewInspection.

Lemma cleanedPhone_splitCsv (p : jsstring) :
  SmsRoute.cleanedPhone p = join [44%N] (splitCsv (Some p)).
Proof. reflexivity. Qed.

Lemma normalized_tokens (s : option jsstring) (t : jsstring) :
  In t (uniq (map normalizeUgPhone (splitCsv s))) ->
  cleanToken t /\ noWs t /\ normalizeUgPhone t = t.
Proof.
  intro H. apply (proj1 (uniq_In _ _)) in H. apply in_map_iff in H.
  destruct H as (x & <- & Hx).
  split; [exact (normalize_token _ _ Hx)|].
  split; [apply PhoneFacts.normalize_noWs|apply normalize_again].
Qed.

Lemma splitCsv_uniqueCsv_normalized (s : option jsstring) :
  splitCsv (Some (uniqueCsv (map normalizeUgPhone (splitCsv s)))) =
  uniq (map normalizeUgPhone (splitCsv s)).
Proof.
  unfold uniqueCsv. apply splitCsv_join.
  intros t Ht. exact (proj1 (normalized_tokens _ _ Ht)).
Qed.

(** The filter after the normalisation drops nothing: a token of
    [splitCsv] has a visible character and keeps it. *)
Lemma filter_normalized (s : option jsstring) :
  filter truthy (map normalizeUgPhone (splitCsv s)) = map normalizeUgPhone (splitCsv s).
Proof.
  apply filter_id. intros t Ht. apply in_map_iff in Ht.
  destruct Ht as (x & <- & Hx).
  destruct (normalize_token _ _ Hx) as [Hne _].
  destruct (normalizeUgPhone x); [congruence|reflexivity].
Qed.

(** X1: [splitCsv] gives clean tokens, and reads back what [join(',')] and
    [uniqueCsv] print: every token is non-empty, trimmed and free of commas;
    a missing or empty list has no token; a printed list of clean tokens is
    read back as it was; the list printed by [uniqueCsv] is read back
    without its duplicates, in the order of first occurrence. *)
Theorem splitCsv_reads_back :
  (forall s t, In t (splitCsv s) -> cleanToken t) /\
  (splitCsv None = [] /\ splitCsv (Some []) = []) /\
  (forall l, (forall t, In t l -> cleanToken t) ->
             splitCsv (Some (join [44%N] l)) = l) /\
  (forall s, splitCsv (Some (uniqueCsv (splitCsv s))) = uniq (splitCsv s)) /\
  (forall l, NoDup (uniq l) /\ (forall x, In x (uniq l) <-> In x l) /\
             (NoDup l -> uniq l = l)).
Proof.
  repeat apply conj.
  - intros s t H. destruct (splitCsv_token _ _ H) as (H1 & H2 & H3 & _).
    repeat split; assumption.
  - reflexivity.
  - reflexivity.
  - intros l H. apply splitCsv_join. exact H.
  - intro s. unfold uniqueCsv. apply splitCsv_join.
    intros t Ht. apply (proj1 (uniq_In _ _)) in Ht.
    destruct (splitCsv_token _ _ Ht) as (H1 & H2 & H3 & _). repeat split; assumption.
  - intro l. split; [apply uniq_NoDup|]. split; [apply uniq_In|apply uniq_fixed].
Qed.

Lemma accepted_canonical (t : jsstring) :
  ugReAccepted (normalizeUgPhone t) = ugReCanonical (normalizeUgPhone t).
Proof.
  unfold ugReAccepted. fold (ugReCanonical (normalizeUgPhone t)).
  fold (ugReBare (normalizeUgPhone t)). fold (ugReLocal (normalizeUgPhone t)).
  destruct (normalize_cases t) as [->|(Hc & Hb & Hl & ->)]; [reflexivity|].
  rewrite Hc, Hb, Hl. reflexivity.
Qed.

Lemma firstInvalid_None (l : list jsstring) :
  firstInvalid l = None <->
  forall t, In t l -> ugReCanonical (normalizeUgPhone t) = true.
Proof.
  induction l as [|x r IH]; cbn [firstInvalid].
  - split; [intros _ t []|reflexivity].
  - rewrite accepted_canonical.
    destruct (ugReCanonical (normalizeUgPhone x)) eqn:Ex; cbn [negb].
    + rewrite IH. split.
      * intros H t [<-|Ht]; auto.
      * intros H t Ht. apply H. right. exact Ht.
    + split; [discriminate|]. intro H. specialize (H x (or_introl eq_refl)). congruence.
Qed.

Lemma firstInvalid_Some (l : list jsstring) (t : jsstring) :
  firstInvalid l = Some t ->
  In t l /\ ugReCanonical (normalizeUgPhone t) = false.
Proof.
  induction l as [|x r IH]; cbn [firstInvalid]; intro H; [discriminate|].
  rewrite accepted_canonical in H.
  destruct (ugReCanonical (normalizeUgPhone x)) eqn:Ex; cbn [negb] in H.
  - destruct (IH H). split; [right|]; assumption.
  - injection H as <-. split; [left; reflexivity|exact Ex].
Qed.

Lemma validatePhones_None (raw : jsstring) :
  validatePhones raw = None <->
  splitCsv (Some raw) <> [] /\
  forall t, In t (splitCsv (Some raw)) -> ugReCanonical (normalizeUgPhone t) = true.
Proof.
  unfold validatePhones.
  destruct (splitCsv (Some raw)) as [|x r] eqn:Es.
  - split; [discriminate|]. intros [H _]. congruence.
  - rewrite <- firstInvalid_None. destruct (firstInvalid (x :: r)).
    + split; [discriminate|]. intros [_ H]. discriminate.
    + split; [|reflexivity]. intros _. split; [discriminate|reflexivity].
Qed.

(** X2: [validatePhones] accepts a list exactly when it has a token and
    every token has the canonical normal form [+2567] and eight digits; an
    empty list and an offending token are reported by their messages. *)
Theorem validatePhones_accepts :
  (forall raw,
      validatePhones raw = None <->
      splitCsv (Some raw) <> [] /\
      forall t, In t (splitCsv (Some raw)) ->
                ugReCanonical (normalizeUgPhone t) = true) /\
  (forall raw,
      splitCsv (Some raw) = [] ->
      validatePhones raw = Some (lit "Enter at least one phone number")) /\
  (forall raw msg,
      validatePhones raw = Some msg ->
      splitCsv (Some raw) <> [] ->
      exists t,
        In t (splitCsv (Some raw)) /\
        ugReCanonical (normalizeUgPhone t) = false /\
        msg = lit "Invalid phone: " ++ t).
Proof.
  repeat apply conj.
  - exact validatePhones_None.
  - intros raw H. unfold validatePhones. rewrite H. reflexivity.
  - intros raw msg H Hne. unfold validatePhones in H.
    destruct (splitCsv (Some raw)) as [|x r] eqn:Es; [congruence|].
    destruct (firstInvalid (x :: r)) as [t|] eqn:Ef; [|discriminate].
    injection H as <-. destruct (firstInvalid_Some _ _ Ef). exists t. auto.
Qed.

Lemma recipients_noWs (s : jsstring) : noWs (recipients s).
Proof.
  unfold recipients, uniqueCsv. apply noWs_join.
  intros t Ht. exact (proj1 (proj2 (normalized_tokens _ _ Ht))).
Qed.

Lemma recipients_cleaned (s : jsstring) :
  SmsRoute.cleanedPhone (recipients s) = recipients s.
Proof.
  rewrite cleanedPhone_splitCsv. unfold recipients at 1.
  rewrite splitCsv_uniqueCsv_normalized. reflexivity.
Qed.

Lemma splitCsv_orEmpty (o : option jsstring) :
  splitCsv o = splitCsv (Some (SmsRoute.orEmpty o)).
Proof. destruct o; reflexivity. Qed.

Lemma list_recipients (m : InspectionsList.MetaBlock) :
  InspectionsList.collectOwnerPhones m =
  recipients (SmsRoute.orEmpty (InspectionsList.drugshopContactPhones m)).
Proof.
  unfold InspectionsList.collectOwnerPhones, recipients.
  rewrite filter_normalized, splitCsv_orEmpty. reflexivity.
Qed.

Lemma detail_recipients (it : InspectionDetail.Inspection) :
  InspectionDetail.collectOwnerPhones it None =
  recipients (SmsRoute.orEmpty
                (InspectionDetail.drugshopContactPhones (InspectionDetail.metaOf it))).
Proof.
  unfold InspectionDetail.collectOwnerPhones, recipients.
  rewrite app_nil_r, filter_normalized, splitCsv_orEmpty. reflexivity.
Qed.

(** X3: the recipients [sendSms] posts are in normal form: read back, they
    are the distinct normal forms of the tokens, each one unchanged by
    [normalizeUgPhone]; the list holds no white space; building the
    recipients of the list again, and the relay's own cleaning, change
    nothing. *)
Theorem recipients_normal_form (s : jsstring) :
  splitCsv (Some (recipients s)) = uniq (map normalizeUgPhone (splitCsv (Some s))) /\
  NoDup (splitCsv (Some (recipients s))) /\
  (forall t, In t (splitCsv (Some (recipients s))) -> normalizeUgPhone t = t) /\
  noWs (recipients s) /\
  recipients (recipients s) = recipients s /\
  SmsRoute.cleanedPhone (recipients s) = recipients s.
Proof.
  pose proof (splitCsv_uniqueCsv_normalized (Some s)) as Hr.
  fold (recipients s) in Hr.
  repeat apply conj.
  - exact Hr.
  - rewrite Hr. apply uniq_NoDup.
  - rewrite Hr. intros t Ht. exact (proj2 (proj2 (normalized_tokens _ _ Ht))).
  - apply recipients_noWs.
  - unfold recipients at 1. rewrite Hr.
    rewrite map_id' by (intros t Ht; exact (proj2 (proj2 (normalized_tokens _ _ Ht)))).
    unfold uniqueCsv. rewrite uniq_idem. reflexivity.
  - apply recipients_cleaned.
Qed.

(** X4: the three pages address the same recipients: [collectOwnerPhones]
    of the list page and of the detail page (without an extra phone) give
    what [sendSms] of the form page makes of the stored contact phones. *)
Theorem collectOwnerPhones_recipients :
  (forall m,
      InspectionsList.collectOwnerPhones m =
      recipients (SmsRoute.orEmpty (InspectionsList.drugshopContactPhones m))) /\
  (forall it,
      InspectionDetail.collectOwnerPhones it None =
      recipients (SmsRoute.orEmpty
                    (InspectionDetail.drugshopContactPhones (InspectionDetail.metaOf it)))) /\
  (forall m,
      SmsRoute.cleanedPhone (InspectionsList.collectOwnerPhones m) =
      InspectionsList.collectOwnerPhones m).
Proof.
  repeat apply conj.
  - exact list_recipients.
  - exact detail_recipients.
  - intro m. rewrite list_recipients. apply recipients_cleaned.
Qed.

(** X5: a contact list that [validatePhones] accepts yields recipients, and
    every one of them is a canonical number: [+2567] and eight digits. *)
Theorem validated_recipients_canonical (raw : jsstring) :
  validatePhones raw = None ->
  recipients (trim raw) <> [] /\
  forall t, In t (splitCsv (Some (recipients (trim raw)))) -> ugReCanonical t = true.
Proof.
  intro H. apply validatePhones_None in H. destruct H as [Hne Hall].
  pose proof (splitCsv_uniqueCsv_normalized (Some (trim raw))) as Hr.
  fold (recipients (trim raw)) in Hr. rewrite splitCsv_trim in Hr.
  split.
  - intro Hnil. rewrite Hnil in Hr.
    change (splitCsv (Some [])) with (@nil jsstring) in Hr.
    destruct (splitCsv (Some raw)) as [|x r]; [congruence|].
    assert (In (normalizeUgPhone x) (uniq (map normalizeUgPhone (x :: r)))) as Hin
        by (apply uniq_In; left; reflexivity).
    rewrite <- Hr in Hin. exact Hin.
  - rewrite Hr. intros t Ht. apply (proj1 (uniq_In _ _)) in Ht. apply in_map_iff in Ht.
    destruct Ht as (x & <- & Hx). apply Hall. exact Hx.
Qed.

End PhoneListSpec.

(* ------------------------------------------------------------------ *)
(** ** The relay and its callers                                        *)
(* ------------------------------------------------------------------ *)

Module RelayFacts.
Import Js Eff SmsRoute SmsClient.

Section Facts.
Variable Data : Type.
Variable emptyObject : Data.

(** The five ways a run of the route ends. *)
Lemma run_shape apiKey reqJson (fetchUp : UpstreamRequest -> Exn + UpstreamResponse Data) :
  (exists code msg,
      (code = 400%Z \/ code = 500%Z) /\
      run emptyObject apiKey reqJson fetchUp = ([], inr (failure code msg)))
  \/ (exists c key b rq,
        apiKey = Some (c :: key) /\ reqJson = inr b /\
        trim (orEmpty (phone b)) <> [] /\ trim (orEmpty (message b)) <> [] /\
        rq = {| up_phone := cleanedPhone (trim (orEmpty (phone b)));
                up_message := trim (orEmpty (message b));
                up_api_key := c :: key |} /\
        ((exists e, fetchUp rq = inl e /\
                    run emptyObject apiKey reqJson fetchUp =
                      ([Fetch rq], inr (failure 500 (messageOf e))))
         \/ (exists u, fetchUp rq = inr u /\
                       run emptyObject apiKey reqJson fetchUp =
                         ([Fetch rq],
                          inr {| status := up_status u;
                                 body := RelayBody (up_ok u) (up_status u)
                                           (match up_json u with
                                            | Some d => d
                                            | None => emptyObject
                                            end) |})))).
Proof.
  destruct apiKey as [[|c key]|].
  - left. exists 500%Z, (lit "Server is missing YOOLA_SMS_API_KEY."). split; [auto|].
    apply SmsRouteSpec.run_unconfigured. auto.
  - pose proof (@SmsRouteSpec.run_configured Data emptyObject c key reqJson fetchUp) as Hrun.
    destruct reqJson as [e|b].
    + left. exists 500%Z, (messageOf e). auto.
    + cbv zeta in Hrun.
      destruct (trim (orEmpty (phone b))) as [|p ps] eqn:Ep.
      * left. exists 400%Z, (lit "Phone is required."). auto.
      * destruct (trim (orEmpty (message b))) as [|m ms] eqn:Em.
        -- left. exists 400%Z, (lit "Message is required."). auto.
        -- right.
           exists c, key, b, {| up_phone := cleanedPhone (p :: ps);
                                up_message := m :: ms;
                                up_api_key := c :: key |}.
           rewrite Ep, Em.
           repeat (split; [first [reflexivity|discriminate]|]).
           destruct (fetchUp _) as [e|u] eqn:Ef.
           ++ left. exists e. split; [reflexivity|exact Hrun].
           ++ right. exists u. split; [reflexivity|exact Hrun].
  - left. exists 500%Z, (lit "Server is missing YOOLA_SMS_API_KEY."). split; [auto|].
    apply SmsRouteSpec.run_unconfigured. auto.
Qed.

(** The request the route relays for a page's [{ phone, message }]. *)
Lemma run_always_answers apiKey reqJson (fetchUp : UpstreamRequest -> Exn + UpstreamResponse Data) :
  exists resp, snd (run emptyObject apiKey reqJson fetchUp) = inr resp.
Proof.
  destruct (run_shape apiKey reqJson fetchUp)
    as [(code & msg & _ & ->)|(c & key & b & rq & _ & _ & _ & _ & _ & [(e & _ & ->)|(u & _ & ->)])];
    eexists; reflexivity.
Qed.

(** X6: the body and the status of the route's answer agree.  An error body
    comes with status 400 or 500; a relay body carries the status of the
    answer, which is the provider's, and its [ok] flag says whether that
    status is in 200-299; so an answer with a status in 200-299 is a relay
    body with [ok] set, and the provider was asked exactly once. *)
Theorem relay_status_agrees apiKey reqJson
    (fetchUp : UpstreamRequest -> Exn + UpstreamResponse Data) :
  exists resp,
    snd (run emptyObject apiKey reqJson fetchUp) = inr resp /\
    match body resp with
    | ErrorBody _ => status resp = 400%Z \/ status resp = 500%Z
    | RelayBody ok st _ =>
        st = status resp /\
        ok = ((200 <=? st) && (st <=? 299))%Z /\
        exists rq u,
          fst (run emptyObject apiKey reqJson fetchUp) = [Fetch rq] /\
          fetchUp rq = inr u /\ up_status u = st
    end /\
    ((200 <= status resp <= 299)%Z ->
     exists d, body resp = RelayBody true (status resp) d).
Proof.
  destruct (run_shape apiKey reqJson fetchUp)
    as [(code & msg & Hc & ->)|(c & key & b & rq & _ & _ & _ & _ & _ & [(e & _ & ->)|(u & Hu & ->)])].
  - exists (failure code msg). split; [reflexivity|]. cbn. split; [exact Hc|]. lia.
  - exists (failure 500 (messageOf e)). split; [reflexivity|]. cbn. split; [auto|]. lia.
  - eexists. split; [reflexivity|]. cbn [body status fst]. split.
    + split; [reflexivity|]. split; [reflexivity|]. exists rq, u. auto.
    + intros [H1 H2]. eexists. unfold up_ok.
      replace (200 <=? up_status u)%Z with true by (symmetry; apply Z.leb_le; exact H1).
      replace (up_status u <=? 299)%Z with true by (symmetry; apply Z.leb_le; exact H2).
      reflexivity.
Qed.

Variable bodyText : Body Data -> jsstring.

(** What the helper [sendSms] returns when the route serves it. *)
Lemma sendSms_served apiKey fetchUp to msg :
  match sendSms None (served emptyObject bodyText apiKey fetchUp) to msg with
  | inr j =>
      exists c key u,
        apiKey = Some (c :: key) /\
        fetchUp {| up_phone := cleanedPhone (trim to);
                   up_message := trim msg;
                   up_api_key := c :: key |} = inr u /\
        up_ok u = true /\
        j = Some (RelayBody true (up_status u)
                    (match up_json u with Some d => d | None => emptyObject end))
  | inl e =>
      exists resp,
        snd (routeRun emptyObject apiKey fetchUp to msg) = inr resp /\
        ((200 <=? status resp) && (status resp <=? 299))%Z = false /\
        e = Some (lit "SMS failed (" ++ toString (status resp) ++ lit "): "
                  ++ (if truthy (bodyText (body resp)) then bodyText (body resp)
                      else lit "Unknown error"))
  end.
Proof.
  unfold sendSms, served, routeRun, jsonOrEmpty.
  destruct (run_shape apiKey (inr (payload to msg)) fetchUp)
    as [(code & msg' & Hc & ->)|(c & key & b & rq & -> & Hb & _ & _ & -> & [(e & _ & ->)|(u & Hu & ->)])].
  - cbn [snd a_ok a_status a_text negb status failure body].
    assert (((200 <=? code) && (code <=? 299))%Z = false) as Hk
        by (destruct Hc as [->| ->]; reflexivity).
    unfold a_ok. cbn [a_status]. rewrite Hk. cbn [negb].
    eexists. split; [reflexivity|]. split; [exact Hk|reflexivity].
  - unfold a_ok. cbn [snd a_status a_text negb status failure body].
    change ((200 <=? 500) && (500 <=? 299))%Z with false. cbn [negb].
    eexists. split; [reflexivity|]. split; reflexivity.
  - injection Hb as <-. cbn [payload phone message orEmpty] in *.
    unfold a_ok. cbn [snd a_status a_text a_json status body].
    fold (up_ok u).
    destruct (up_ok u) eqn:Eok; cbn [negb].
    + exists c, key, u. auto.
    + eexists. split; [reflexivity|]. split; [exact Eok|reflexivity].
Qed.

(** X7: [sendSms] served by the route returns only when the provider has
    answered the relayed request with a status in 200-299; the request
    carries the cleaned recipients, the trimmed message and the server's
    key.  In every other case it throws ["SMS failed (status): text"] with
    the status and the body text of the route's answer. *)
Theorem sendSms_needs_provider apiKey fetchUp to msg :
  (forall j,
      sendSms None (served emptyObject bodyText apiKey fetchUp) to msg = inr j ->
      exists c key u,
        apiKey = Some (c :: key) /\
        fetchUp {| up_phone := cleanedPhone (trim to);
                   up_message := trim msg;
                   up_api_key := c :: key |} = inr u /\
        (200 <= up_status u <= 299)%Z /\
        j = Some (RelayBody true (up_status u)
                    (match up_json u with Some d => d | None => emptyObject end))) /\
  (forall e,
      sendSms None (served emptyObject bodyText apiKey fetchUp) to msg = inl e ->
      exists resp,
        snd (routeRun emptyObject apiKey fetchUp to msg) = inr resp /\
        ~ (200 <= status resp <= 299)%Z /\
        e = Some (lit "SMS failed (" ++ toString (status resp) ++ lit "): "
                  ++ (if truthy (bodyText (body resp)) then bodyText (body resp)
                      else lit "Unknown error"))).
Proof.
  pose proof (sendSms_served apiKey fetchUp to msg) as H.
  split.
  - intros j Hj. rewrite Hj in H. destruct H as (c & key & u & Hk & Hu & Hok & ->).
    exists c, key, u. repeat split; try assumption.
    + unfold up_ok in Hok. apply andb_true_iff in Hok. apply Z.leb_le. tauto.
    + unfold up_ok in Hok. apply andb_true_iff in Hok. apply Z.leb_le. tauto.
  - intros e He. rewrite He in H. destruct H as (resp & Hr & Hs & ->).
    exists resp. repeat split; try assumption.
    intros [H1 H2]. apply Z.leb_le in H1. apply Z.leb_le in H2.
    rewrite H1, H2 in Hs. discriminate.
Qed.

End Facts.
End RelayFacts.

Module SmsPageSpec.
Import Js Eff SmsRoute SmsClient SmsPage.

Local Ltac conjs := repeat match goal with |- _ /\ _ => split end.

Section Facts.
Variable Data : Type.
Variable emptyObject : Data.
Variable bodyText : Body Data -> jsstring.

(** X8: the SMS page behind the route.  A submission always ends with the
    spinner off and without an exception, and with exactly one of result
    and error set.  A result is shown only when the provider has answered
    the relayed request with a status in 200-299.  The route's own
    refusals are shown by their messages: the missing key, the blank phone,
    the blank message. *)
Theorem sms_page_outcome apiKey
    (fetchUp : UpstreamRequest -> Exn + UpstreamResponse Data) (st : State Data) :
  let r := onSubmit (served emptyObject bodyText apiKey fetchUp) st in
  loading (final r) = false /\
  outcome r = inr tt /\
  trace r = [Post (phone st) (message st)] /\
  (result (final r) = None <-> error (final r) <> None) /\
  (forall j,
      result (final r) = Some j ->
      exists c key u,
        apiKey = Some (c :: key) /\
        fetchUp {| up_phone := cleanedPhone (trim (phone st));
                   up_message := trim (message st);
                   up_api_key := c :: key |} = inr u /\
        (200 <= up_status u <= 299)%Z /\
        j = Some (RelayBody true (up_status u)
                    (match up_json u with Some d => d | None => emptyObject end))) /\
  (apiKey = None \/ apiKey = Some [] ->
   error (final r) = Some (lit "Server is missing YOOLA_SMS_API_KEY.")) /\
  (forall c key,
      apiKey = Some (c :: key) -> trim (phone st) = [] ->
      error (final r) = Some (lit "Phone is required.")) /\
  (forall c key,
      apiKey = Some (c :: key) -> trim (phone st) <> [] -> trim (message st) = [] ->
      error (final r) = Some (lit "Message is required.")).
Proof.
  cbv zeta.
  unfold onSubmit, bind, Eff.get, tryFinally, tryCatch, call, modify, final, trace, outcome.
  cbv beta. unfold served, routeRun.
  destruct (RelayFacts.run_shape Data emptyObject apiKey (inr (payload (phone st) (message st))) fetchUp)
    as [(code & msg & Hc & Hrun)|(c & key & b & rq & -> & Hb & Hp & Hm & -> & [(e & He & Hrun)|(u & Hu & Hrun)])].
  - pose proof Hrun as Hrun'. rewrite Hrun.
    unfold a_ok. cbn [snd fst a_status a_json status failure body app].
    assert (((200 <=? code) && (code <=? 299))%Z = false) as Hk
        by (destruct Hc as [->| ->]; reflexivity).
    rewrite Hk. cbn [negb fst snd app loading setLoading result error setError setResult].
    conjs; try reflexivity.
    + split; [discriminate|reflexivity].
    + discriminate.
    + intro Hkey. rewrite (@SmsRouteSpec.run_unconfigured Data emptyObject _ _ _ Hkey) in Hrun'.
      injection Hrun' as _ <-. reflexivity.
    + intros c key -> Hp.
      rewrite (@SmsRouteSpec.run_configured Data emptyObject c key _ fetchUp) in Hrun'.
      cbv zeta in Hrun'. cbn [payload SmsRoute.phone SmsRoute.message orEmpty] in Hrun'.
      rewrite Hp in Hrun'. injection Hrun' as _ <-. reflexivity.
    + intros c key -> Hp Hm.
      rewrite (@SmsRouteSpec.run_configured Data emptyObject c key _ fetchUp) in Hrun'.
      cbv zeta in Hrun'. cbn [payload SmsRoute.phone SmsRoute.message orEmpty] in Hrun'.
      rewrite Hm in Hrun'. destruct (trim (phone st)); [congruence|].
      injection Hrun' as _ <-. reflexivity.
  - injection Hb as <-. cbn [payload SmsRoute.phone SmsRoute.message orEmpty] in *.
    rewrite Hrun. unfold a_ok.
    cbn [snd fst a_status a_json status failure body app].
    change ((200 <=? 500) && (500 <=? 299))%Z with false.
    cbn [negb fst snd app loading setLoading result error setError setResult].
    conjs; try reflexivity.
    + split; [discriminate|reflexivity].
    + discriminate.
    + intros [?|?]; discriminate.
    + intros c' key' _ Hp'. congruence.
    + intros c' key' _ _ Hm'. congruence.
  - injection Hb as <-. cbn [payload SmsRoute.phone SmsRoute.message orEmpty] in *.
    rewrite Hrun. unfold a_ok.
    cbn [snd fst a_status a_json status body app]. fold (up_ok u).
    destruct (up_ok u) eqn:Eok;
      cbn [negb fst snd app loading setLoading result error setError setResult errorOr].
    + conjs; try reflexivity.
      * split; [discriminate|]. intro H. exfalso. apply H. reflexivity.
      * intros j [= <-]. exists c, key, u.
        unfold up_ok in Eok. apply andb_true_iff in Eok. destruct Eok as [H1 H2].
        apply Z.leb_le in H1. apply Z.leb_le in H2. auto.
      * intros [?|?]; discriminate.
      * intros c' key' _ Hp'. congruence.
      * intros c' key' _ _ Hm'. congruence.
    + conjs; try reflexivity.
      * split; [discriminate|reflexivity].
      * discriminate.
      * intros [?|?]; discriminate.
      * intros c' key' _ Hp'. congruence.
      * intros c' key' _ _ Hm'. congruence.
Qed.

End Facts.
End SmsPageSpec.

Module PagesOnRouteFacts.
Import Js Eff Csv CsvFacts SmsRoute SmsClient PagesOnRoute.

(** *** Messages are sent as they were built *)

Lemma trim_framed (c d : cu) (s : jsstring) :
  isWhiteSpace c = false -> isWhiteSpace d = false ->
  trim (c :: s ++ [d]) = c :: s ++ [d].
Proof.
  intros Hc Hd. unfold trim. cbn [trimStart]. rewrite Hc.
  change (c :: s ++ [d]) with ((c :: s) ++ [d]).
  rewrite trimEnd_snoc, Hd. reflexivity.
Qed.

Lemma ends_app (a b : jsstring) (d : cu) :
  (exists r, b = r ++ [d]) -> exists r, a ++ b = r ++ [d].
Proof. intros [r ->]. exists (a ++ r). apply app_assoc. Qed.

Lemma ends_lit_dot : exists r, lit "." = r ++ [46%N].
Proof. exists []. reflexivity. Qed.

Lemma trim_dear (s : jsstring) :
  (exists r, s = r ++ [46%N]) -> trim (lit "Dear " ++ s) = lit "Dear " ++ s.
Proof.
  intros [r ->].
  exact (trim_framed 68%N 46%N (lit "ear " ++ r) eq_refl eq_refl).
Qed.

Ltac ends_dot :=
  repeat first [exact ends_lit_dot | apply ends_app].

Lemma reminder_message_trimmed P it d :
  trim (InspectionsList.buildReminder100Message P it d) =
  InspectionsList.buildReminder100Message P it d.
Proof.
  unfold InspectionsList.buildReminder100Message. cbv zeta.
  apply trim_dear. ends_dot.
Qed.

Lemma inStore_message_trimmed fmt it :
  trim (InspectionDetail.buildInStoreMessage fmt it) =
  InspectionDetail.buildInStoreMessage fmt it.
Proof.
  unfold InspectionDetail.buildInStoreMessage. cbv zeta.
  apply trim_dear. ends_dot.
Qed.

Lemma release_message_trimmed fmt it f :
  trim (InspectionDetail.buildReleaseMessage fmt it f) =
  InspectionDetail.buildReleaseMessage fmt it f.
Proof.
  unfold InspectionDetail.buildReleaseMessage. cbv zeta.
  apply trim_dear.
  destruct (InspectionDetail.comment f) as [|c r].
  - rewrite app_nil_r. ends_dot.
  - ends_dot.
Qed.

(** *** Recipients *)

Lemma detail_recipients_noWs it extra :
  noWs (InspectionDetail.collectOwnerPhones it extra).
Proof.
  unfold InspectionDetail.collectOwnerPhones, Phone.uniqueCsv. cbv zeta.
  apply noWs_join. intros t Ht. apply (proj1 (uniq_In _ _)) in Ht.
  apply filter_In in Ht. destruct Ht as [Ht _].
  apply in_map_iff in Ht. destruct Ht as (x & <- & _).
  apply PhoneFacts.normalize_noWs.
Qed.

Lemma truthy_trim_noWs (s : jsstring) :
  noWs s -> truthy s = true -> trim s <> [].
Proof.
  intros H Ht. rewrite (JsFacts.trim_noWs H). destruct s; [discriminate|discriminate].
Qed.

Section Served.
Variable Data : Type.
Variable emptyObject : Data.
Variable bodyText : Body Data -> jsstring.

Lemma send_served_ok apiKey fetchUp to msg :
  send (served emptyObject bodyText apiKey fetchUp) to msg = inr tt ->
  exists c key u,
    apiKey = Some (c :: key) /\
    fetchUp {| up_phone := cleanedPhone (trim to);
               up_message := trim msg;
               up_api_key := c :: key |} = inr u /\
    (200 <= up_status u <= 299)%Z.
Proof.
  unfold send, discard. intro H.
  pose proof (RelayFacts.sendSms_served Data emptyObject bodyText apiKey fetchUp to msg) as Hs.
  destruct (sendSms None (served emptyObject bodyText apiKey fetchUp) to msg) as [e|j];
    [discriminate|].
  destruct Hs as (c & key & u & Hk & Hu & Hok & _).
  exists c, key, u. repeat split; try assumption.
  - unfold up_ok in Hok. apply andb_true_iff in Hok. apply Z.leb_le. tauto.
  - unfold up_ok in Hok. apply andb_true_iff in Hok. apply Z.leb_le. tauto.
Qed.

Lemma routeRun_reaches c key fetchUp to msg :
  trim to <> [] -> trim msg <> [] ->
  fst (routeRun emptyObject (Some (c :: key)) fetchUp to msg) =
    [Fetch {| up_phone := cleanedPhone (trim to);
              up_message := trim msg;
              up_api_key := c :: key |}].
Proof.
  intros Ht Hm. unfold routeRun.
  rewrite (@SmsRouteSpec.run_configured Data emptyObject c key _ fetchUp).
  cbv zeta. cbn [payload SmsRoute.phone SmsRoute.message orEmpty].
  destruct (trim to); [congruence|]. destruct (trim msg); [congruence|]. reflexivity.
Qed.

End Served.
End PagesOnRouteFacts.

Module PagesOnRouteSpec.
Import Js Eff Csv CsvFacts SmsRoute SmsClient PagesOnRoute PagesOnRouteFacts.

Section Served.
Variable Data : Type.
Variable emptyObject : Data.
Variable bodyText : Body Data -> jsstring.

(** One turn of the reminder loop writes the timestamp only after the SMS
    call has returned. *)
Lemma remindOne_update P net it reminded path ts :
  In (InspectionsList.Update path ts)
     (trace (InspectionsList.remindOne P net it reminded)) ->
  exists d,
    daysInStore P it = Some d /\ (100 < d)%Z /\
    truthy (InspectionsList.collectOwnerPhones (InspectionsList.meta it)) = true /\
    InspectionsList.smsResult net (InspectionsList.id it) = inr tt /\
    path = InspectionsList.impoundmentPath it /\ ts = InspectionsList.nowIso P.
Proof.
  unfold InspectionsList.remindOne, daysInStore, bind, Eff.get, tryCatch, call, modify, ret.
  cbv beta.
  destruct (InspectionsList.impoundment it) as [imp|]; [|intros []].
  destruct (negb _) eqn:Es; [intros []|].
  destruct (truthyOpt _); [intros []|].
  destruct (mem _ _); [intros []|].
  destruct (InspectionsList.daysBetween P _ _) as [d|]; [|intros []].
  destruct (d <=? 100)%Z eqn:Ed; [intros []|].
  destruct (negb (truthy _)) eqn:Et; [intros []|].
  apply negb_false_iff in Et. apply Z.leb_gt in Ed.
  destruct (InspectionsList.smsResult net (InspectionsList.id it)) as [e|[]];
    [intro H; inTrace H; discriminate H|].
  destruct (InspectionsList.updateResult net (InspectionsList.id it)) as [e|[]];
    intro H; inTrace H; try discriminate H;
    injection H as <- <-; exists d; repeat split; assumption.
Qed.

(** X9: with the key configured, every SMS the detail page and the list
    page ask for reaches the provider, and as the page built it: the route
    never refuses such a request for a blank phone or a blank message, the
    message is relayed unchanged, and so are the recipients that come from
    the stored contact phones alone. *)
Theorem page_requests_reach_provider c key
    (fetchUp : UpstreamRequest -> Exn + UpstreamResponse Data) :
  (forall P it d,
      let to := InspectionsList.collectOwnerPhones (InspectionsList.meta it) in
      let msg := InspectionsList.buildReminder100Message P it d in
      truthy to = true ->
      fst (routeRun emptyObject (Some (c :: key)) fetchUp to msg) =
        [Fetch {| up_phone := to; up_message := msg; up_api_key := c :: key |}]) /\
  (forall fmt it,
      let to := InspectionDetail.collectOwnerPhones it None in
      let msg := InspectionDetail.buildInStoreMessage fmt it in
      truthy to = true ->
      fst (routeRun emptyObject (Some (c :: key)) fetchUp to msg) =
        [Fetch {| up_phone := to; up_message := msg; up_api_key := c :: key |}]) /\
  (forall fmt it f,
      let to := InspectionDetail.collectOwnerPhones it (Some (InspectionDetail.telephone f)) in
      let msg := InspectionDetail.buildReleaseMessage fmt it f in
      truthy to = true ->
      fst (routeRun emptyObject (Some (c :: key)) fetchUp to msg) =
        [Fetch {| up_phone := cleanedPhone to; up_message := msg;
                  up_api_key := c :: key |}]).
Proof.
  repeat apply conj.
  - intros P it d to msg Ht. subst to msg.
    rewrite routeRun_reaches.
    + rewrite reminder_message_trimmed, PhoneListSpec.list_recipients.
      rewrite (JsFacts.trim_noWs (PhoneListSpec.recipients_noWs _)).
      rewrite PhoneListSpec.recipients_cleaned. reflexivity.
    + apply truthy_trim_noWs; [|exact Ht].
      rewrite PhoneListSpec.list_recipients. apply PhoneListSpec.recipients_noWs.
    + rewrite reminder_message_trimmed. discriminate.
  - intros fmt it to msg Ht. subst to msg.
    rewrite routeRun_reaches.
    + rewrite inStore_message_trimmed, PhoneListSpec.detail_recipients.
      rewrite (JsFacts.trim_noWs (PhoneListSpec.recipients_noWs _)).
      rewrite PhoneListSpec.recipients_cleaned. reflexivity.
    + apply truthy_trim_noWs; [apply detail_recipients_noWs|exact Ht].
    + rewrite inStore_message_trimmed. discriminate.
  - intros fmt it f to msg Ht. subst to msg.
    rewrite routeRun_reaches.
    + rewrite release_message_trimmed.
      rewrite (JsFacts.trim_noWs (detail_recipients_noWs _ _)). reflexivity.
    + apply truthy_trim_noWs; [apply detail_recipients_noWs|exact Ht].
    + rewrite release_message_trimmed. discriminate.
Qed.

(** X10: a release on the detail page whose SMS goes through the route is
    written to the store only when the provider has answered the relayed
    request, for those recipients and that message, with a status in
    200-299. *)
Theorem release_needs_provider fmt apiKey
    (fetchUp : UpstreamRequest -> Exn + UpstreamResponse Data)
    (net : InspectionDetail.Net) (st : InspectionDetail.State)
    (it : InspectionDetail.Inspection) path p :
  InspectionDetail.item st = Some it ->
  InspectionDetail.smsResult net =
    releaseSms (served emptyObject bodyText apiKey fetchUp) fmt st ->
  In (InspectionDetail.Update path p)
     (trace (InspectionDetail.handleReleaseSubmit fmt net st)) ->
  exists c key u,
    apiKey = Some (c :: key) /\
    fetchUp {| up_phone :=
                 cleanedPhone
                   (InspectionDetail.collectOwnerPhones it
                      (Some (InspectionDetail.telephone (InspectionDetail.form st))));
               up_message :=
                 InspectionDetail.buildReleaseMessage fmt it (InspectionDetail.form st);
               up_api_key := c :: key |} = inr u /\
    (200 <= up_status u <= 299)%Z.
Proof.
  intros Hit Hnet Hin.
  destruct (InspectionDetailFacts.handleReleaseSubmit_updates fmt net st path p Hin)
    as (_ & Hsms & _ & _).
  rewrite Hnet in Hsms. unfold releaseSms in Hsms. rewrite Hit in Hsms.
  destruct (send_served_ok Data emptyObject bodyText apiKey fetchUp _ _ Hsms)
    as (c & key & u & Hk & Hu & Hok).
  rewrite release_message_trimmed in Hu.
  rewrite (JsFacts.trim_noWs (detail_recipients_noWs _ _)) in Hu.
  exists c, key, u. auto.
Qed.

(** X11: a reminder of the list page whose SMS goes through the route
    stamps the record only when the provider has answered the relayed
    reminder with a status in 200-299, and only for a record more than 100
    days in store. *)
Theorem reminder_stamp_needs_provider P apiKey
    (fetchUp : UpstreamRequest -> Exn + UpstreamResponse Data)
    (net : InspectionsList.RemindNet) (it : InspectionsList.Inspection)
    reminded path ts :
  InspectionsList.smsResult net (InspectionsList.id it) =
    reminderSms (served emptyObject bodyText apiKey fetchUp) P it ->
  In (InspectionsList.Update path ts)
     (trace (InspectionsList.remindOne P net it reminded)) ->
  exists c key u d,
    apiKey = Some (c :: key) /\
    daysInStore P it = Some d /\ (100 < d)%Z /\
    fetchUp {| up_phone := InspectionsList.collectOwnerPhones (InspectionsList.meta it);
               up_message := InspectionsList.buildReminder100Message P it d;
               up_api_key := c :: key |} = inr u /\
    (200 <= up_status u <= 299)%Z.
Proof.
  intros Hnet Hin.
  destruct (remindOne_update P net it reminded path ts Hin)
    as (d & Hd & Hgt & _ & Hsms & _ & _).
  rewrite Hnet in Hsms. unfold reminderSms in Hsms. rewrite Hd in Hsms.
  destruct (send_served_ok Data emptyObject bodyText apiKey fetchUp _ _ Hsms)
    as (c & key & u & Hk & Hu & Hok).
  rewrite reminder_message_trimmed, PhoneListSpec.list_recipients in Hu.
  rewrite (JsFacts.trim_noWs (PhoneListSpec.recipients_noWs _)) in Hu.
  rewrite PhoneListSpec.recipients_cleaned in Hu.
  rewrite <- PhoneListSpec.list_recipients in Hu.
  exists c, key, u, d. auto.
Qed.

End Served.
End PagesOnRouteSpec.

(* ------------------------------------------------------------------ *)
(** ** The bounded-drugs pages: records, rows and the modal             *)
(* ------------------------------------------------------------------ *)

Module BoundedRowsFacts.
Import Js Eff BoundedDrugs BoundedDrugsRows.

Section Sorted.
Variable key : Inspection -> Z.







End Sorted.




End BoundedRowsFacts.

Module BoundedHandlerFacts.
Import Js Eff.


Lemma truthy_ne (s : jsstring) : truthy s = true -> s <> [].
Proof. destruct s; [discriminate|discriminate]. Qed.

Section Page.
Variable P : BoundedDrugs.Platform.
Variable me : option BoundedDrugs.User.




End Page.
End BoundedHandlerFacts.

Module BoundedPagesSpec.
Import Js Eff BoundedRowsFacts BoundedHandlerFacts.






(** X16: a modal that was just opened submits nothing.  [openModal] clears
    the count, the acknowledgements and the typed confirmation, so the
    confirmation is not given and [handleSubmitRelease] ends on a field
    error without any outside call. *)
Theorem fresh_modal_submits_nothing P me net row st :
  let st1 := BoundedDrugsRows.openModal P me row st in
  BoundedDrugs.target st1 = Some row /\
  BoundedDrugs.error st1 = None /\
  BoundedDrugs.canConfirm P st1 = false /\
  exists msg,
    (msg = lit "Release date is required." \/ msg = lit "Client name is required.") /\
    BoundedDrugs.handleSubmitRelease P me net st1 =
      ([], BoundedDrugs.setError (Some msg) st1, inr tt).
Proof.
  cbv zeta. repeat split.
  unfold BoundedDrugs.handleSubmitRelease, bind, Eff.get, BoundedDrugs.fail, modify.
  cbn [BoundedDrugsRows.openModal BoundedDrugs.target BoundedDrugs.form
       BoundedDrugs.relDate BoundedDrugs.clientName].
  destruct (firstn 10 (BoundedDrugs.nowIso P)) as [|c r].
  - exists (lit "Release date is required."). split; [auto|reflexivity].
  - exists (lit "Client name is required."). split; [auto|reflexivity].
Qed.

(** X17: nothing is written without the confirmation.  Whenever
    [handleSubmitRelease] makes an outside call, both acknowledgements are
    ticked and the typed text is RELEASE, in any case, or the record's
    serial number, in any case. *)
Theorem release_needs_confirmation P me net st :
  trace (BoundedDrugs.handleSubmitRelease P me net st) <> [] ->
  exists t,
    BoundedDrugs.target st = Some t /\
    BoundedDrugs.ack1 (BoundedDrugs.form st) = true /\
    BoundedDrugs.ack2 (BoundedDrugs.form st) = true /\
    let typed := trim (BoundedDrugs.confirmText (BoundedDrugs.form st)) in
    let serial := trim (BoundedDrugs.orElse (BoundedDrugs.serialNumber t) []) in
    (BoundedDrugs.toUpperCase P typed = lit "RELEASE" \/
     (serial <> [] /\
      BoundedDrugs.toLowerCase P typed = BoundedDrugs.toLowerCase P serial)).
Proof.
  intro H.
  destruct (BoundedDrugsFacts.handle_rejected P me net st)
    as [(t & c & Ht & _ & _ & _ & Hk) | [[Hn _] | [msg Hm]]].
  - exists t. split; [exact Ht|].
    unfold BoundedDrugs.canConfirm in Hk. rewrite Ht in Hk. cbv zeta in Hk.
    apply andb_true_iff in Hk. destruct Hk as [Hk Ho].
    apply andb_true_iff in Hk. destruct Hk as [H1 H2].
    repeat (split; [assumption|]).
    apply orb_true_iff in Ho. destruct Ho as [Ho|Ho].
    + left. apply InspectionsListFacts.jseqb_eq. exact Ho.
    + right. apply andb_true_iff in Ho. destruct Ho as [Hs Ho].
      split; [apply truthy_ne; exact Hs|].
      apply InspectionsListFacts.jseqb_eq. exact Ho.
  - rewrite Hn in H. exfalso. apply H. reflexivity.
  - rewrite Hm in H. exfalso. apply H. reflexivity.
Qed.

(** X18: on the earlier page the submit button and the handler agree.
    When [canSubmit] holds, [handleSubmitRelease] passes its guards: its
    first outside call is the push of the release record (or, if the date
    does not convert, the error is logged and nothing is written).  When it
    does not hold, the handler only sets an error and makes no outside
    call. *)
Theorem canSubmit_agrees P me net st :
  (BoundedFromInspectionsModal.canSubmit st = true ->
   exists t,
     BoundedFromInspections.targetRow st = Some t /\
     match BoundedDrugs.dateToISOString P (BoundedFromInspections.relDate st) with
     | inr d =>
         exists rest,
           trace (BoundedFromInspections.handleSubmitRelease P me net st) =
             BoundedFromInspections.pushEv P me t st
               (BoundedFromInspections.intendedCount st) d :: rest
     | inl _ =>
         trace (BoundedFromInspections.handleSubmitRelease P me net st) =
           [BoundedDrugs.ConsoleError]
     end) /\
  (BoundedFromInspectionsModal.canSubmit st = false ->
   trace (BoundedFromInspections.handleSubmitRelease P me net st) = [] /\
   (BoundedFromInspections.targetRow st <> None ->
    exists msg,
      BoundedFromInspections.saveError
        (final (BoundedFromInspections.handleSubmitRelease P me net st)) = Some msg)).
Proof.
  assert (BoundedFromInspectionsModal.canSubmit st = true <->
          exists t, BoundedFromInspections.targetRow st = Some t /\
                    BoundedFromInspections.fieldsOk st = true /\
                    (0 < BoundedFromInspections.intendedCount st
                       <= BoundedFromInspections.availableBoxes st)%Z) as Hiff.
  { unfold BoundedFromInspectionsModal.canSubmit, BoundedFromInspections.fieldsOk.
    destruct (BoundedFromInspections.targetRow st) as [t|].
    - destruct (truthy (BoundedFromInspections.relDate st));
      destruct (truthy (trim (BoundedFromInspections.clientName st)));
      destruct (truthy (trim (BoundedFromInspections.telephone st)));
      destruct (BoundedFromInspections.validateTel (BoundedFromInspections.telephone st));
      destruct (truthy (trim (BoundedFromInspections.releasedBy st)));
      cbn [negb orb andb];
      try (split; [discriminate|intros (? & _ & ? & _); discriminate]).
      rewrite Z.gtb_ltb.
      destruct (Z.eqb_spec (BoundedFromInspections.intendedCount st) 0);
      destruct (Z.leb_spec (BoundedFromInspections.intendedCount st) 0);
      destruct (Z.ltb_spec (BoundedFromInspections.availableBoxes st)
                           (BoundedFromInspections.intendedCount st));
      cbn [orb];
      (split; [try discriminate; intros _; exists t; repeat split; lia
              |try reflexivity; intros (? & _ & _ & ?); lia]).
    - split; [discriminate|]. intros (? & ? & _). discriminate. }
  split.
  - intro H. apply Hiff in H. destruct H as (t & Ht & Hf & Hr).
    exists t. split; [exact Ht|].
    rewrite (BoundedFromInspectionsFacts.handle_accepted' P me net st Ht Hf Hr),
      BoundedFromInspectionsFacts.accepted_run'.
    destruct (BoundedDrugs.dateToISOString P _) as [e|d]; [reflexivity|].
    destruct (BoundedFromInspections.pushResult net) as [e|[]]; [eexists; reflexivity|].
    destruct (BoundedFromInspections.updateResult net) as [e|[]]; eexists; reflexivity.
  - intro H.
    destruct (BoundedFromInspectionsFacts.handle_rejected' P me net st)
      as [Hacc | [[Hn Hnone] | [msg Hm]]].
    + apply Hiff in Hacc. congruence.
    + rewrite Hn. split; [reflexivity|]. intro. congruence.
    + rewrite Hm. split; [reflexivity|]. intros _. exists msg. reflexivity.
Qed.

End BoundedPagesSpec.

(* ------------------------------------------------------------------ *)
(** ** The inspections list: refresh, failures, order, the threshold    *)
(* ------------------------------------------------------------------ *)

Module ListPageSpec.
Import Js Eff InspectionsList InspectionsListRefresh.

Section Paging.
Variable key : Inspection -> Z.

Lemma loadMore_failed get st cursor e :
  lastSeenOrderVal st = Some cursor ->
  loadingMore st = false ->
  reachedEnd st = false ->
  get (cursorQuery cursor) = inl e ->
  loadMore key get st =
    ([Get (cursorQuery cursor); PagerConsoleError;
      PagerAlert (lit "Failed to load more records.")],
     st, inr tt).
Proof.
  intros Hc Hl He Hg.
  unfold loadMore, bind, Eff.get, tryFinally, tryCatch, call, modify, ret. cbv beta.
  rewrite Hc, Hl, He. cbn [orb]. rewrite Hg. cbn [app].
  destruct st as [its cur re lm]. cbn in *. subst. reflexivity.
Qed.

(** The items after one "load more". *)
Lemma loadMore_items get st :
  items (final (loadMore key get st)) = items st \/
  exists cursor snap,
    lastSeenOrderVal st = Some cursor /\
    get (cursorQuery cursor) = inr snap /\
    items (final (loadMore key get st)) =
      sortDesc key (mergeNew (items st) (sortDesc key snap)).
Proof.
  destruct (lastSeenOrderVal st) as [cursor|] eqn:Hc.
  - destruct (loadingMore st) eqn:Hl.
    + left. unfold loadMore, bind, Eff.get, ret, final. cbv beta.
      rewrite Hc, Hl. reflexivity.
    + destruct (reachedEnd st) eqn:He.
      * left. rewrite (InspectionsListFacts.loadMore_at_end key get st He). reflexivity.
      * destruct (get (cursorQuery cursor)) as [e|snap] eqn:Hg.
        -- left. rewrite (loadMore_failed get st cursor e Hc Hl He Hg). reflexivity.
        -- rewrite (InspectionsListFacts.loadMore_fetched key get st cursor snap Hc Hl He Hg).
           cbv zeta. unfold final. cbn [fst snd items].
           destruct (sortDesc key snap) as [|b bs] eqn:Eb; [left; reflexivity|].
           right. exists cursor, snap. rewrite Eb. auto.
  - left. unfold loadMore, bind, Eff.get, ret, final. cbv beta. rewrite Hc. reflexivity.
Qed.

Lemma mergeNew_In prev batch x :
  In x (mergeNew prev batch) -> In x prev \/ In x batch.
Proof.
  unfold mergeNew. intro H. apply in_app_or in H. destruct H as [H|H]; [auto|].
  apply filter_In in H. tauto.
Qed.

Lemma loadMore_sorted get st :
  StronglySorted (fun a b => (key b <= key a)%Z) (items st) ->
  StronglySorted (fun a b => (key b <= key a)%Z) (items (final (loadMore key get st))).
Proof.
  intro H. destruct (loadMore_items get st) as [->|(c & snap & _ & _ & ->)];
    [exact H|apply OrderFacts.sortDesc_sorted].
Qed.

Lemma loadMore_keeps get st x :
  In x (items st) -> In x (items (final (loadMore key get st))).
Proof.
  intro H. destruct (loadMore_items get st) as [->|(c & snap & _ & _ & ->)]; [exact H|].
  apply InspectionsListFacts.sortDesc_In. unfold mergeNew. apply in_or_app. left. exact H.
Qed.

Lemma loadMore_from_store ds st x :
  (forall y, In y (items st) -> In y ds) ->
  In x (items (final (loadMore key (storeGet ds) st))) -> In x ds.
Proof.
  intros Hst H.
  destruct (loadMore_items (storeGet ds) st) as [Heq|(c & snap & _ & Hg & Heq)];
    rewrite Heq in H; [auto|].
  apply InspectionsListFacts.sortDesc_In in H. apply mergeNew_In in H.
  destruct H as [H|H]; [auto|].
  apply InspectionsListFacts.sortDesc_In in H.
  unfold storeGet in Hg. injection Hg as <-.
  exact (proj1 (InspectionsListFacts.runQuery_In ds _ x H)).
Qed.

Lemma loadMoreTimes_step get n st :
  loadMoreTimes key get (S n) st =
    (trace (loadMore key get st) ++ fst (loadMoreTimes key get n (final (loadMore key get st))),
     snd (loadMoreTimes key get n (final (loadMore key get st)))).
Proof.
  cbn [loadMoreTimes]. destruct (loadMoreTimes key get n _). reflexivity.
Qed.

Lemma loadMoreTimes_inv (Inv : Pager -> Prop) get :
  (forall st, Inv st -> Inv (final (loadMore key get st))) ->
  forall n st, Inv st -> Inv (snd (loadMoreTimes key get n st)).
Proof.
  intros Hstep. induction n as [|n IH]; intros st H; [exact H|].
  rewrite loadMoreTimes_step. cbn [snd]. apply IH, Hstep, H.
Qed.

(** X19: the list stays ordered and only grows.  One "load more", whatever
    the store answers, keeps the items sorted by the sort key, newest
    first, and keeps every item that was shown; against a fixed dataset the
    items after any number of calls are sorted, are records of the dataset,
    and include the whole first page. *)
Theorem list_stays_ordered :
  (forall get st,
      StronglySorted (fun a b => (key b <= key a)%Z) (items st) ->
      StronglySorted (fun a b => (key b <= key a)%Z)
        (items (final (loadMore key get st)))) /\
  (forall get st x,
      In x (items st) -> In x (items (final (loadMore key get st)))) /\
  (forall ds n,
      let st := snd (loadMoreTimes key (storeGet ds) n (openPage key ds)) in
      StronglySorted (fun a b => (key b <= key a)%Z) (items st) /\
      (forall x, In x (items st) -> In x ds) /\
      (forall x, In x (items (openPage key ds)) -> In x (items st))).
Proof.
  split; [exact loadMore_sorted|]. split; [exact loadMore_keeps|].
  intros ds n. cbv zeta. split; [|split].
  - apply (loadMoreTimes_inv
             (fun st => StronglySorted (fun a b => (key b <= key a)%Z) (items st))).
    + intros st H. apply loadMore_sorted. exact H.
    + apply OrderFacts.sortDesc_sorted.
  - apply (loadMoreTimes_inv (fun st => forall x, In x (items st) -> In x ds)).
    + intros st H x. apply loadMore_from_store. exact H.
    + intros x H. unfold openPage, firstPage in H. cbn [items] in H.
      apply InspectionsListFacts.sortDesc_In in H.
      exact (proj1 (InspectionsListFacts.runQuery_In ds _ x H)).
  - apply (loadMoreTimes_inv
             (fun st => forall x, In x (items (openPage key ds)) -> In x (items st))).
    + intros st H x Hx. apply loadMore_keeps. apply H. exact Hx.
    + intros x H. exact H.
Qed.

(** X20: "load more" does nothing while a call is in flight or when there is
    no cursor, and a call that fails changes nothing: the page is as it
    was, after one fetch, one logged error and one alert, so the call can
    be repeated. *)
Theorem loadMore_guards_and_failure get st :
  (loadingMore st = true -> loadMore key get st = ([], st, inr tt)) /\
  (lastSeenOrderVal st = None -> loadMore key get st = ([], st, inr tt)) /\
  (forall cursor e,
      lastSeenOrderVal st = Some cursor ->
      loadingMore st = false ->
      reachedEnd st = false ->
      get (cursorQuery cursor) = inl e ->
      loadMore key get st =
        ([Get (cursorQuery cursor); PagerConsoleError;
          PagerAlert (lit "Failed to load more records.")],
         st, inr tt)).
Proof.
  split; [|split].
  - intro H. unfold loadMore, bind, Eff.get, ret. cbv beta. rewrite H.
    destruct (lastSeenOrderVal st); reflexivity.
  - intro H. unfold loadMore, bind, Eff.get, ret. cbv beta. rewrite H. reflexivity.
  - intros cursor e. apply loadMore_failed.
Qed.

(** X21: a refresh reloads the first page.  When the store answers, the
    pager is what the first snapshot installs for that answer: items
    sorted, cursor at the oldest item, end marked on a short page; the
    pages loaded before are gone.  When the store fails, the items stay,
    one alert is shown, and the cursor is cleared, so that "load more"
    does nothing until a later refresh succeeds. *)
Theorem refresh_reloads_first_page get (st : ListPage) :
  (forall snap,
      get firstQuery = inr snap ->
      onRefresh key get st =
        ([Get firstQuery],
         {| pager := setLoadingMore (loadingMore (pager st)) (firstPage key snap);
            refreshing := false |},
         inr tt)) /\
  (forall e,
      get firstQuery = inl e ->
      let r := onRefresh key get st in
      trace r = [Get firstQuery; PagerConsoleError;
                 PagerAlert (lit "Could not refresh. Check your connection and try again.")] /\
      outcome r = inr tt /\
      refreshing (final r) = false /\
      items (pager (final r)) = items (pager st) /\
      lastSeenOrderVal (pager (final r)) = None /\
      forall get', loadMore key get' (pager (final r)) = ([], pager (final r), inr tt)).
Proof.
  split.
  - intros snap Hg.
    unfold onRefresh, bind, Eff.get, tryFinally, tryCatch, call, modify, ret. cbv beta.
    rewrite Hg. reflexivity.
  - intros e Hg. cbv zeta.
    unfold onRefresh, bind, Eff.get, tryFinally, tryCatch, call, modify, ret,
      trace, outcome, final. cbv beta.
    rewrite Hg. cbn [fst snd app pager refreshing setRefreshing onPager items
                     lastSeenOrderVal setLastSeen setReachedEnd].
    repeat split.
Qed.

End Paging.

(** X22: the reminder waits for the hundred-and-first day.  A reminder SMS is
    sent only for a record in store, without a reminder timestamp and not
    yet reminded in the session, whose impoundment date (or, failing that,
    inspection date) lies at least 101 full days of 24 hours before now. *)
Theorem reminder_after_101_days P net it reminded to msg :
  In (Sms to msg) (trace (remindOne P net it reminded)) ->
  exists imp start ta tb,
    impoundment it = Some imp /\
    boxStatus imp = Some InStore /\
    truthyOpt (reminder100SentAt imp) = false /\
    mem (id it) reminded = false /\
    orNull [impoundmentDate imp; date (meta it)] = Some start /\
    dateParse P start = Some ta /\
    dateParse P (nowIso P) = Some tb /\
    (tb - ta >= 101 * (1000 * 60 * 60 * 24))%Z /\
    to = collectOwnerPhones (meta it) /\ to <> [].
Proof.
  unfold remindOne, bind, Eff.get, tryCatch, call, modify, ret. cbv beta.
  destruct (impoundment it) as [imp|]; [|intros []].
  destruct (boxStatus imp) as [[]|] eqn:Eb; cbn [negb BoxStatus_eqb]; try (intros []).
  destruct (truthyOpt _) eqn:Er; [intros []|].
  destruct (mem _ _) eqn:Em; [intros []|].
  unfold daysBetween.
  destruct (orNull _) as [[|s0 start]|] eqn:Eo; try (intros []).
  destruct (nowIso P) as [|n0 now] eqn:En; [intros []|].
  destruct (dateParse P (s0 :: start)) as [ta|] eqn:Ea; [|intros []].
  destruct (dateParse P (n0 :: now)) as [tb|] eqn:Et; [|intros []].
  destruct (_ <=? 100)%Z eqn:Ed; [intros []|].
  destruct (negb (truthy _)) eqn:Ep; [intros []|].
  apply negb_false_iff in Ep. apply Z.leb_gt in Ed.
  assert (tb - ta >= 101 * (1000 * 60 * 60 * 24))%Z as Hdays.
  { destruct (Z_lt_ge_dec (Z.max 0 (tb - ta)) (101 * (1000 * 60 * 60 * 24))) as [Hlt|Hge]; [|lia].
    exfalso.
    assert (Z.max 0 (tb - ta) / (1000 * 60 * 60 * 24) < 101)%Z
      by (apply Z.div_lt_upper_bound; lia).
    lia. }
  match goal with
  | |- _ -> ?G =>
      assert (In (Sms to msg)
                [Sms (collectOwnerPhones (meta it))
                   (buildReminder100Message P it
                      (Z.max 0 (tb - ta) / (1000 * 60 * 60 * 24)))] -> G) as Hfin
  end.
  { intros [H|[]]. injection H as <- <-.
    exists imp, (s0 :: start), ta, tb. repeat split; try assumption.
    destruct (collectOwnerPhones (meta it)); discriminate. }
  destruct (smsResult net (id it)) as [e|[]].
  - intro H. apply Hfin. cbn [trace fst app] in H.
    destruct H as [H|[H|[]]]; [left; exact H|discriminate H].
  - destruct (updateResult net (id it)) as [e|[]]; intro H; apply Hfin;
      cbn [trace fst app] in H.
    + destruct H as [H|[H|[H|[]]]]; [left; exact H|discriminate H|discriminate H].
    + destruct H as [H|[H|[]]]; [left; exact H|discriminate H].
Qed.

End ListPageSpec.

(* ------------------------------------------------------------------ *)
(** ** The inspection detail page: notification and recipients          *)
(* ------------------------------------------------------------------ *)

Module DetailPageSpec.
Import Js Eff Csv CsvFacts InspectionDetail.

Lemma join_not_nil (sep : cu) (l : list jsstring) (t : jsstring) :
  In t l -> t <> [] -> join [sep] l <> [].
Proof.
  destruct l as [|x [|y r]]; intros Hin Ht.
  - destruct Hin.
  - destruct Hin as [<-|[]]. exact Ht.
  - change (join [sep] (x :: y :: r)) with (x ++ sep :: join [sep] (y :: r)).
    destruct x; discriminate.
Qed.

(** A phone typed in the modal is always among the recipients. *)
Lemma extra_phone_counts it (tel : jsstring) :
  trim tel <> [] -> collectOwnerPhones it (Some tel) <> [].
Proof.
  intro H. unfold collectOwnerPhones, Phone.uniqueCsv. cbv zeta.
  assert (tel <> []) as Hne by (intros ->; apply H; reflexivity).
  destruct tel as [|c r]; [congruence|].
  pose proof (normalize_visible _ (trim_visible _ H)) as Hn.
  apply (join_not_nil 44%N _ (Phone.normalizeUgPhone (c :: r))); [|exact Hn].
  apply uniq_In. apply filter_In. split.
  - apply in_map. apply in_or_app. right. left. reflexivity.
  - destruct (Phone.normalizeUgPhone (c :: r)); [congruence|reflexivity].
Qed.

Lemma validateRelease_nil f consent :
  validateRelease f consent = [] ->
  truthy (releaseDate f) = true /\ truthy (trim (clientName f)) = true /\
  truthy (trim (telephone f)) = true /\ truthy (trim (releasedBy f)) = true /\
  allDigits1 (boxesReleased f) = true /\ consent = true.
Proof.
  unfold validateRelease. intro H.
  repeat (apply app_eq_nil in H; destruct H as [? H]).
  repeat match goal with
         | Hx : (if ?b then _ else _) = [] |- _ =>
             destruct b eqn:?; [discriminate Hx|clear Hx]
         end.
  repeat match goal with
         | Hx : negb _ = false |- _ => apply negb_false_iff in Hx
         | Hx : _ || _ = false |- _ => apply orb_false_iff in Hx; destruct Hx
         end.
  repeat split; assumption.
Qed.

Section Page.
Variable fmtDate : option jsstring -> jsstring.

(** X23: a release form that validates always has a recipient, so the
    release goes on to the SMS: the phone typed in the modal counts, and
    the error "No facility contact phone available." cannot be the
    page's own. *)
Theorem validated_release_sends net st rid it :
  validateRelease (form st) (consent st) = [] ->
  routeId st = Some rid -> item st = Some it ->
  collectOwnerPhones it (Some (telephone (form st))) <> [] /\
  exists rest,
    trace (handleReleaseSubmit fmtDate net st) =
      Sms (collectOwnerPhones it (Some (telephone (form st))))
          (buildReleaseMessage fmtDate it (form st)) :: rest.
Proof.
  intros Hv Hr Hi.
  destruct (validateRelease_nil _ _ Hv) as (_ & _ & Ht & _).
  assert (collectOwnerPhones it (Some (telephone (form st))) <> []) as Hto.
  { apply extra_phone_counts. destruct (trim (telephone (form st))); discriminate. }
  split; [exact Hto|].
  unfold handleReleaseSubmit, bind, Eff.get, tryFinally, tryCatch, call, modify, ret,
    throw, trace. cbv beta.
  rewrite Hv, Hr, Hi.
  destruct (collectOwnerPhones it (Some (telephone (form st)))) as [|c r] eqn:Ec;
    [congruence|].
  cbn [truthy fst snd app].
  destruct (smsResult net) as [e|[]]; [eexists; reflexivity|].
  destruct (updateResult net) as [e|[]]; eexists; reflexivity.
Qed.

(** X24: saving the status writes first and notifies second.  An "In Store"
    SMS goes out only for a draft of "In Store", only after the status
    write has succeeded, and to the stored contact phones; the save then
    ends normally whether or not the SMS was accepted.  The save ends with
    an exception only when the status write failed, and then nothing was
    sent.  The saving flag is off whenever a write was attempted. *)
Theorem status_save_then_notify net st :
  (forall to msg,
      In (Sms to msg) (trace (saveBoxStatus fmtDate net st)) ->
      exists rid it rest,
        routeId st = Some rid /\ item st = Some it /\
        statusDraft st = InStore /\
        updateResult net = inr tt /\
        to = collectOwnerPhones it None /\
        msg = buildInStoreMessage fmtDate it /\
        trace (saveBoxStatus fmtDate net st) =
          Update (submissionPath rid ++ lit "/impoundment") (StatusPatch InStore)
            :: Sms to msg :: rest /\
        outcome (saveBoxStatus fmtDate net st) = inr tt) /\
  (forall e,
      outcome (saveBoxStatus fmtDate net st) = inl e ->
      updateResult net = inl e /\
      exists path,
        trace (saveBoxStatus fmtDate net st) = [Update path (StatusPatch (statusDraft st))]) /\
  (forall path p,
      In (Update path p) (trace (saveBoxStatus fmtDate net st)) ->
      savingStatus (final (saveBoxStatus fmtDate net st)) = false).
Proof.
  unfold saveBoxStatus, bind, Eff.get, tryFinally, tryCatch, call, modify, ret,
    trace, outcome, final. cbv beta.
  destruct (routeId st) as [rid|];
    [|split; [intros ? ? []|split; [discriminate|intros ? ? []]]].
  destruct (item st) as [it|];
    [|split; [intros ? ? []|split; [discriminate|intros ? ? []]]].
  destruct (BoxStatus_eqb (currentStatus st) Released).
  { cbn [fst snd app]. split; [|split].
    - intros to msg [H|[]]. discriminate H.
    - discriminate.
    - intros path p [H|[]]. discriminate H. }
  destruct (statusDraft st) eqn:Ed; cbn [BoxStatus_eqb fst snd app].
  - destruct (updateResult net) as [e|[]]; cbn [fst snd app]; (split; [|split]).
    + intros to msg [H|[]]. discriminate H.
    + intros e' [= <-]. split; [reflexivity|eexists; reflexivity].
    + reflexivity.
    + intros to msg [H|[]]. discriminate H.
    + discriminate.
    + reflexivity.
  - destruct (updateResult net) as [e|[]]; cbn [fst snd app].
    + split; [|split].
      * intros to msg [H|[]]. discriminate H.
      * intros e' [= <-]. split; [reflexivity|eexists; reflexivity].
      * reflexivity.
    + destruct (truthy (collectOwnerPhones it None)) eqn:Et.
      * destruct (smsResult net) as [e|[]]; cbn [fst snd app]; (split; [|split]).
        -- intros to msg [H|[H|[H|[H|[]]]]]; try discriminate H.
           injection H as <- <-. exists rid, it. eexists. repeat split.
        -- discriminate.
        -- reflexivity.
        -- intros to msg [H|[H|[H|[]]]]; try discriminate H.
           injection H as <- <-. exists rid, it. eexists. repeat split.
        -- discriminate.
        -- reflexivity.
      * cbn [fst snd app]. split; [|split].
        -- intros to msg [H|[]]. discriminate H.
        -- discriminate.
        -- reflexivity.
  - cbn [fst snd app]. split; [|split].
    + intros to msg [H|[]]. discriminate H.
    + discriminate.
    + intros path p [H|[]]. discriminate H.
Qed.

End Page.
End DetailPageSpec.

(* ------------------------------------------------------------------ *)
(** ** The new-inspection page: document and serial numbers            *)
(* ------------------------------------------------------------------ *)

Module NumberingFacts.
Import Js NewInspectionForm.
















End NumberingFacts.

Module NumberingSpec.
Import Js NewInspectionForm NumberingFacts.



End NumberingSpec.

(* ------------------------------------------------------------------ *)
(** ** The new-inspection page: the submission                         *)
(* ------------------------------------------------------------------ *)

Module NewFormFacts.
Import Js Eff Phone NewInspection NewInspectionForm Csv CsvFacts.

Lemma ws_not_digit (c : cu) : isWhiteSpace c = true -> isDigit c = false.
Proof.
  intro H. destruct (isDigit c) eqn:E; [|reflexivity].
  rewrite (JsFacts.digit_not_ws _ E) in H. discriminate.
Qed.

Lemma digitsPrefix_blank (ds b : jsstring) :
  forallb isDigit ds = true -> blank b -> digitsPrefix (ds ++ b) = ds.
Proof.
  intros Hd Hb. induction ds as [|c ds IH].
  - destruct b as [|c b]; [reflexivity|]. cbn [app digitsPrefix].
    unfold blank in Hb. cbn [forallb] in Hb. apply andb_true_iff in Hb.
    rewrite (ws_not_digit _ (proj1 Hb)). reflexivity.
  - cbn [forallb] in Hd. apply andb_true_iff in Hd. destruct Hd as [Hc Hd].
    cbn [app digitsPrefix]. rewrite Hc, (IH Hd). reflexivity.
Qed.

Lemma trimStart_trim (s : jsstring) : exists b, blank b /\ trimStart s = trim s ++ b.
Proof. exact (trimEnd_split (trimStart s)). Qed.

(** [parseInt] reads the whole of a field that is digits between white
    space. *)
Lemma parseInt_padded (s : jsstring) :
  allDigits1 (trim s) = true -> parseInt s = Some (decVal (trim s)).
Proof.
  intro H. destruct (trimStart_trim s) as (b & Hb & E).
  unfold parseInt. rewrite E. unfold allDigits1 in H.
  destruct (trim s) as [|c ds] eqn:Et; [discriminate|].
  assert (isDigit c = true) as Hc
      by (cbn [forallb] in H; apply andb_true_iff in H; tauto).
  change ((c :: ds) ++ b) with (c :: (ds ++ b)).
  rewrite (@ValidationSpec.splitSign_digit c (ds ++ b) Hc).
  change (c :: (ds ++ b)) with ((c :: ds) ++ b).
  rewrite (digitsPrefix_blank _ _ H Hb). reflexivity.
Qed.

Section Facts.
Variables Coords Json : Type.
Variable emptyJson : Json.
Variable P : Platform.


Lemma buildPayload_run (st s : State Coords Json) :
  exists r, buildPayload P st s = ([], s, r) /\
    forall p, r = inr p ->
      exists iso v l,
        dateToISOString P (date (formData st)) = inr iso /\
        p = payloadOf P st iso v l iso.
Proof.
  unfold buildPayload, isoOrNull, bind, lift, ret. cbv zeta beta.
  destruct (dateToISOString P (date (formData st))) as [e|iso].
  { eexists. split; [reflexivity|discriminate]. }
  destruct (truthy (lastVisit st));
    [destruct (dateToISOString P (lastVisit st)) as [e|v];
       [eexists; split; [reflexivity|discriminate]|]|];
    (destruct (truthy (lastLicenseDate st));
     [destruct (dateToISOString P (lastLicenseDate st)) as [e|l];
        [eexists; split; [reflexivity|discriminate]|]|]);
    cbn [app]; (eexists; split; [reflexivity|]); intros p [= <-];
    do 3 eexists; split; reflexivity.
Qed.

Lemma hardReset_run (net : Net Json) (f : FormData Coords) (s : State Coords Json) :
  exists w d sn,
    hardReset P net f s = (Reserve _ :: w, resetState P d sn s, inr tt) /\
    ((reserveNumbers (txResult net) = inr (d, sn) /\ w = []) \/
     ((exists e, reserveNumbers (txResult net) = inl e) /\
      w = [ConsoleWarn _] /\ d = docNo f /\ sn = serialNumber f)).
Proof.
  unfold hardReset, bind, tryCatch, call, modify, ret. cbv beta.
  destruct (reserveNumbers (txResult net)) as [e|[d sn]]; cbn [app fst snd].
  - exists [ConsoleWarn _], (docNo f), (serialNumber f). split; [reflexivity|].
    right. split; [exists e; reflexivity|]. repeat split.
  - exists [], d, sn. split; [reflexivity|]. left. split; reflexivity.
Qed.

Lemma notifyOwner_run (net : Net Json) (st s : State Coords Json) (p : Payload Coords) :
  exists t s',
    notifyOwner emptyJson P net st p s = (t, s', inr tt) /\
    ((notifies (formData st) = false /\ t = []) \/
     (notifies (formData st) = true /\
      exists w,
        t = Post _ (recipients (trim (drugshopContactPhones (formData st))))
              (buildImpoundMessage P (m_serialNumber (p_meta p))
                 (m_drugshopName (p_meta p)) (m_boxesImpounded (p_meta p))
                 (m_date (p_meta p)) (m_impoundedBy (p_meta p))
                 (impoundReasons st)) :: w /\
        (w = [] \/ w = [ConsoleWarn _]))).
Proof.
  unfold notifyOwner. cbv zeta.
  destruct (notifies (formData st)) eqn:En.
  2:{ exists [], s. split; [reflexivity|]. left. split; reflexivity. }
  unfold tryCatch, sendSmsTo, bind, call, modify, ret, throw. cbv beta.
  destruct (fetchResult net) as [e|r]; cbn [app fst snd].
  - do 2 eexists. split; [reflexivity|]. right.
    split; [reflexivity|]. eexists. split; [reflexivity|]. right. reflexivity.
  - destruct (negb (SmsClient.a_ok r)); cbn [app fst snd].
    + do 2 eexists. split; [reflexivity|]. right.
      split; [reflexivity|]. eexists. split; [reflexivity|]. right. reflexivity.
    + do 2 eexists. split; [reflexivity|]. right.
      split; [reflexivity|]. eexists. split; [reflexivity|]. left. reflexivity.
Qed.

(** ** What [validateForm] lets through *)

Lemma validateForm_ok (f : FormData Coords) :
  snd (validateForm f) = true <->
  nameMissing f = false /\ boxesInvalid f = false /\ phonesError f = None.
Proof.
  unfold validateForm. cbn [snd].
  destruct (nameMissing f), (boxesInvalid f), (phonesError f); cbn;
    split; intro H; try discriminate; try (repeat split; reflexivity);
    destruct H as (? & ? & ?); discriminate.
Qed.


Lemma valid_name (f : FormData Coords) :
  snd (validateForm f) = true -> trim (drugshopName f) <> [].
Proof.
  intro H. apply validateForm_ok in H. destruct H as (Hn & _ & _).
  unfold nameMissing in Hn. destruct (trim (drugshopName f)); [discriminate|discriminate].
Qed.

Lemma valid_boxes (f : FormData Coords) :
  snd (validateForm f) = true ->
  (boxesImpounded f = [] /\ trim (boxesImpounded f) = []) \/
  allDigits1 (trim (boxesImpounded f)) = true.
Proof.
  intro H. apply validateForm_ok in H. destruct H as (_ & Hb & _).
  unfold boxesInvalid in Hb. destruct (boxesImpounded f) as [|c r] eqn:E.
  - left. split; reflexivity.
  - right. cbn [truthy andb] in Hb. apply negb_false_iff in Hb. exact Hb.
Qed.

(** A form that passed and notifies names a positive count, the one
    [boxesNum] read. *)
Lemma notified_boxes (f : FormData Coords) :
  snd (validateForm f) = true -> notifies f = true ->
  sendSms f = true /\ validatePhones (drugshopContactPhones f) = None /\
  forallb isDigit (trim (boxesImpounded f)) = true /\
  trim (boxesImpounded f) <> [] /\
  decVal (trim (boxesImpounded f)) = boxesNum f /\ (0 < boxesNum f)%Z.
Proof.
  intros Hok Hn. unfold notifies in Hn. apply andb_true_iff in Hn.
  destruct Hn as [Hn _]. apply andb_true_iff in Hn. destruct Hn as [Hs Hb].
  pose proof (proj1 (validateForm_ok f) Hok) as (_ & _ & Hp).
  unfold phonesError in Hp. rewrite Hs, Hb in Hp. cbn [andb] in Hp.
  assert (0 < boxesNum f)%Z as Hpos by (apply Z.gtb_lt; exact Hb).
  split; [exact Hs|]. split; [exact Hp|].
  destruct (valid_boxes f Hok) as [[He _]|Hd].
  - unfold boxesNum in Hpos. rewrite He in Hpos. cbn in Hpos. lia.
  - pose proof (parseInt_padded _ Hd) as Hpi.
    unfold allDigits1 in Hd.
    destruct (trim (boxesImpounded f)) as [|c r] eqn:Et; [discriminate|].
    split; [exact Hd|]. split; [discriminate|].
    split; [|exact Hpos].
    unfold boxesNum. rewrite Hpi.
    destruct (boxesImpounded f); [discriminate Et|reflexivity].
Qed.

(** The recipients of a contact list that [validatePhones] accepts. *)
Lemma accepted_recipients (raw : jsstring) :
  validatePhones raw = None ->
  recipients (trim raw) = recipients raw /\
  recipients raw <> [] /\
  (forall t, In t (splitCsv (Some (recipients raw))) -> ugReCanonical t = true) /\
  NoDup (splitCsv (Some (recipients raw))).
Proof.
  intro H. apply PhoneListSpec.validatePhones_None in H. destruct H as [Hne Hall].
  pose proof (PhoneListSpec.splitCsv_uniqueCsv_normalized (Some raw)) as Hr.
  fold (recipients raw) in Hr.
  split; [unfold recipients; rewrite splitCsv_trim; reflexivity|].
  split; [|split].
  - intro Hnil. rewrite Hnil in Hr.
    change (splitCsv (Some [])) with (@nil jsstring) in Hr.
    destruct (splitCsv (Some raw)) as [|x r]; [congruence|].
    assert (In (normalizeUgPhone x) (uniq (map normalizeUgPhone (x :: r)))) as Hin
        by (apply uniq_In; left; reflexivity).
    rewrite <- Hr in Hin. exact Hin.
  - rewrite Hr. intros t Ht. apply (proj1 (uniq_In _ _)) in Ht. apply in_map_iff in Ht.
    destruct Ht as (x & <- & Hx). apply Hall. exact Hx.
  - rewrite Hr. apply uniq_NoDup.
Qed.

(** ** The runs of [handleSubmit] *)

Lemma submit_cases (net : Net Json) (st : State Coords Json) :
  let f := formData st in
  let st0 := setFormErrors (fun _ => snd (fst (validateForm f)))
               (setErrors (fst (fst (validateForm f))) (setLastSmsResult None st)) in
  let failed e := setIsSubmitting false
                    (setFormErrors (fun _ => failureSummary (friendlyError P e))
                       (setIsSubmitting true st0)) in
  let bad e := [ConsoleError Coords; Alert _ (failureAlert (friendlyError P e))] in
  (snd (validateForm f) = false /\
   handleSubmit emptyJson P net st = ([ScrollToError _], st0, inr tt)) \/
  (snd (validateForm f) = true /\
   ((exists e, handleSubmit emptyJson P net st = (bad e, failed e, inr tt)) \/
    (exists p iso v l,
       onLine P = true /\
       dateToISOString P (date f) = inr iso /\ p = payloadOf P st iso v l iso /\
       ((exists e, pushResult net = inl e /\
           handleSubmit emptyJson P net st = (Push p :: bad e, failed e, inr tt)) \/
        (pushResult net = inr tt /\
         exists sms w d sn,
           handleSubmit emptyJson P net st
             = (Push p :: sms ++ [Alert _ (lit "Inspection submitted.");
                                  RemoveAutosave _; Reserve _] ++ w,
                setIsSubmitting false (resetState P d sn st), inr tt) /\
           ((notifies f = false /\ sms = []) \/
            (notifies f = true /\
             exists w',
               sms = Post _ (recipients (trim (drugshopContactPhones f)))
                       (buildImpoundMessage P (m_serialNumber (p_meta p))
                          (m_drugshopName (p_meta p)) (m_boxesImpounded (p_meta p))
                          (m_date (p_meta p)) (m_impoundedBy (p_meta p))
                          (impoundReasons st)) :: w' /\
               (w' = [] \/ w' = [ConsoleWarn _]))) /\
           ((reserveNumbers (txResult net) = inr (d, sn) /\ w = []) \/
            ((exists e, reserveNumbers (txResult net) = inl e) /\
             w = [ConsoleWarn _] /\ d = docNo f /\ sn = serialNumber f))))))).
Proof.
  cbv zeta. remember (handleSubmit emptyJson P net st) as r eqn:Er.
  unfold handleSubmit, bind, Eff.get, modify, tryFinally, tryCatch, call, ret in Er.
  cbv beta in Er.
  destruct (validateForm (formData st)) as [[next summary] ok] eqn:Ev.
  cbn [fst snd]. cbv beta iota in Er. cbn [app] in Er.
  destruct ok; cbn [negb] in Er;
    [right; split; [reflexivity|]|left; split; [reflexivity|exact Er]].
  match type of Er with context [buildPayload P st ?s] =>
    destruct (buildPayload_run st s) as (rp & E & Hp); rewrite E in Er end.
  cbv beta iota in Er.
  destruct rp as [e|p].
  { left. exists e. exact Er. }
  destruct (Hp p eq_refl) as (iso & v & l & Hiso & Hpay).
  unfold pushWithGuard, throw, call in Er.
  destruct (onLine P) eqn:Eon; cbn [negb] in Er; cbv beta iota in Er.
  2:{ left. eexists. exact Er. }
  right. exists p, iso, v, l. split; [reflexivity|]. split; [exact Hiso|].
  split; [exact Hpay|].
  destruct (pushResult net) as [e|[]]; cbv beta iota in Er; cbn [app] in Er.
  { left. exists e. split; [reflexivity|exact Er]. }
  right. split; [reflexivity|].
  match type of Er with context [notifyOwner emptyJson P net st p ?s] =>
    destruct (notifyOwner_run net st s p) as (t & s' & En & Hn); rewrite En in Er end.
  cbv beta iota in Er.
  match type of Er with context [hardReset P net ?f ?s] =>
    destruct (hardReset_run net f s) as (w & d & sn & Eh & Hw); rewrite Eh in Er end.
  cbv beta iota in Er. cbn [app] in Er.
  exists t, w, d, sn. split; [exact Er|]. split; assumption.
Qed.

End Facts.
End NewFormFacts.

Module NewFormSpec.
Import Js Eff Phone NewInspection NewInspectionForm NewFormFacts.

Section Spec.
Variables Coords Json : Type.
Variable emptyJson : Json.
Variable P : Platform.

Local Ltac cases net st :=
  let C := fresh "C" in
  pose proof (submit_cases Coords Json emptyJson P net st) as C; cbv zeta in C;
  destruct C as
    [[Hok E]
    |[Hok [[e E]
          |(p0 & iso & v & l & Hon & Hiso & Hp &
            [(e & Hpush & E)
            |(Hpush & sms & w & d & sn & E &
              [[Hnot ->]|(Hnot & w' & -> & Hw')] & Hres)])]]];
  rewrite E in *.

Local Ltac conjs := repeat match goal with |- _ /\ _ => split end.

(** X27: a record is pushed only for a form that passed [validateForm], only
    while the browser is online, and once.  The record carries the trimmed
    name, which is not empty; its two box counts are the same string, empty
    or digits only; its two dates are the same conversion of the form's
    date; it is marked [submitted] from [web], names who created it, and
    has the answers of exactly the ten questions shown. *)
Theorem pushed_record_sound (net : Net Json) (st : State Coords Json)
    (p : Payload Coords) :
  In (Push p) (trace (handleSubmit emptyJson P net st)) ->
  snd (validateForm (formData st)) = true /\
  onLine P = true /\
  (exists rest,
     trace (handleSubmit emptyJson P net st) = Push p :: rest /\
     forall q, ~ In (Push q) rest) /\
  m_drugshopName (p_meta p) = trim (drugshopName (formData st)) /\
  m_drugshopName (p_meta p) <> [] /\
  i_totalBoxes (p_impoundment p) = m_boxesImpounded (p_meta p) /\
  (m_boxesImpounded (p_meta p) = [] \/
   allDigits1 (m_boxesImpounded (p_meta p)) = true) /\
  dateToISOString P (date (formData st)) = inr (m_date (p_meta p)) /\
  i_impoundmentDate (p_impoundment p) = m_date (p_meta p) /\
  m_status (p_meta p) = lit "submitted" /\
  m_source (p_meta p) = lit "web" /\
  m_createdBy (p_meta p) <> [] /\
  map fst (p_outlet p) = outletKeys /\
  i_reasons (p_impoundment p) = impoundReasons st.
Proof.
  intro H.
  assert (exists iso v l rest,
            snd (validateForm (formData st)) = true /\ onLine P = true /\
            dateToISOString P (date (formData st)) = inr iso /\
            p = payloadOf P st iso v l iso /\
            trace (handleSubmit emptyJson P net st) = Push p :: rest /\
            forall q, ~ In (Push q) rest) as (iso & v & l & rest & Hok' & Hon' & Hiso' & -> & Et & Hrest).
  { cases net st.
    - inTrace H.
    - inTrace H.
    - inTrace H. injection H as <-.
      exists iso, v, l. eexists. conjs; try assumption; try reflexivity.
      subst p0. intros q Hq. inTrace Hq.
    - destruct Hres as [[_ ->]|(_ & -> & _)];
        inTrace H; injection H as <-;
        exists iso, v, l; eexists; (conjs; try assumption; try reflexivity);
        subst p0; intros q Hq; inTrace Hq.
    - destruct Hw' as [->| ->], Hres as [[_ ->]|(_ & -> & _)];
        inTrace H; injection H as <-;
        exists iso, v, l; eexists; (conjs; try assumption; try reflexivity);
        subst p0; intros q Hq; inTrace Hq. }
  split; [exact Hok'|]. split; [exact Hon'|].
  split; [exists rest; split; assumption|].
  cbn [payloadOf metaOf p_meta p_impoundment p_outlet m_drugshopName m_boxesImpounded
       m_date m_status m_source m_createdBy i_totalBoxes i_impoundmentDate i_reasons].
  split; [reflexivity|]. split; [exact (valid_name _ _ Hok')|].
  split; [reflexivity|].
  split; [destruct (valid_boxes _ _ Hok') as [[_ Hb]|Hb]; [left|right]; exact Hb|].
  split; [exact Hiso'|]. split; [reflexivity|]. split; [reflexivity|].
  split; [reflexivity|].
  split; [destruct (currentUserEmail P) as [[|c r]|]; discriminate|].
  split; reflexivity.
Qed.

(** X28: an SMS goes out only after the push of the record has succeeded, and
    at most once; the submission then ends normally and announces
    [Inspection submitted.] whatever the relay answers.  It goes to the
    form's contact list in normal form, which is not empty and holds only
    distinct canonical numbers; it opens with the trimmed name and the
    count, a positive number in digits, so neither [Facility] nor [0]
    stands in for them. *)
Theorem impound_sms_after_push (net : Net Json) (st : State Coords Json)
    (to msg : jsstring) :
  In (Post _ to msg) (trace (handleSubmit emptyJson P net st)) ->
  exists p rest tail,
    trace (handleSubmit emptyJson P net st) = Push p :: Post _ to msg :: rest /\
    (forall q m, ~ In (Post _ q m) rest) /\
    In (Alert _ (lit "Inspection submitted.")) rest /\
    pushResult net = inr tt /\
    outcome (handleSubmit emptyJson P net st) = inr tt /\
    sendSms (formData st) = true /\
    to = recipients (drugshopContactPhones (formData st)) /\
    to <> [] /\
    (forall t, In t (splitCsv (Some to)) -> ugReCanonical t = true) /\
    NoDup (splitCsv (Some to)) /\
    trim (drugshopName (formData st)) <> [] /\
    forallb isDigit (trim (boxesImpounded (formData st))) = true /\
    (0 < decVal (trim (boxesImpounded (formData st))))%Z /\
    msg = lit "Dear " ++ trim (drugshopName (formData st)) ++ lit ", "
          ++ trim (boxesImpounded (formData st))
          ++ lit " box(es) were impounded on " ++ tail.
Proof.
  intro H.
  assert (exists rest,
            snd (validateForm (formData st)) = true /\
            notifies (formData st) = true /\ pushResult net = inr tt /\
            (exists iso v l,
               trace (handleSubmit emptyJson P net st)
               = Push (payloadOf P st iso v l iso) :: Post _ to msg :: rest /\
               to = recipients (trim (drugshopContactPhones (formData st))) /\
               msg = buildImpoundMessage P
                       (m_serialNumber (p_meta (payloadOf P st iso v l iso)))
                       (m_drugshopName (p_meta (payloadOf P st iso v l iso)))
                       (m_boxesImpounded (p_meta (payloadOf P st iso v l iso)))
                       (m_date (p_meta (payloadOf P st iso v l iso)))
                       (m_impoundedBy (p_meta (payloadOf P st iso v l iso)))
                       (impoundReasons st)) /\
            (forall q m, ~ In (Post _ q m) rest) /\
            In (Alert _ (lit "Inspection submitted.")) rest /\
            outcome (handleSubmit emptyJson P net st) = inr tt)
    as (rest & Hok' & Hnot' & Hpush' & (iso & v & l & Et & Hto & Hmsg) & Hrest & Hal & Hout).
  { cases net st.
    - inTrace H.
    - inTrace H.
    - inTrace H.
    - destruct Hres as [[_ ->]|(_ & -> & _)]; inTrace H.
    - subst p0.
      destruct Hw' as [->| ->], Hres as [[_ ->]|(_ & -> & _)];
        inTrace H; injection H as <- <-;
        eexists; (conjs; try assumption; try reflexivity);
        try (exists iso, v, l; conjs; reflexivity);
        try (intros q m Hq; inTrace Hq);
        cbn [In app]; tauto. }
  destruct (notified_boxes _ _ Hok' Hnot') as (Hs & Hv & Hd & Hne & Hval & Hpos).
  destruct (accepted_recipients _ Hv) as (Htrim & Hrne & Hcan & Hnd).
  rewrite Htrim in Hto. subst to.
  exists (payloadOf P st iso v l iso), rest.
  cbn [payloadOf metaOf p_meta m_serialNumber m_drugshopName m_boxesImpounded
       m_date m_impoundedBy] in Hmsg.
  unfold buildImpoundMessage in Hmsg.
  pose proof (valid_name _ _ Hok') as Hname.
  destruct (trim (drugshopName (formData st))) as [|c1 n1] eqn:En; [congruence|].
  destruct (trim (boxesImpounded (formData st))) as [|c2 b2] eqn:Eb; [congruence|].
  cbn [truthy] in Hmsg.
  eexists. conjs; try assumption; try reflexivity.
  - rewrite Hval. exact Hpos.
  - rewrite Hmsg. reflexivity.
Qed.

(** X29: once [Inspection submitted.] is announced the record has been
    pushed, the autosave is removed and new numbers are requested; the form
    is then blank again with the SMS box ticked and today's date, it shows
    no error and no SMS result even when an SMS was tried, and it is not
    submitting.  It carries the newly reserved numbers, or, when the
    reservation failed, the numbers of the record just submitted. *)
Theorem submitted_form_is_reset (net : Net Json) (st : State Coords Json) :
  In (Alert _ (lit "Inspection submitted.")) (trace (handleSubmit emptyJson P net st)) ->
  (exists p, In (Push p) (trace (handleSubmit emptyJson P net st))) /\
  pushResult net = inr tt /\
  In (RemoveAutosave _) (trace (handleSubmit emptyJson P net st)) /\
  In (Reserve _) (trace (handleSubmit emptyJson P net st)) /\
  (exists d sn,
     final (handleSubmit emptyJson P net st)
       = setIsSubmitting false (resetState P d sn st) /\
     match reserveNumbers (txResult net) with
     | inr n => n = (d, sn)
     | inl _ => d = docNo (formData st) /\ sn = serialNumber (formData st)
     end) /\
  drugshopName (formData (final (handleSubmit emptyJson P net st))) = [] /\
  drugshopContactPhones (formData (final (handleSubmit emptyJson P net st))) = [] /\
  boxesImpounded (formData (final (handleSubmit emptyJson P net st))) = [] /\
  sendSms (formData (final (handleSubmit emptyJson P net st))) = true /\
  date (formData (final (handleSubmit emptyJson P net st))) = todayLocal P /\
  impoundReasons (final (handleSubmit emptyJson P net st)) = [] /\
  outletAnswers (final (handleSubmit emptyJson P net st)) = [] /\
  formErrors (final (handleSubmit emptyJson P net st)) = [] /\
  lastSmsResult (final (handleSubmit emptyJson P net st)) = None /\
  isSubmitting (final (handleSubmit emptyJson P net st)) = false.
Proof.
  intro H.
  cases net st.
  - inTrace H.
  - inTrace H.
  - inTrace H.
  - split; [exists p0; left; reflexivity|]. split; [exact Hpush|].
    split; [cbn [trace fst app]; right; right; left; reflexivity|].
    split; [cbn [trace fst app]; right; right; right; left; reflexivity|].
    split; [|cbn [final fst snd]; conjs; reflexivity].
    exists d, sn. split; [reflexivity|].
    destruct Hres as [[-> _]|([e' ->] & _ & -> & ->)]; [reflexivity|split; reflexivity].
  - split; [exists p0; left; reflexivity|]. split; [exact Hpush|].
    split; [cbn [trace fst]; right; right; apply in_or_app; right; right; left; reflexivity|].
    split; [cbn [trace fst]; right; right; apply in_or_app; right; right; right; left; reflexivity|].
    split; [|cbn [final fst snd]; conjs; reflexivity].
    exists d, sn. split; [reflexivity|].
    destruct Hres as [[-> _]|([e' ->] & _ & -> & ->)]; [reflexivity|split; reflexivity].
Qed.


End Spec.
End NewFormSpec.

(* ------------------------------------------------------------------ *)
(** ** More scenarios                                                   *)
(* ------------------------------------------------------------------ *)

Module RelayScenarios.
Import Js Eff Examples RelayExamples.

(** Three spellings of two numbers: two canonical recipients. *)
Lemma contact_list_made_canonical :
  let raw := lit "0772123456, 256701234567 ,+256 772 123456" in
  NewInspection.recipients (trim raw) <> [] /\
  forall t, In t (Phone.splitCsv (Some (NewInspection.recipients (trim raw)))) ->
            Phone.ugReCanonical t = true.
Proof.
  cbv zeta. apply PhoneListSpec.validated_recipients_canonical.
  vm_compute. reflexivity.
Defined.

(** A release on the detail page through the relay: the store is written,
    and the provider had accepted the SMS. *)
Lemma release_through_relay :
  exists c key u,
    Some (lit "key") = Some (c :: key) /\
    provider200
      {| SmsRoute.up_phone :=
           SmsRoute.cleanedPhone
             (InspectionDetail.collectOwnerPhones
                {| InspectionDetail.id := Some (lit "-Nabc");
                   InspectionDetail.meta := InspectionDetail.meta stored;
                   InspectionDetail.impoundment := InspectionDetail.impoundment stored;
                   InspectionDetail.releaseRecord := None |}
                (Some (lit "0772123456")));
         SmsRoute.up_message :=
           InspectionDetail.buildReleaseMessage showDate
             {| InspectionDetail.id := Some (lit "-Nabc");
                InspectionDetail.meta := InspectionDetail.meta stored;
                InspectionDetail.impoundment := InspectionDetail.impoundment stored;
                InspectionDetail.releaseRecord := None |}
             (detailForm (lit "5"));
         SmsRoute.up_api_key := c :: key |} = inr u /\
    (200 <= SmsRoute.up_status u <= 299)%Z.
Proof.
  apply (PagesOnRouteSpec.release_needs_provider unit tt relayText showDate
           (Some (lit "key")) provider200
           (detailOnRelay (detailPage (lit "5"))) (detailPage (lit "5"))
           {| InspectionDetail.id := Some (lit "-Nabc");
              InspectionDetail.meta := InspectionDetail.meta stored;
              InspectionDetail.impoundment := InspectionDetail.impoundment stored;
              InspectionDetail.releaseRecord := None |}
           (lit "ndachecklists/submissions/-Nabc")
           (InspectionDetail.ReleasePatch InspectionDetail.Released (detailForm (lit "5")))).
  - reflexivity.
  - reflexivity.
  - vm_compute. right. left. reflexivity.
Defined.

(** A reminder through the relay: the record is stamped, and the provider
    had accepted the SMS, 142 days after the impoundment. *)
Lemma reminder_through_relay :
  exists c key u d,
    Some (lit "key") = Some (c :: key) /\
    PagesOnRoute.daysInStore listPlatform (inStore (Some (lit "0772123456"))) = Some d /\
    (100 < d)%Z /\
    provider200
      {| SmsRoute.up_phone :=
           InspectionsList.collectOwnerPhones
             (InspectionsList.meta (inStore (Some (lit "0772123456"))));
         SmsRoute.up_message :=
           InspectionsList.buildReminder100Message listPlatform
             (inStore (Some (lit "0772123456"))) d;
         SmsRoute.up_api_key := c :: key |} = inr u /\
    (200 <= SmsRoute.up_status u <= 299)%Z.
Proof.
  apply (PagesOnRouteSpec.reminder_stamp_needs_provider unit tt relayText listPlatform
           (Some (lit "key")) provider200
           (listOnRelay (inStore (Some (lit "0772123456"))))
           (inStore (Some (lit "0772123456"))) []
           (lit "ndachecklists/submissions/-Nabc/impoundment")
           (lit "2025-06-01T00:00:00.000Z")).
  - reflexivity.
  - vm_compute. right. left. reflexivity.
Defined.

(** The reminder of the example is sent 142 days after the impoundment. *)
Lemma reminder_sent_late_enough :
  exists imp start ta tb,
    InspectionsList.impoundment (inStore (Some (lit "0772123456"))) = Some imp /\
    InspectionsList.boxStatus imp = Some InspectionsList.InStore /\
    truthyOpt (InspectionsList.reminder100SentAt imp) = false /\
    mem (InspectionsList.id (inStore (Some (lit "0772123456")))) [] = false /\
    InspectionsList.orNull
      [InspectionsList.impoundmentDate imp;
       InspectionsList.date (InspectionsList.meta (inStore (Some (lit "0772123456"))))]
      = Some start /\
    InspectionsList.dateParse listPlatform start = Some ta /\
    InspectionsList.dateParse listPlatform (InspectionsList.nowIso listPlatform) = Some tb /\
    (tb - ta >= 101 * (1000 * 60 * 60 * 24))%Z /\
    lit "+256772123456" =
      InspectionsList.collectOwnerPhones
        (InspectionsList.meta (inStore (Some (lit "0772123456")))) /\
    lit "+256772123456" <> [].
Proof.
  apply (ListPageSpec.reminder_after_101_days listPlatform relayUp
           (inStore (Some (lit "0772123456"))) [] (lit "+256772123456")
           (InspectionsList.buildReminder100Message listPlatform
              (inStore (Some (lit "0772123456"))) 142)).
  vm_compute. left. reflexivity.
Defined.


(** The release of the example was confirmed by typing "release". *)
Lemma release_was_confirmed :
  exists t,
    BoundedDrugs.target (modalOn shop (lit "5")) = Some t /\
    BoundedDrugs.ack1 (BoundedDrugs.form (modalOn shop (lit "5"))) = true /\
    BoundedDrugs.ack2 (BoundedDrugs.form (modalOn shop (lit "5"))) = true /\
    let typed := trim (BoundedDrugs.confirmText (BoundedDrugs.form (modalOn shop (lit "5")))) in
    let serial := trim (BoundedDrugs.orElse (BoundedDrugs.serialNumber t) []) in
    (BoundedDrugs.toUpperCase platform typed = lit "RELEASE" \/
     (serial <> [] /\
      BoundedDrugs.toLowerCase platform typed = BoundedDrugs.toLowerCase platform serial)).
Proof.
  apply (BoundedPagesSpec.release_needs_confirmation platform None allFine
           (modalOn shop (lit "5"))).
  vm_compute. discriminate.
Defined.

(** The release form of the example has a recipient, and the SMS is the
    first thing the release does. *)
Lemma release_form_has_recipient :
  InspectionDetail.collectOwnerPhones
    {| InspectionDetail.id := Some (lit "-Nabc");
       InspectionDetail.meta := InspectionDetail.meta stored;
       InspectionDetail.impoundment := InspectionDetail.impoundment stored;
       InspectionDetail.releaseRecord := None |}
    (Some (InspectionDetail.telephone (InspectionDetail.form (detailPage (lit "5"))))) <> [] /\
  exists rest,
    trace (InspectionDetail.handleReleaseSubmit showDate detailFine (detailPage (lit "5"))) =
      InspectionDetail.Sms
        (InspectionDetail.collectOwnerPhones
           {| InspectionDetail.id := Some (lit "-Nabc");
              InspectionDetail.meta := InspectionDetail.meta stored;
              InspectionDetail.impoundment := InspectionDetail.impoundment stored;
              InspectionDetail.releaseRecord := None |}
           (Some (InspectionDetail.telephone (InspectionDetail.form (detailPage (lit "5"))))))
        (InspectionDetail.buildReleaseMessage showDate
           {| InspectionDetail.id := Some (lit "-Nabc");
              InspectionDetail.meta := InspectionDetail.meta stored;
              InspectionDetail.impoundment := InspectionDetail.impoundment stored;
              InspectionDetail.releaseRecord := None |}
           (InspectionDetail.form (detailPage (lit "5")))) :: rest.
Proof.
  apply (DetailPageSpec.validated_release_sends showDate detailFine (detailPage (lit "5"))
           (lit "-Nabc")); reflexivity.
Defined.


(** The filled-in form is pushed once, with its name trimmed. *)
Lemma filled_form_is_pushed :
  snd (NewInspectionForm.validateForm (NewInspectionForm.formData filledState)) = true /\
  NewInspectionForm.onLine browser = true /\
  (exists rest,
     trace (NewInspectionForm.handleSubmit tt browser relayDown filledState)
       = NewInspectionForm.Push filledPayload :: rest /\
     forall q, ~ In (NewInspectionForm.Push q) rest) /\
  NewInspectionForm.m_drugshopName (NewInspectionForm.p_meta filledPayload)
    = trim (NewInspectionForm.drugshopName (NewInspectionForm.formData filledState)) /\
  NewInspectionForm.m_drugshopName (NewInspectionForm.p_meta filledPayload) <> [] /\
  NewInspectionForm.i_totalBoxes (NewInspectionForm.p_impoundment filledPayload)
    = NewInspectionForm.m_boxesImpounded (NewInspectionForm.p_meta filledPayload) /\
  (NewInspectionForm.m_boxesImpounded (NewInspectionForm.p_meta filledPayload) = [] \/
   allDigits1
     (NewInspectionForm.m_boxesImpounded (NewInspectionForm.p_meta filledPayload)) = true) /\
  NewInspectionForm.dateToISOString browser
    (NewInspectionForm.date (NewInspectionForm.formData filledState))
    = inr (NewInspectionForm.m_date (NewInspectionForm.p_meta filledPayload)) /\
  NewInspectionForm.i_impoundmentDate (NewInspectionForm.p_impoundment filledPayload)
    = NewInspectionForm.m_date (NewInspectionForm.p_meta filledPayload) /\
  NewInspectionForm.m_status (NewInspectionForm.p_meta filledPayload) = lit "submitted" /\
  NewInspectionForm.m_source (NewInspectionForm.p_meta filledPayload) = lit "web" /\
  NewInspectionForm.m_createdBy (NewInspectionForm.p_meta filledPayload) <> [] /\
  map fst (NewInspectionForm.p_outlet filledPayload) = NewInspectionForm.outletKeys /\
  NewInspectionForm.i_reasons (NewInspectionForm.p_impoundment filledPayload)
    = NewInspectionForm.impoundReasons filledState.
Proof.
  apply (NewFormSpec.pushed_record_sound (Z * Z)%type unit tt browser relayDown
           filledState filledPayload).
  vm_compute. left. reflexivity.
Defined.

(** Its SMS goes to the one canonical number behind the two spellings,
    after the push, and the relay's refusal does not fail the submission. *)
Lemma filled_form_notifies :
  exists p rest tail,
    trace (NewInspectionForm.handleSubmit tt browser relayDown filledState)
      = NewInspectionForm.Push p
          :: NewInspectionForm.Post _ (lit "+256772123456") filledMessage :: rest /\
    (forall q m, ~ In (NewInspectionForm.Post _ q m) rest) /\
    In (NewInspectionForm.Alert _ (lit "Inspection submitted.")) rest /\
    NewInspectionForm.pushResult relayDown = inr tt /\
    outcome (NewInspectionForm.handleSubmit tt browser relayDown filledState) = inr tt /\
    NewInspectionForm.sendSms (NewInspectionForm.formData filledState) = true /\
    lit "+256772123456"
      = NewInspection.recipients
          (NewInspectionForm.drugshopContactPhones (NewInspectionForm.formData filledState)) /\
    lit "+256772123456" <> [] /\
    (forall t, In t (Phone.splitCsv (Some (lit "+256772123456"))) ->
               Phone.ugReCanonical t = true) /\
    NoDup (Phone.splitCsv (Some (lit "+256772123456"))) /\
    trim (NewInspectionForm.drugshopName (NewInspectionForm.formData filledState)) <> [] /\
    forallb isDigit
      (trim (NewInspectionForm.boxesImpounded (NewInspectionForm.formData filledState)))
      = true /\
    (0 < decVal
           (trim (NewInspectionForm.boxesImpounded (NewInspectionForm.formData filledState))))%Z /\
    filledMessage
      = lit "Dear "
        ++ trim (NewInspectionForm.drugshopName (NewInspectionForm.formData filledState))
        ++ lit ", "
        ++ trim (NewInspectionForm.boxesImpounded (NewInspectionForm.formData filledState))
        ++ lit " box(es) were impounded on " ++ tail.
Proof.
  apply (NewFormSpec.impound_sms_after_push (Z * Z)%type unit tt browser relayDown
           filledState (lit "+256772123456") filledMessage).
  vm_compute. right. left. reflexivity.
Defined.

(** After it the form is blank, with the numbers of counter 42. *)
Lemma filled_form_is_reset :
  (exists p,
     In (NewInspectionForm.Push p)
        (trace (NewInspectionForm.handleSubmit tt browser relayDown filledState))) /\
  NewInspectionForm.pushResult relayDown = inr tt /\
  In (NewInspectionForm.RemoveAutosave _)
     (trace (NewInspectionForm.handleSubmit tt browser relayDown filledState)) /\
  In (NewInspectionForm.Reserve _)
     (trace (NewInspectionForm.handleSubmit tt browser relayDown filledState)) /\
  (exists d sn,
     final (NewInspectionForm.handleSubmit tt browser relayDown filledState)
       = NewInspectionForm.setIsSubmitting false
           (NewInspectionForm.resetState browser d sn filledState) /\
     match NewInspectionForm.reserveNumbers (NewInspectionForm.txResult relayDown) with
     | inr n => n = (d, sn)
     | inl _ =>
         d = NewInspectionForm.docNo (NewInspectionForm.formData filledState) /\
         sn = NewInspectionForm.serialNumber (NewInspectionForm.formData filledState)
     end) /\
  NewInspectionForm.drugshopName
    (NewInspectionForm.formData
       (final (NewInspectionForm.handleSubmit tt browser relayDown filledState))) = [] /\
  NewInspectionForm.drugshopContactPhones
    (NewInspectionForm.formData
       (final (NewInspectionForm.handleSubmit tt browser relayDown filledState))) = [] /\
  NewInspectionForm.boxesImpounded
    (NewInspectionForm.formData
       (final (NewInspectionForm.handleSubmit tt browser relayDown filledState))) = [] /\
  NewInspectionForm.sendSms
    (NewInspectionForm.formData
       (final (NewInspectionForm.handleSubmit tt browser relayDown filledState))) = true /\
  NewInspectionForm.date
    (NewInspectionForm.formData
       (final (NewInspectionForm.handleSubmit tt browser relayDown filledState)))
    = NewInspectionForm.todayLocal browser /\
  NewInspectionForm.impoundReasons
    (final (NewInspectionForm.handleSubmit tt browser relayDown filledState)) = [] /\
  NewInspectionForm.outletAnswers
    (final (NewInspectionForm.handleSubmit tt browser relayDown filledState)) = [] /\
  NewInspectionForm.formErrors
    (final (NewInspectionForm.handleSubmit tt browser relayDown filledState)) = [] /\
  NewInspectionForm.lastSmsResult
    (final (NewInspectionForm.handleSubmit tt browser relayDown filledState)) = None /\
  NewInspectionForm.isSubmitting
    (final (NewInspectionForm.handleSubmit tt browser relayDown filledState)) = false.
Proof.
  apply (NewFormSpec.submitted_form_is_reset (Z * Z)%type unit tt browser relayDown
           filledState).
  vm_compute. do 3 right. left. reflexivity.
Defined.

End RelayScenarios.
